(** * The agent invocation pipeline of agentic-claude

    A shallow embedding of [adws/bun_modules/claude-executor.ts], of
    [truncateOutput] from [adws/bun_modules/utils.ts], of the data models of
    [adws/bun_modules/models.ts] and of the two bash wrappers
    [adws/bash/claude-code-exec.sh] and [adws/bash/claude-code-template.sh].

    Strings are sequences of code units; the model's strings hold the code
    units below 256.  A number that the code only compares or counts is an
    integer ([Z]).  Console logging is write-only and is left out of the
    world; every other effect (file reads and writes, subprocess launches,
    sleeping) is threaded through an explicit state. *)

From Stdlib Require Import String Ascii List ZArith Bool Lia.
Import ListNotations.
Open Scope string_scope.
Open Scope Z_scope.

#[local] Set Warnings "-register-all".

(* ================================================================== *)
(** ** Built-in string operations used by the sources *)
(* ================================================================== *)

Module JSString.

Definition LF : ascii := ascii_of_nat 10.
Definition SPACE : ascii := ascii_of_nat 32.

(** The double quote, and a text between double quotes. *)
Definition DQ : string := String (ascii_of_nat 34) EmptyString.
Definition quoted (s : string) : string := DQ ++ s ++ DQ.

(** White space and line terminators removed by [String.prototype.trim],
    among the code units below 256: TAB, LF, VT, FF, CR, SP, NBSP. *)
Definition is_ws (c : ascii) : bool :=
  let n := nat_of_ascii c in
  (Nat.eqb n 9 || Nat.eqb n 10 || Nat.eqb n 11 || Nat.eqb n 12
   || Nat.eqb n 13 || Nat.eqb n 32 || Nat.eqb n 160)%bool.

Fixpoint trimStart (s : string) : string :=
  match s with
  | String c r => if is_ws c then trimStart r else s
  | EmptyString => EmptyString
  end.

Fixpoint trimEnd (s : string) : string :=
  match s with
  | String c r =>
      match trimEnd r with
      | EmptyString => if is_ws c then EmptyString else String c EmptyString
      | r' => String c r'
      end
  | EmptyString => EmptyString
  end.

Definition trim (s : string) : string := trimEnd (trimStart s).

(** [s.split(sep)] for a one-unit separator: never the empty list. *)
Fixpoint split (sep : ascii) (s : string) : list string :=
  match s with
  | EmptyString => [EmptyString]
  | String c r =>
      if Ascii.eqb c sep then EmptyString :: split sep r
      else match split sep r with
           | x :: xs => String c x :: xs
           | [] => [String c EmptyString]
           end
  end.

(** [xs.join(sep)] on an array of strings. *)
Definition array_join (sep : string) (xs : list string) : string :=
  String.concat sep xs.

Definition startsWith (s p : string) : bool := String.prefix p s.

Fixpoint includes (s p : string) : bool :=
  if String.prefix p s then true
  else match s with
       | String _ r => includes r p
       | EmptyString => false
       end.

Definition len (s : string) : Z := Z.of_nat (String.length s).

(** Position of the last [c] among the first [n] code units of [s],
    counted from [base]; [-1] when there is none. *)
Fixpoint last_in_prefix (c : ascii) (s : string) (n : nat) (base : Z) : Z :=
  match n, s with
  | S n', String d r =>
      let later := last_in_prefix c r n' (base + 1) in
      if 0 <=? later then later
      else if Ascii.eqb d c then base else -1
  | _, _ => -1
  end.

(** [s.lastIndexOf(c, fromIndex)] for a one-unit search string: the
    start position is clamped to [0 .. length], and the match must start
    at or before it. *)
Definition lastIndexOf (s : string) (c : ascii) (fromIndex : Z) : Z :=
  let from := Z.max 0 (Z.min fromIndex (len s)) in
  last_in_prefix c s (Z.to_nat (from + 1)) 0.

Fixpoint take (n : nat) (s : string) : string :=
  match n, s with
  | S n', String c r => String c (take n' r)
  | _, _ => EmptyString
  end.

(** [s.slice(0, e)]: a negative end counts from the end of the string. *)
Definition slice0 (s : string) (e : Z) : string :=
  let stop := if e <? 0 then Z.max (len s + e) 0 else Z.min e (len s) in
  take (Z.to_nat stop) s.

Fixpoint drop (n : nat) (s : string) : string :=
  match n, s with
  | S n', String _ r => drop n' r
  | _, _ => s
  end.

(** [s.replace(pat, rep)] with a string pattern: the first occurrence
    only. *)
Fixpoint replace (s pat rep : string) : string :=
  if String.prefix pat s then rep ++ drop (String.length pat) s
  else match s with
       | String c r => String c (replace r pat rep)
       | EmptyString => EmptyString
       end.

(** Decimal digits of a positive number, most significant first. *)
Fixpoint digits_fuel (fuel : nat) (n : N) (acc : string) : string :=
  match fuel with
  | O => acc
  | S f =>
      let d := ascii_of_N (48 + N.modulo n 10) in
      let q := N.div n 10 in
      if N.eqb q 0 then String d acc else digits_fuel f q (String d acc)
  end.

(** [String(n)] for an integer [n]. *)
Definition of_Z (z : Z) : string :=
  let n := Z.abs_N z in
  let ds := digits_fuel (S (N.to_nat (N.log2 n))) n EmptyString in
  if z <? 0 then String "-" ds else ds.

(** [\w] of a regular expression: letters, digits and underscore. *)
Definition is_word (c : ascii) : bool :=
  let n := nat_of_ascii c in
  ((Nat.leb 48 n && Nat.leb n 57) || (Nat.leb 65 n && Nat.leb n 90)
   || (Nat.leb 97 n && Nat.leb n 122) || Nat.eqb n 95)%bool.

Fixpoint take_while (p : ascii -> bool) (s : string) : string :=
  match s with
  | String c r => if p c then String c (take_while p r) else EmptyString
  | EmptyString => EmptyString
  end.

End JSString.
Import JSString.

(* ================================================================== *)
(** ** Parsed JSON and the values the code reads out of it *)
(* ================================================================== *)

(** A value produced by [JSON.parse].  A number is carried as the literal it
    was written with; what the runtime makes of it is left to the runtime
    (see [Runtime]).  An object keeps its members in source order, and a
    later member overrides an earlier one with the same key. *)
Inductive JSON : Type :=
| JNull
| JBool (b : bool)
| JNumber (literal : string)
| JString (s : string)
| JArray (items : list JSON)
| JObject (members : list (string * JSON)).

(** A JavaScript value as the code sees it: [None] is [undefined]. *)
Definition JSValue : Type := option JSON.

(** Outcome of an operation that may throw; the payload of [Throw] is the
    text that [`${error}`] gives for the thrown value. *)
Inductive Result (A : Type) : Type :=
| Ok (a : A)
| Throw (error : string).
Arguments Ok {A} a.
Arguments Throw {A} error.

Fixpoint lookup_member (k : string) (ms : list (string * JSON)) : JSValue :=
  match ms with
  | [] => None
  | (k', v) :: rest =>
      match lookup_member k rest with
      | Some v' => Some v'
      | None => if String.eqb k k' then Some v else None
      end
  end.

(** [v.k] for a parsed value [v] and a key [k] that no prototype defines
    ([type], [subtype], [is_error], [result], [session_id], [message],
    [content], [text]): reading a property of [null] throws a TypeError,
    a primitive or an array has no such property. *)
Definition prop (v : JSON) (k : string) : Result JSValue :=
  match v with
  | JNull => Throw "TypeError: null is not an object"
  | JObject ms => Ok (lookup_member k ms)
  | _ => Ok None
  end.

(** [v?.k]. *)
Definition opt_prop (v : JSValue) (k : string) : JSValue :=
  match v with
  | Some (JObject ms) => lookup_member k ms
  | _ => None
  end.

(** [v === s] for a string constant [s]. *)
Definition is_string (v : JSValue) (s : string) : bool :=
  match v with
  | Some (JString s') => String.eqb s' s
  | _ => false
  end.

(** [typeof v === "string"]. *)
Definition typeof_string (v : JSValue) : bool :=
  match v with
  | Some (JString _) => true
  | _ => false
  end.

(** What the code takes from the JavaScript runtime and from Node's [path]
    module.  None of it is part of the repository, so the development is
    stated for an arbitrary runtime; [bun] further down is a concrete one,
    used to evaluate the model on concrete inputs. *)
Class Runtime : Type := {
  (** [JSON.parse(text)]; [None] when it throws a SyntaxError. *)
  JSON_parse : string -> option JSON;
  (** [JSON.stringify(value, null, 2)]. *)
  JSON_stringify : JSON -> string;
  (** [path.join(...segments)] and [path.dirname(p)]. *)
  join : list string -> string;
  dirname : string -> string;
  (** Truth value of a number. *)
  number_truthy : string -> bool;
  (** [`${v}`] for a number, an array or an object: the text, or the
      TypeError of an object that cannot be converted. *)
  to_text : JSON -> Result string;
  (** [v > n] for a parsed value [v]. *)
  greater_than : JSON -> Z -> bool;
  (** Text of the TypeError raised by calling [startsWith] on a value that
      is not a string. *)
  not_a_function : string
}.

Section JSValues.
Context {RT : Runtime}.

(** Truth value of a JavaScript value. *)
Definition truthy (v : JSValue) : bool :=
  match v with
  | None => false
  | Some JNull => false
  | Some (JBool b) => b
  | Some (JNumber n) => number_truthy n
  | Some (JString s) => negb (String.eqb s "")
  | Some (JArray _) => true
  | Some (JObject _) => true
  end.

(** [v || d]. *)
Definition or_else (v : JSValue) (d : JSON) : JSON :=
  match v with
  | Some x => if truthy v then x else d
  | None => d
  end.

(** [`${v}`]. *)
Definition template (v : JSValue) : Result string :=
  match v with
  | None => Ok "undefined"
  | Some JNull => Ok "null"
  | Some (JBool true) => Ok "true"
  | Some (JBool false) => Ok "false"
  | Some (JString s) => Ok s
  | Some x => to_text x
  end.

(** [v.length > n] for a truthy value [v]. *)
Definition length_greater (v : JSON) (n : Z) : bool :=
  match v with
  | JString s => len s >? n
  | JArray items => Z.of_nat (List.length items) >? n
  | JObject ms =>
      match lookup_member "length" ms with
      | Some l => greater_than l n
      | None => false
      end
  | _ => false
  end.

Definition parse_json (text : string) : Result JSON :=
  match JSON_parse text with
  | Some v => Ok v
  | None => Throw "SyntaxError: JSON Parse error"
  end.

End JSValues.

(* ================================================================== *)
(** ** utils.ts: [truncateOutput] *)
(* ================================================================== *)

Section Utils.
Context {RT : Runtime}.

(** The text [{"type":] that opens an event line. *)
Definition TYPE_MARKER : string := "{" ++ quoted "type" ++ ":".

Definition DEFAULT_SUFFIX : string := "... (truncated)".

(** The test [output.startsWith('{"type":') && output.includes('\n{"type":')]. *)
Definition looks_like_jsonl (output : string) : bool :=
  startsWith output TYPE_MARKER && includes output (String LF TYPE_MARKER).

(** The body of the [try] for one line of the backward scan: the text the
    line asks to truncate instead, if any.  [None] stands for every way of
    going on to the previous line: an empty line, a line that does not
    parse, a property read that throws, a message with no usable text,
    and a truthy text that is not a string (the recursive call then
    throws a TypeError, which the [catch] swallows). *)
Definition message_text (line : string) : option string :=
  if String.eqb line "" then None
  else
    match JSON_parse line with
    | None => None
    | Some data =>
        match prop data "type" with
        | Throw _ => None
        | Ok ty =>
            let result := opt_prop (Some data) "result" in
            if is_string ty "result" && typeof_string result then
              match result with
              | Some (JString s) => Some s
              | _ => None
              end
            else if is_string ty "assistant"
                    && truthy (opt_prop (opt_prop (Some data) "message") "content")
            then
              let content := opt_prop (opt_prop (Some data) "message") "content" in
              let text :=
                match content with
                | Some (JArray items) => opt_prop (List.hd_error items) "text"
                | _ => None
                end in
              match text with
              | Some (JString s) => if truthy text then Some s else None
              | _ => None
              end
            else None
        end
    end.

(** The regular truncation, below the JSONL test. *)
Definition truncate_plain (output : string) (maxLength : Z) (suffix : string)
  : string :=
  if len output <=? maxLength then output
  else
    let truncateAt := maxLength - len suffix in
    let newlinePos := lastIndexOf output LF truncateAt in
    if (newlinePos >? truncateAt - 50) && (newlinePos >? 0) then
      slice0 output newlinePos ++ suffix
    else
      let spacePos := lastIndexOf output SPACE truncateAt in
      if (spacePos >? truncateAt - 20) && (spacePos >? 0) then
        slice0 output spacePos ++ suffix
      else slice0 output truncateAt ++ suffix.

(** [truncateOutput], with the depth of its recursion bounded by [fuel].
    The recursive call is on a text taken out of one parsed line, so a
    fuel above the length of [output] is never used up by a runtime whose
    parser returns texts shorter than its input (see [parse_shrinks]). *)
Fixpoint truncateOutput_fuel (fuel : nat) (output : string) (maxLength : Z)
  (suffix : string) : string :=
  if looks_like_jsonl output then
    let lines := split LF (trim output) in
    let fix scan (from_last : list string) : string :=
      match from_last with
      | line :: earlier =>
          match message_text line with
          | Some text =>
              match fuel with
              | S fuel' => truncateOutput_fuel fuel' text maxLength suffix
              | O => text
              end
          | None => scan earlier
          end
      | [] =>
          "[JSONL output with " ++ of_Z (Z.of_nat (List.length lines))
            ++ " messages]" ++ suffix
      end in
    scan (rev lines)
  else truncate_plain output maxLength suffix.

Definition truncateOutput (output : string) (maxLength : Z) (suffix : string)
  : string :=
  truncateOutput_fuel (String.length output) output maxLength suffix.

End Utils.

(* ================================================================== *)
(** ** models.ts: requests, responses and retry codes *)
(* ================================================================== *)

Inductive RetryCode : Type :=
| NONE
| CLAUDE_CODE_ERROR
| TIMEOUT_ERROR
| EXECUTION_ERROR
| ERROR_DURING_EXECUTION.

Definition RetryCode_eqb (a b : RetryCode) : bool :=
  match a, b with
  | NONE, NONE
  | CLAUDE_CODE_ERROR, CLAUDE_CODE_ERROR
  | TIMEOUT_ERROR, TIMEOUT_ERROR
  | EXECUTION_ERROR, EXECUTION_ERROR
  | ERROR_DURING_EXECUTION, ERROR_DURING_EXECUTION => true
  | _, _ => false
  end.

(** The model of a request.  The schemas declare
    [z.enum(["sonnet", "opus"])], but the executor never runs a schema: it
    takes the request as it is handed over and passes [request.model] on,
    and the scripts fill the field from the command line by a cast.  So a
    model is any string here; [SONNET] and [OPUS] are the two values of the
    constant [ModelType]. *)
Definition ModelType : Type := string.
Definition SONNET : ModelType := "sonnet".
Definition OPUS : ModelType := "opus".

Record AgentPromptRequest : Type := {
  prompt : string;
  adw_id : string;
  agent_name : string;
  model : ModelType;
  dangerously_skip_permissions : bool;
  output_file : string;
  working_dir : option string
}.

(** [output] and [session_id] are declared as strings, but are filled with
    whatever the result message holds, so they are JavaScript values here. *)
Record AgentPromptResponse : Type := {
  output : JSON;
  success : bool;
  session_id : JSValue;
  retry_code : RetryCode
}.

Module Template.
Record AgentTemplateRequest : Type := {
  agent_name : string;
  slash_command : string;
  args : list string;
  adw_id : string;
  model : ModelType;
  working_dir : option string
}.
End Template.

(* ================================================================== *)
(** ** Effects: a state and exception monad *)
(* ================================================================== *)

(** A computation over a state [S] that returns or throws; the state
    changes made before a throw persist. *)
Definition M (S A : Type) : Type := S -> Result A * S.

Definition ret {S A : Type} (a : A) : M S A := fun s => (Ok a, s).

Definition throw {S A : Type} (e : string) : M S A := fun s => (Throw e, s).

Definition bind {S A B : Type} (m : M S A) (k : A -> M S B) : M S B :=
  fun s =>
    match m s with
    | (Ok a, s') => k a s'
    | (Throw e, s') => (Throw e, s')
    end.

(** [try { m } catch (error) { handler(`${error}`) }]. *)
Definition try_catch {S A : Type} (m : M S A) (handler : string -> M S A)
  : M S A :=
  fun s =>
    match m s with
    | (Ok a, s') => (Ok a, s')
    | (Throw e, s') => handler e s'
    end.

Definition lift {S A : Type} (r : Result A) : M S A := fun s => (r, s).

Declare Scope monad_scope.
Delimit Scope monad_scope with monad.
Notation "x <- m ;; k" := (bind m (fun x => k))
  (at level 61, m at next level, right associativity) : monad_scope.
Notation "m ;;; k" := (bind m (fun _ => k))
  (at level 61, right associativity) : monad_scope.
Open Scope monad_scope.

(** A JavaScript number where the code computes with one: an integer or
    [NaN] (what [undefined + 2] is). *)
Inductive Num : Type :=
| Int (z : Z)
| NaN.

Definition num_add (a : Num) (z : Z) : Num :=
  match a with Int x => Int (x + z) | NaN => NaN end.

Definition num_mul (a : Num) (z : Z) : Num :=
  match a with Int x => Int (x * z) | NaN => NaN end.

(** The file system as the code reads it: the text at a path, if any. *)
Definition Files : Type := string -> option string.

Definition write_file (fs : Files) (path content : string) : Files :=
  fun p => if String.eqb p path then Some content else fs p.

(** What launching a subprocess comes to, once it has exited. *)
Inductive SpawnOutcome : Type :=
| SpawnThrows (error : string)
| Exited (exitCode : Z) (stderr : string) (files_after : Files).

(** The world around one run of the executor.
    - [files]: the file system;
    - [write_error]: the paths [Bun.write] fails on, with the error text;
    - [subprocess]: what the [n]th call of [Bun.spawn] does, given the
      command line, the working directory and the files at that moment;
    - [spawned]: the command lines passed to [Bun.spawn] so far;
    - [slept]: the arguments of [sleep] so far, in milliseconds;
    - [cwd], [module_dir]: [process.cwd()] and [import.meta.dir]. *)
Record World : Type := {
  files : Files;
  write_error : string -> option string;
  subprocess : nat -> list string -> string -> Files -> SpawnOutcome;
  spawned : list (list string);
  slept : list Num;
  cwd : string;
  module_dir : string
}.

Definition set_files (w : World) (fs : Files) : World :=
  {| files := fs; write_error := write_error w; subprocess := subprocess w;
     spawned := spawned w; slept := slept w; cwd := cwd w;
     module_dir := module_dir w |}.

Definition log_spawn (w : World) (cmd : list string) : World :=
  {| files := files w; write_error := write_error w;
     subprocess := subprocess w; spawned := spawned w ++ [cmd];
     slept := slept w; cwd := cwd w; module_dir := module_dir w |}.

Definition log_sleep (w : World) (ms : Num) : World :=
  {| files := files w; write_error := write_error w;
     subprocess := subprocess w; spawned := spawned w;
     slept := slept w ++ [ms]; cwd := cwd w; module_dir := module_dir w |}.

(** [await Bun.write(path, content)]. *)
Definition Bun_write (path content : string) : M World unit :=
  fun w =>
    match write_error w path with
    | Some e => (Throw e, w)
    | None => (Ok tt, set_files w (write_file (files w) path content))
    end.

(** [await Bun.file(path).text()]. *)
Definition Bun_file_text (path : string) : M World string :=
  fun w =>
    match files w path with
    | Some text => (Ok text, w)
    | None => (Throw "ENOENT: no such file or directory", w)
    end.

(** [Bun.spawn(cmd, {cwd: dir, ...})], [await proc.exited] and the text of
    [proc.stderr]: the exit code and what the subprocess wrote to its
    standard error. *)
Definition Bun_spawn (cmd : list string) (dir : string) : M World (Z * string) :=
  fun w =>
    let w' := log_spawn w cmd in
    match subprocess w (List.length (spawned w)) cmd dir (files w) with
    | SpawnThrows e => (Throw e, w')
    | Exited exitCode stderr fs => (Ok (exitCode, stderr), set_files w' fs)
    end.

(** [await sleep(ms)]. *)
Definition sleep (ms : Num) : M World unit :=
  fun w => (Ok tt, log_sleep w ms).

Definition process_cwd : M World string := fun w => (Ok (cwd w), w).
Definition import_meta_dir : M World string := fun w => (Ok (module_dir w), w).

(* ================================================================== *)
(** ** claude-executor.ts *)
(* ================================================================== *)

Definition OUTPUT_JSONL : string := "cc_raw_output.jsonl".
Definition OUTPUT_JSON : string := "cc_raw_output.json".
Definition FINAL_OBJECT_JSON : string := "cc_final_object.json".

Section Executor.
Context {RT : Runtime}.

(** [lines.map((line) => JSON.parse(line))]: the first line that does not
    parse throws. *)
Fixpoint parse_lines (lines : list string) : Result (list JSON) :=
  match lines with
  | [] => Ok []
  | line :: rest =>
      match parse_json line with
      | Throw e => Throw e
      | Ok v =>
          match parse_lines rest with
          | Throw e => Throw e
          | Ok vs => Ok (v :: vs)
          end
      end
  end.

(** The loop [for (i = messages.length - 1; i >= 0; i--)] of
    [parseJSONLOutput], on the messages from the last to the first. *)
Fixpoint find_result (from_last : list JSON) : Result (option JSON) :=
  match from_last with
  | [] => Ok None
  | m :: earlier =>
      match prop m "type" with
      | Throw e => Throw e
      | Ok ty => if is_string ty "result" then Ok (Some m)
                 else find_result earlier
      end
  end.

(** [text.trim().split("\n").filter((line) => line.trim())]. *)
Definition nonblank_lines (text : string) : list string :=
  filter (fun line => negb (String.eqb (trim line) "")) (split LF (trim text)).

Definition parseJSONLOutput (outputFile : string)
  : M World (list JSON * option JSON) :=
  try_catch
    (text <- Bun_file_text outputFile ;;
     let lines := nonblank_lines text in
     messages <- lift (parse_lines lines) ;;
     resultMessage <- lift (find_result (rev messages)) ;;
     ret (messages, resultMessage))
    (fun _ => ret ([], None)).

Definition convertJSONLToJSON (jsonlFile : string) : M World string :=
  let outputDir := dirname jsonlFile in
  let jsonFile := join [outputDir; OUTPUT_JSON] in
  parsed <- parseJSONLOutput jsonlFile ;;
  Bun_write jsonFile (JSON_stringify (JArray (fst parsed))) ;;;
  ret jsonFile.

Definition saveLastEntryAsRawResult (jsonFile : string)
  : M World (option string) :=
  try_catch
    (text <- Bun_file_text jsonFile ;;
     messages <- lift (parse_json text) ;;
     match messages with
     | JArray (first :: others) =>
         let lastEntry := List.last others first in
         let outputDir := dirname jsonFile in
         let finalObjectFile := join [outputDir; FINAL_OBJECT_JSON] in
         Bun_write finalObjectFile (JSON_stringify lastEntry) ;;;
         ret (Some finalObjectFile)
     | _ => ret None
     end)
    (fun _ => ret None).

(** [truncateOutput(v, 800)] on a value that need not be a string. *)
Definition truncate_value (v : JSON) : Result JSON :=
  match v with
  | JString s => Ok (JString (truncateOutput s 800 DEFAULT_SUFFIX))
  | _ => Throw not_a_function
  end.

(** Lines 75-101: the branch [exitCode === 0 && resultMessage]. *)
Definition result_response (resultMessage : JSON)
  : Result AgentPromptResponse :=
  let isError := or_else (opt_prop (Some resultMessage) "is_error") (JBool false) in
  let subtype := or_else (opt_prop (Some resultMessage) "subtype") (JString "") in
  if is_string (Some subtype) "error_during_execution" then
    Ok {| output := JString "Error during execution: Agent encountered an error and did not return a result";
          success := false;
          session_id := opt_prop (Some resultMessage) "session_id";
          retry_code := ERROR_DURING_EXECUTION |}
  else
    let resultText := or_else (opt_prop (Some resultMessage) "result") (JString "") in
    match (if truthy (Some isError) && length_greater resultText 1000
           then truncate_value resultText else Ok resultText) with
    | Throw e => Throw e
    | Ok finalOutput =>
        Ok {| output := finalOutput;
              success := negb (truthy (Some isError));
              session_id := opt_prop (Some resultMessage) "session_id";
              retry_code := NONE |}
    end.

(** Lines 103-109: the branch [exitCode === 124]. *)
Definition timeout_response : AgentPromptResponse :=
  {| output := JString "Error: Claude Code command timed out after 5 minutes";
     success := false;
     session_id := None;
     retry_code := TIMEOUT_ERROR |}.

(** Lines 112-118: the error message of the last branch. *)
Definition error_message (exitCode : Z) (stderr : string)
  (resultMessage : option JSON) : Result string :=
  let errorMsg :=
    if negb (String.eqb stderr "") then stderr
    else "Claude Code command failed with exit code " ++ of_Z exitCode in
  if truthy (opt_prop resultMessage "is_error") then
    match template (opt_prop resultMessage "result") with
    | Throw e => Throw e
    | Ok text => Ok ("Claude Code error: " ++ text)
    end
  else Ok errorMsg.

(** Lines 111-125: the last branch. *)
Definition error_response (exitCode : Z) (stderr : string)
  (resultMessage : option JSON) : Result AgentPromptResponse :=
  match error_message exitCode stderr resultMessage with
  | Throw e => Throw e
  | Ok errorMsg =>
      Ok {| output := JString (truncateOutput errorMsg 800 DEFAULT_SUFFIX);
            success := false;
            session_id := opt_prop resultMessage "session_id";
            retry_code := CLAUDE_CODE_ERROR |}
  end.

(** Lines 74-126: the three-way classification. *)
Definition classify (exitCode : Z) (stderr : string)
  (resultMessage : option JSON) : Result AgentPromptResponse :=
  match resultMessage with
  | Some m =>
      if (exitCode =? 0) && truthy resultMessage then result_response m
      else if exitCode =? 124 then Ok timeout_response
      else error_response exitCode stderr resultMessage
  | None =>
      if exitCode =? 124 then Ok timeout_response
      else error_response exitCode stderr resultMessage
  end.

(** Lines 128-133: the response of the [catch]. *)
Definition exception_response (error : string) : AgentPromptResponse :=
  {| output := JString ("Error executing Claude Code: " ++ error);
     success := false;
     session_id := None;
     retry_code := EXECUTION_ERROR |}.

Definition is_set (s : option string) : bool :=
  match s with
  | Some x => negb (String.eqb x "")
  | None => false
  end.

(** The six arguments handed to the bash wrapper (lines 39-51). *)
Definition wrapper_args (request : AgentPromptRequest) (cwd : string)
  : list string :=
  let mcpConfigPath :=
    match working_dir request with
    | Some dir => if is_set (working_dir request)
                  then join [dir; ".mcp.json"] else ""
    | None => ""
    end in
  let skipPermissions :=
    if dangerously_skip_permissions request then "true" else "false" in
  [ prompt request;
    model request;
    output_file request;
    (match working_dir request with
     | Some dir => if is_set (working_dir request) then dir else cwd
     | None => cwd
     end);
    mcpConfigPath;
    skipPermissions ].

Definition executeClaudeCode (request : AgentPromptRequest)
  : M World AgentPromptResponse :=
  scriptDir <- import_meta_dir ;;
  let bashScript := join [dirname scriptDir; "bash"; "claude-code-exec.sh"] in
  let outputDir := dirname (output_file request) in
  Bun_write (join [outputDir; ".placeholder"]) "" ;;;
  here <- process_cwd ;;
  let args := wrapper_args request here in
  try_catch
    (proc <- Bun_spawn (bashScript :: args) (List.nth 3 args here) ;;
     let exitCode := fst proc in
     parsed <- parseJSONLOutput (output_file request) ;;
     let resultMessage := snd parsed in
     convertJSONLToJSON (output_file request) ;;;
     let jsonFile := replace (output_file request) ".jsonl" ".json" in
     saveLastEntryAsRawResult jsonFile ;;;
     lift (classify exitCode (snd proc) resultMessage))
    (fun error => ret (exception_response error)).

End Executor.

(** *** The retry controller *)

Section RetryController.
Context {S : Type}.

(** The invocation being retried, and the way to wait. *)
Variable invoke : AgentPromptRequest -> M S AgentPromptResponse.
Variable pause : Num -> M S unit.

(** The loop [while (retryDelays.length < maxRetries) retryDelays.push(...)];
    it runs at most [maxRetries] times. *)
Fixpoint extend_delays (fuel : nat) (retryDelays : list Num) (maxRetries : Z)
  : list Num :=
  match fuel with
  | O => retryDelays
  | Datatypes.S fuel' =>
      if Z.of_nat (List.length retryDelays) <? maxRetries then
        extend_delays fuel'
          (retryDelays ++ [num_add (List.last retryDelays NaN) 2]) maxRetries
      else retryDelays
  end.

Definition retryableCodes : list RetryCode :=
  [CLAUDE_CODE_ERROR; TIMEOUT_ERROR; EXECUTION_ERROR; ERROR_DURING_EXECUTION].

(** The loop [for (attempt = 0; attempt <= maxRetries; attempt++)], from
    [attempt] on; [remaining] counts the iterations left, so that running
    out of them is leaving the loop, where the code throws. *)
Fixpoint attempts (remaining : nat) (attempt : Z) (request : AgentPromptRequest)
  (maxRetries : Z) (retryDelays : list Num) : M S AgentPromptResponse :=
  match remaining with
  | O => throw "Error: Unexpected retry logic error"
  | Datatypes.S remaining' =>
      if attempt <=? maxRetries then
        (if attempt >? 0 then
           let delay := List.nth (Z.to_nat (attempt - 1)) retryDelays NaN in
           pause (num_mul delay 1000)
         else ret tt) ;;;
        response <- invoke request ;;
        if success response || RetryCode_eqb (retry_code response) NONE then
          ret response
        else if negb (existsb (RetryCode_eqb (retry_code response)) retryableCodes)
        then ret response
        else if attempt <? maxRetries then
          attempts remaining' (attempt + 1) request maxRetries retryDelays
        else ret response
      else throw "Error: Unexpected retry logic error"
  end.

Definition retry (request : AgentPromptRequest) (maxRetries : Z)
  (retryDelays : list Num) : M S AgentPromptResponse :=
  let retryDelays := extend_delays (Z.to_nat maxRetries) retryDelays maxRetries in
  attempts (Z.to_nat (maxRetries + 1)) 0 request maxRetries retryDelays.

End RetryController.

Definition DEFAULT_MAX_RETRIES : Z := 3.
Definition DEFAULT_RETRY_DELAYS : list Num := [Int 1; Int 3; Int 5].

Section Entry.
Context {RT : Runtime}.

Definition executeClaudeCodeWithRetry (request : AgentPromptRequest)
  (maxRetries : Z) (retryDelays : list Num) : M World AgentPromptResponse :=
  retry executeClaudeCode sleep request maxRetries retryDelays.

(** The match of [/^(\/\w+)/]: the command name after the leading slash. *)
Definition slash_command_name (prompt : string) : option string :=
  match prompt with
  | String "/" rest =>
      match take_while is_word rest with
      | EmptyString => None
      | name => Some name
      end
  | _ => None
  end.

Definition savePrompt (prompt adwId agentName : string) : M World unit :=
  match slash_command_name prompt with
  | None => ret tt
  | Some commandName =>
      here <- import_meta_dir ;;
      let projectRoot := join [here; ".."; ".."] in
      let promptDir := join [projectRoot; "agents"; adwId; agentName; "prompts"] in
      Bun_write (join [promptDir; ".placeholder"]) "" ;;;
      let promptFile := join [promptDir; commandName ++ ".txt"] in
      Bun_write promptFile prompt
  end.

(** [`${request.slash_command} ${request.args.join(" ")}`.trim()]. *)
Definition template_prompt (request : Template.AgentTemplateRequest) : string :=
  trim (Template.slash_command request ++ " "
          ++ array_join " " (Template.args request)).

(** The object literal of lines 213-221. *)
Definition promptRequest (request : Template.AgentTemplateRequest)
  (prompt outputFile : string) : AgentPromptRequest :=
  {| prompt := prompt;
     adw_id := Template.adw_id request;
     agent_name := Template.agent_name request;
     model := Template.model request;
     dangerously_skip_permissions := true;
     output_file := outputFile;
     working_dir := Template.working_dir request |}.

Definition executeTemplate (request : Template.AgentTemplateRequest)
  : M World AgentPromptResponse :=
  let prompt := template_prompt request in
  here <- import_meta_dir ;;
  let projectRoot := join [here; ".."; ".."] in
  let outputDir :=
    join [projectRoot; "agents"; Template.adw_id request;
          Template.agent_name request] in
  Bun_write (join [outputDir; ".placeholder"]) "" ;;;
  let outputFile := join [outputDir; OUTPUT_JSONL] in
  savePrompt prompt (Template.adw_id request) (Template.agent_name request) ;;;
  executeClaudeCodeWithRetry (promptRequest request prompt outputFile)
    DEFAULT_MAX_RETRIES DEFAULT_RETRY_DELAYS.

End Entry.

(* ================================================================== *)
(** ** The bash wrappers *)
(* ================================================================== *)

Module Bash.

(** The exit codes of [adws/bash/lib/error-codes.sh]. *)
Record ErrorCodes : Type := {
  EXIT_SUCCESS : Z;
  EXIT_CLAUDE_ERROR : Z;
  EXIT_TIMEOUT : Z;
  EXIT_INVALID_ARGS : Z
}.

(** Modelled from the spec: [adws/bash/lib/error-codes.sh] is sourced by
    both wrappers but is not among the sources; the values are those of
    the exit code contract ([0] success, [1] agent error, [124] timeout,
    [2] invalid arguments), which the header of [claude-code-exec.sh]
    lists as well. *)
Definition error_codes : ErrorCodes :=
  {| EXIT_SUCCESS := 0; EXIT_CLAUDE_ERROR := 1; EXIT_TIMEOUT := 124;
     EXIT_INVALID_ARGS := 2 |}.

(** What a wrapper sees of its surroundings.
    - [CLAUDE_CODE_PATH]: the environment variable, if set;
    - [is_directory], [is_file]: the tests [-d] and [-f];
    - [command_found]: whether [command -v] resolves a name;
    - [get_safe_env]: exit status of the function of
      [lib/env-filter.sh], which is not among the sources;
    - [mkdir_p]: exit status of [mkdir -p] on a directory;
    - [dirname]: output of [dirname];
    - [cd]: whether [cd] into a directory succeeds;
    - [run_agent]: exit status of [timeout 300 cmd > output_file 2>&1]
      in a directory. *)
Record Shell : Type := {
  CLAUDE_CODE_PATH : option string;
  is_directory : string -> bool;
  is_file : string -> bool;
  command_found : string -> bool;
  get_safe_env : Z;
  mkdir_p : string -> Z;
  dirname : string -> string;
  cd : string -> bool;
  run_agent : list string -> string -> string -> Z
}.

(** How a wrapper ends: its exit status, the lines it wrote to standard
    error itself, and the agent command lines it ran. *)
Record Outcome : Type := {
  status : Z;
  errors : list string;
  agent_runs : list (list string)
}.

Definition exit (code : Z) (messages : list string) : Outcome :=
  {| status := code; errors := messages; agent_runs := [] |}.

(** [${CLAUDE_CODE_PATH:-claude}]. *)
Definition CLAUDE_PATH (sh : Shell) : string :=
  match CLAUDE_CODE_PATH sh with
  | Some p => if String.eqb p "" then "claude" else p
  | None => "claude"
  end.

(** The array [CMD] of lines 69-83. *)
Definition agent_command (sh : Shell)
  (PROMPT MODEL MCP_CONFIG_PATH SKIP_PERMISSIONS : string) : list string :=
  [CLAUDE_PATH sh; "-p"; PROMPT]
    ++ ["--model"; MODEL]
    ++ ["--output-format"; "stream-json"]
    ++ ["--verbose"]
    ++ (if negb (String.eqb MCP_CONFIG_PATH "") && is_file sh MCP_CONFIG_PATH
        then ["--mcp-config"; MCP_CONFIG_PATH] else [])
    ++ (if String.eqb SKIP_PERMISSIONS "true"
        then ["--dangerously-skip-permissions"] else []).

(** [claude-code-exec.sh], called as [script] with the positional
    arguments [argv]. *)
Definition claude_code_exec (codes : ErrorCodes) (sh : Shell)
  (script : string) (argv : list string) : Outcome :=
  match argv with
  | PROMPT :: MODEL :: OUTPUT_FILE :: WORKING_DIR :: MCP_CONFIG_PATH
      :: SKIP_PERMISSIONS :: _ =>
      if negb (String.eqb MODEL "sonnet") && negb (String.eqb MODEL "opus") then
        exit (EXIT_INVALID_ARGS codes)
          ["Error: Model must be 'sonnet' or 'opus', got: " ++ MODEL]
      else if negb (is_directory sh WORKING_DIR) then
        exit (EXIT_INVALID_ARGS codes)
          ["Error: Working directory does not exist: " ++ WORKING_DIR]
      else if negb (command_found sh (CLAUDE_PATH sh)) then
        exit (EXIT_CLAUDE_ERROR codes)
          ["Error: Claude Code CLI not found at: " ++ CLAUDE_PATH sh]
      else if negb (get_safe_env sh =? 0) then
        exit (get_safe_env sh) []
      else if negb (mkdir_p sh (dirname sh OUTPUT_FILE) =? 0) then
        exit (mkdir_p sh (dirname sh OUTPUT_FILE)) []
      else if negb (cd sh WORKING_DIR) then
        exit (EXIT_INVALID_ARGS codes) []
      else
        let CMD := agent_command sh PROMPT MODEL MCP_CONFIG_PATH SKIP_PERMISSIONS in
        let EXIT_CODE := run_agent sh CMD WORKING_DIR OUTPUT_FILE in
        if EXIT_CODE =? 0 then
          {| status := EXIT_SUCCESS codes; errors := []; agent_runs := [CMD] |}
        else if EXIT_CODE =? 124 then
          {| status := EXIT_TIMEOUT codes;
             errors := ["Error: Claude Code command timed out after 5 minutes"];
             agent_runs := [CMD] |}
        else
          {| status := EXIT_CLAUDE_ERROR codes;
             errors := ["Error: Claude Code command failed with exit code "
                          ++ of_Z EXIT_CODE];
             agent_runs := [CMD] |}
  | _ =>
      exit (EXIT_INVALID_ARGS codes)
        ["Error: Invalid number of arguments";
         "Usage: " ++ script
           ++ " <prompt> <model> <output_file> <working_dir> <mcp_config_path> <skip_permissions>"]
  end.

(** The arguments [claude-code-template.sh] hands to
    [claude-code-exec.sh] (lines 41-56). *)
Definition exec_args (SLASH_COMMAND ARGS OUTPUT_FILE MODEL WORKING_DIR
  MCP_CONFIG_PATH : string) : list string :=
  let PROMPT :=
    if negb (String.eqb ARGS "") then SLASH_COMMAND ++ " " ++ ARGS
    else SLASH_COMMAND in
  [PROMPT; MODEL; OUTPUT_FILE; WORKING_DIR; MCP_CONFIG_PATH; "true"].

(** [claude-code-template.sh]; [exec_script] is the path
    [$SCRIPT_DIR/claude-code-exec.sh] it replaces itself with. *)
Definition claude_code_template (codes : ErrorCodes) (sh : Shell)
  (script exec_script : string) (argv : list string) : Outcome :=
  match argv with
  | SLASH_COMMAND :: ARGS :: OUTPUT_FILE :: MODEL :: WORKING_DIR
      :: MCP_CONFIG_PATH :: _ =>
      if negb (startsWith SLASH_COMMAND "/") then
        exit (EXIT_INVALID_ARGS codes)
          ["Error: Slash command must start with '/', got: " ++ SLASH_COMMAND]
      else
        claude_code_exec codes sh exec_script
          (exec_args SLASH_COMMAND ARGS OUTPUT_FILE MODEL WORKING_DIR
             MCP_CONFIG_PATH)
  | _ =>
      exit (EXIT_INVALID_ARGS codes)
        ["Error: Invalid number of arguments";
         "Usage: " ++ script
           ++ " <slash_command> <args> <output_file> <model> <working_dir> <mcp_config_path>"]
  end.

End Bash.

(* ================================================================== *)
(** ** A concrete runtime *)
(* ================================================================== *)

(** A runtime to evaluate the model with: a JSON reader and printer for
    texts made of code units below 256, the POSIX flavour of [path.join]
    and [path.dirname], and number operations that are those of JavaScript
    on integer literals.  The theorems below hold for every runtime; this
    one only serves to run the model on concrete inputs. *)
Module Bun.

Definition is_digit (c : ascii) : bool :=
  let n := nat_of_ascii c in (Nat.leb 48 n && Nat.leb n 57)%bool.

(** White space between the tokens of a JSON text. *)
Definition is_json_ws (c : ascii) : bool :=
  let n := nat_of_ascii c in
  (Nat.eqb n 32 || Nat.eqb n 9 || Nat.eqb n 10 || Nat.eqb n 13)%bool.

Fixpoint skip_ws (s : string) : string :=
  match s with
  | String c r => if is_json_ws c then skip_ws r else s
  | EmptyString => EmptyString
  end.

Definition hex_value (c : ascii) : option nat :=
  let n := nat_of_ascii c in
  if (Nat.leb 48 n && Nat.leb n 57)%bool then Some (n - 48)%nat
  else if (Nat.leb 65 n && Nat.leb n 70)%bool then Some (n - 55)%nat
  else if (Nat.leb 97 n && Nat.leb n 102)%bool then Some (n - 87)%nat
  else None.

(** The characters of a string literal after its opening quote, and the
    text after its closing quote. *)
Fixpoint string_body (s : string) : option (string * string) :=
  match s with
  | EmptyString => None
  | String c r =>
      let n := nat_of_ascii c in
      if Nat.eqb n 34 then Some (EmptyString, r)
      else if Nat.eqb n 92 then
        match r with
        | String e r' =>
            let simple (d : nat) :=
              match string_body r' with
              | Some (body, rest) => Some (String (ascii_of_nat d) body, rest)
              | None => None
              end in
            match nat_of_ascii e with
            | 34%nat => simple 34%nat
            | 92%nat => simple 92%nat
            | 47%nat => simple 47%nat
            | 98%nat => simple 8%nat
            | 102%nat => simple 12%nat
            | 110%nat => simple 10%nat
            | 114%nat => simple 13%nat
            | 116%nat => simple 9%nat
            | 117%nat =>
                match r' with
                | String h1 (String h2 (String h3 (String h4 r''))) =>
                    match hex_value h1, hex_value h2, hex_value h3, hex_value h4 with
                    | Some 0%nat, Some 0%nat, Some a, Some b =>
                        match string_body r'' with
                        | Some (body, rest) =>
                            Some (String (ascii_of_nat (16 * a + b)) body, rest)
                        | None => None
                        end
                    | _, _, _, _ => None
                    end
                | _ => None
                end
            | _ => None
            end
        | EmptyString => None
        end
      else if Nat.ltb n 32 then None
      else
        match string_body r with
        | Some (body, rest) => Some (String c body, rest)
        | None => None
        end
  end.

Definition digits (s : string) : string := take_while is_digit s.

Definition after (prefix s : string) : string := drop (String.length prefix) s.

(** A number literal at the head of [s], and the text after it. *)
Definition number_literal (s : string) : option (string * string) :=
  let (sign, s1) :=
    match s with
    | String "-" r => ("-", r)
    | _ => ("", s)
    end in
  let int := digits s1 in
  if String.eqb int "" then None
  else if (startsWith int "0" && negb (String.eqb int "0"))%bool then None
  else
    let s2 := after int s1 in
    let frac_ok :=
      match s2 with
      | String "." r =>
          let f := digits r in
          if String.eqb f "" then None else Some ("." ++ f, after f r)
      | _ => Some ("", s2)
      end in
    match frac_ok with
    | None => None
    | Some (frac, s3) =>
        let exp_ok :=
          match s3 with
          | String e r =>
              if (Ascii.eqb e "e" || Ascii.eqb e "E")%bool then
                let (esign, r1) :=
                  match r with
                  | String "+" r' => ("+", r')
                  | String "-" r' => ("-", r')
                  | _ => ("", r)
                  end in
                let d := digits r1 in
                if String.eqb d "" then None
                else Some (String e esign ++ d, after d r1)
              else Some ("", s3)
          | EmptyString => Some ("", s3)
          end in
        match exp_ok with
        | None => None
        | Some (exp, s4) => Some (sign ++ int ++ frac ++ exp, s4)
        end
    end.

(** Setting a member: a key already present keeps its place. *)
Fixpoint set_member (k : string) (v : JSON) (ms : list (string * JSON))
  : list (string * JSON) :=
  match ms with
  | [] => [(k, v)]
  | (k', v') :: rest =>
      if String.eqb k k' then (k, v) :: rest
      else (k', v') :: set_member k v rest
  end.

(** A JSON value at the head of [s], after white space, and the text
    after it; [fuel] bounds the number of nested calls. *)
Fixpoint value (fuel : nat) (s : string) : option (JSON * string) :=
  match fuel with
  | O => None
  | S fuel' =>
      match skip_ws s with
      | String "{" r =>
          match skip_ws r with
          | String "}" r' => Some (JObject [], r')
          | r1 =>
              match members fuel' r1 [] with
              | Some (ms, rest) => Some (JObject ms, rest)
              | None => None
              end
          end
      | String "[" r =>
          match skip_ws r with
          | String "]" r' => Some (JArray [], r')
          | r1 =>
              match elements fuel' r1 with
              | Some (items, rest) => Some (JArray items, rest)
              | None => None
              end
          end
      | String c r as s' =>
          if Nat.eqb (nat_of_ascii c) 34 then
            match string_body r with
            | Some (body, rest) => Some (JString body, rest)
            | None => None
            end
          else if startsWith s' "true" then Some (JBool true, after "true" s')
          else if startsWith s' "false" then Some (JBool false, after "false" s')
          else if startsWith s' "null" then Some (JNull, after "null" s')
          else
            match number_literal s' with
            | Some (lit, rest) => Some (JNumber lit, rest)
            | None => None
            end
      | EmptyString => None
      end
  end
with elements (fuel : nat) (s : string) : option (list JSON * string) :=
  match fuel with
  | O => None
  | S fuel' =>
      match value fuel' s with
      | Some (v, rest) =>
          match skip_ws rest with
          | String "," r =>
              match elements fuel' r with
              | Some (vs, rest') => Some (v :: vs, rest')
              | None => None
              end
          | String "]" r => Some ([v], r)
          | _ => None
          end
      | None => None
      end
  end
with members (fuel : nat) (s : string) (seen : list (string * JSON))
  : option (list (string * JSON) * string) :=
  match fuel with
  | O => None
  | S fuel' =>
      match skip_ws s with
      | String q r =>
          if Nat.eqb (nat_of_ascii q) 34 then
            match string_body r with
            | Some (key, rest) =>
                match skip_ws rest with
                | String ":" r1 =>
                    match value fuel' r1 with
                    | Some (v, rest1) =>
                        let seen' := set_member key v seen in
                        match skip_ws rest1 with
                        | String "," r2 => members fuel' r2 seen'
                        | String "}" r2 => Some (seen', r2)
                        | _ => None
                        end
                    | None => None
                    end
                | _ => None
                end
            | None => None
            end
          else None
      | EmptyString => None
      end
  end.

Definition parse (text : string) : option JSON :=
  match value (2 * String.length text + 2) text with
  | Some (v, rest) =>
      match skip_ws rest with
      | EmptyString => Some v
      | _ => None
      end
  | None => None
  end.

Definition hex_digit (n : nat) : ascii :=
  if Nat.ltb n 10 then ascii_of_nat (48 + n) else ascii_of_nat (87 + n).

(** A string literal for [s], as [JSON.stringify] writes it. *)
Fixpoint escaped (s : string) : string :=
  match s with
  | EmptyString => EmptyString
  | String c r =>
      let n := nat_of_ascii c in
      (if Nat.eqb n 34 then String (ascii_of_nat 92) DQ
       else if Nat.eqb n 92 then String c (String c EmptyString)
       else if Nat.eqb n 8 then String (ascii_of_nat 92) "b"
       else if Nat.eqb n 12 then String (ascii_of_nat 92) "f"
       else if Nat.eqb n 10 then String (ascii_of_nat 92) "n"
       else if Nat.eqb n 13 then String (ascii_of_nat 92) "r"
       else if Nat.eqb n 9 then String (ascii_of_nat 92) "t"
       else if Nat.ltb n 32 then
         String (ascii_of_nat 92)
           (String "u" (String "0" (String "0"
              (String (hex_digit (Nat.div n 16))
                 (String (hex_digit (Nat.modulo n 16)) EmptyString)))))
       else String c EmptyString) ++ escaped r
  end.

(** [JSON.stringify(v, null, 2)] below the indentation [indent]. *)
Fixpoint stringify (indent : string) (v : JSON) : string :=
  let inner := indent ++ "  " in
  let nl := String LF EmptyString in
  match v with
  | JNull => "null"
  | JBool true => "true"
  | JBool false => "false"
  | JNumber lit => lit
  | JString s => quoted (escaped s)
  | JArray [] => "[]"
  | JArray items =>
      "[" ++ nl
        ++ String.concat ("," ++ nl)
             (List.map (fun item => inner ++ stringify inner item) items)
        ++ nl ++ indent ++ "]"
  | JObject [] => "{}"
  | JObject ms =>
      "{" ++ nl
        ++ String.concat ("," ++ nl)
             (List.map
                (fun m => inner ++ quoted (escaped (fst m)) ++ ": "
                            ++ stringify inner (snd m)) ms)
        ++ nl ++ indent ++ "}"
  end.

(** [path.normalize] on the segments of a path, oldest segment last in
    [stack]. *)
Fixpoint resolve (absolute : bool) (parts stack : list string) : list string :=
  match parts with
  | [] => rev stack
  | p :: rest =>
      if (String.eqb p "" || String.eqb p ".")%bool then
        resolve absolute rest stack
      else if String.eqb p ".." then
        match stack with
        | top :: below =>
            if String.eqb top ".." then resolve absolute rest (p :: stack)
            else resolve absolute rest below
        | [] =>
            if absolute then resolve absolute rest stack
            else resolve absolute rest [p]
        end
      else resolve absolute rest (p :: stack)
  end.

Definition ends_with_slash (s : string) : bool :=
  match rev (list_ascii_of_string s) with
  | c :: _ => Ascii.eqb c "/"
  | [] => false
  end.

Definition path_normalize (p : string) : string :=
  if String.eqb p "" then "."
  else
    let absolute := startsWith p "/" in
    let body := String.concat "/" (resolve absolute (split "/" p) []) in
    let body :=
      if String.eqb body "" then (if absolute then "" else ".")
      else if ends_with_slash p then body ++ "/" else body in
    if absolute then "/" ++ body else body.

Definition path_join (segments : list string) : string :=
  path_normalize
    (String.concat "/"
       (filter (fun seg => negb (String.eqb seg "")) segments)).

Fixpoint drop_while (p : ascii -> bool) (l : list ascii) : list ascii :=
  match l with
  | c :: r => if p c then drop_while p r else l
  | [] => []
  end.

Definition is_slash (c : ascii) : bool := Ascii.eqb c "/".

Definition path_dirname (p : string) : string :=
  match list_ascii_of_string p with
  | [] => "."
  | first :: others =>
      let no_trailing := drop_while is_slash (rev others) in
      match drop_while (fun c => negb (is_slash c)) no_trailing with
      | [] => if is_slash first then "/" else "."
      | _ :: before =>
          match before with
          | [] => if is_slash first then "//" else String first EmptyString
          | _ => string_of_list_ascii (first :: rev before)
          end
      end
  end.

(** The mantissa of a number literal has a digit other than zero. *)
Fixpoint nonzero_mantissa (lit : string) : bool :=
  match lit with
  | EmptyString => false
  | String c r =>
      if (Ascii.eqb c "e" || Ascii.eqb c "E")%bool then false
      else if (is_digit c && negb (Ascii.eqb c "0"))%bool then true
      else nonzero_mantissa r
  end.

Fixpoint nat_of_digits (s : string) (acc : N) : N :=
  match s with
  | String c r => nat_of_digits r (10 * acc + (N_of_ascii c - 48))%N
  | EmptyString => acc
  end.

(** The value of an integer literal. *)
Definition integer_value (lit : string) : option Z :=
  let (negative, ds) :=
    match lit with
    | String "-" r => (true, r)
    | _ => (false, lit)
    end in
  if (negb (String.eqb ds "") && String.eqb (digits ds) ds)%bool then
    let n := Z.of_N (nat_of_digits ds 0) in
    Some (if negative then - n else n)
  else None.

(** [`${v}`] for arrays and objects and for integer literals. *)
Fixpoint text_of (v : JSON) : Result string :=
  match v with
  | JNull => Ok "null"
  | JBool true => Ok "true"
  | JBool false => Ok "false"
  | JNumber lit =>
      match integer_value lit with
      | Some z => Ok (of_Z z)
      | None => Ok lit
      end
  | JString s => Ok s
  | JArray items =>
      let fix texts (l : list JSON) : Result (list string) :=
        match l with
        | [] => Ok []
        | x :: xs =>
            match (match x with JNull => Ok "" | _ => text_of x end), texts xs with
            | Ok t, Ok ts => Ok (t :: ts)
            | Throw e, _ => Throw e
            | _, Throw e => Throw e
            end
        end in
      match texts items with
      | Ok ts => Ok (String.concat "," ts)
      | Throw e => Throw e
      end
  | JObject ms =>
      match lookup_member "toString" ms with
      | Some _ => Throw "TypeError: No default value"
      | None => Ok "[object Object]"
      end
  end.

(** [v > n], decided on integer literals, booleans and [null]. *)
Definition value_greater (v : JSON) (n : Z) : bool :=
  match v with
  | JNumber lit =>
      match integer_value lit with
      | Some z => z >? n
      | None => false
      end
  | JString s =>
      match integer_value (trim s) with
      | Some z => z >? n
      | None => false
      end
  | JBool true => 1 >? n
  | JBool false => 0 >? n
  | JNull => 0 >? n
  | _ => false
  end.

End Bun.

#[export] Instance bun : Runtime := {|
  JSON_parse := Bun.parse;
  JSON_stringify := Bun.stringify "";
  join := Bun.path_join;
  dirname := Bun.path_dirname;
  number_truthy := Bun.nonzero_mantissa;
  to_text := Bun.text_of;
  greater_than := Bun.value_greater;
  not_a_function := "TypeError: output.startsWith is not a function"
|}.

(* ================================================================== *)
(** ** Vocabulary for the properties *)
(* ================================================================== *)

Section Runs.
Context {RT : Runtime}.

(** What [parseJSONLOutput] returns, as a function of what the output
    file holds ([None]: the file cannot be read). *)
Definition parse_output (content : option string) : list JSON * option JSON :=
  match content with
  | None => ([], None)
  | Some text =>
      match parse_lines (nonblank_lines text) with
      | Throw _ => ([], None)
      | Ok messages =>
          match find_result (rev messages) with
          | Throw _ => ([], None)
          | Ok resultMessage => (messages, resultMessage)
          end
      end
  end.

(** The paths [executeClaudeCode] writes to before and after the launch. *)
Definition placeholder_path (request : AgentPromptRequest) : string :=
  join [dirname (output_file request); ".placeholder"].

Definition raw_json_path (request : AgentPromptRequest) : string :=
  join [dirname (output_file request); OUTPUT_JSON].

(** The command line of the wrapper, and the directory it is started in. *)
Definition wrapper_command (request : AgentPromptRequest) (w : World)
  : list string :=
  join [dirname (module_dir w); "bash"; "claude-code-exec.sh"]
    :: wrapper_args request (cwd w).

Definition wrapper_dir (request : AgentPromptRequest) (w : World) : string :=
  List.nth 3 (wrapper_args request (cwd w)) (cwd w).

(** What the launch of the wrapper by [executeClaudeCode] comes to in the
    world [w], once the placeholder is written. *)
Definition wrapper_outcome (request : AgentPromptRequest) (w : World)
  : SpawnOutcome :=
  subprocess w (List.length (spawned w)) (wrapper_command request w)
    (wrapper_dir request w)
    (write_file (files w) (placeholder_path request) "").

(** The result message [executeClaudeCode] finds once the wrapper has left
    the files [fs]. *)
Definition result_message (request : AgentPromptRequest) (fs : Files)
  : option JSON :=
  snd (parse_output (fs (output_file request))).

(** The response of a run whose placeholder write succeeds. *)
Definition response_after_launch (request : AgentPromptRequest) (w : World)
  : AgentPromptResponse :=
  match wrapper_outcome request w with
  | SpawnThrows e => exception_response e
  | Exited exitCode stderr fs =>
      match write_error w (raw_json_path request) with
      | Some e => exception_response e
      | None =>
          match classify exitCode stderr (result_message request fs) with
          | Ok response => response
          | Throw e => exception_response e
          end
      end
  end.

(** An exception with the text [e] is raised inside the [try] of
    [executeClaudeCode]: by the launch, by the write of the audit
    conversion, or by the classification. *)
Definition raised_in_try (request : AgentPromptRequest) (w : World)
  (e : string) : Prop :=
  match wrapper_outcome request w with
  | SpawnThrows e' => e' = e
  | Exited exitCode stderr fs =>
      match write_error w (raw_json_path request) with
      | Some e' => e' = e
      | None => classify exitCode stderr (result_message request fs) = Throw e
      end
  end.

(** The error text of the last branch of the classification, by
    priority: the text of a result message flagged as an error, else the
    standard error of the wrapper, else a message with the exit code. *)
Inductive error_text (exitCode : Z) (stderr : string)
  (resultMessage : option JSON) : string -> Prop :=
| text_of_result_message (text : string) :
    truthy (opt_prop resultMessage "is_error") = true ->
    template (opt_prop resultMessage "result") = Ok text ->
    error_text exitCode stderr resultMessage ("Claude Code error: " ++ text)
| text_of_stderr :
    truthy (opt_prop resultMessage "is_error") = false ->
    stderr <> "" ->
    error_text exitCode stderr resultMessage stderr
| text_of_exit_code :
    truthy (opt_prop resultMessage "is_error") = false ->
    stderr = "" ->
    error_text exitCode stderr resultMessage
      ("Claude Code command failed with exit code " ++ of_Z exitCode).

(** The directories [executeTemplate] and [savePrompt] write to. *)
Definition template_output_dir (request : Template.AgentTemplateRequest)
  (w : World) : string :=
  join [join [module_dir w; ".."; ".."]; "agents";
        Template.adw_id request; Template.agent_name request].

Definition prompts_dir (request : Template.AgentTemplateRequest) (w : World)
  : string :=
  join [join [module_dir w; ".."; ".."]; "agents";
        Template.adw_id request; Template.agent_name request; "prompts"].

(** The prompt request [executeTemplate] builds in the world [w]. *)
Definition template_request (request : Template.AgentTemplateRequest)
  (w : World) : AgentPromptRequest :=
  promptRequest request (template_prompt request)
    (join [template_output_dir request w; OUTPUT_JSONL]).

(** One of the two writes of [savePrompt] fails with the text [e]. *)
Definition prompt_write_fails (request : Template.AgentTemplateRequest)
  (w : World) (e : string) : Prop :=
  exists commandName,
    slash_command_name (template_prompt request) = Some commandName
    /\ (write_error w (join [prompts_dir request w; ".placeholder"]) = Some e
        \/ (write_error w (join [prompts_dir request w; ".placeholder"]) = None
            /\ write_error w
                 (join [prompts_dir request w; commandName ++ ".txt"])
               = Some e)).

(** A run of [executeClaudeCode] that reaches the classification: neither
    the placeholder write nor the write of the audit conversion fails, and
    the wrapper exits with [exitCode], leaving [stderr] on its standard error
    and the files [fs]. *)
Definition reaches_classification (request : AgentPromptRequest) (w : World)
  (exitCode : Z) (stderr : string) (fs : Files) : Prop :=
  write_error w (placeholder_path request) = None
  /\ write_error w (raw_json_path request) = None
  /\ wrapper_outcome request w = Exited exitCode stderr fs.

(** A message that the backward scan of [parseJSONLOutput] passes over. *)
Definition passed_over (m : JSON) : Prop :=
  exists ty, prop m "type" = Ok ty /\ is_string ty "result" = false.

(** A message that the scan stops at. *)
Definition is_result (m : JSON) : Prop :=
  exists ty, prop m "type" = Ok ty /\ is_string ty "result" = true.

End Runs.

(** A stand-in for the invocation that replays a list of responses, one per
    call, and counts the calls; it waits without delay. *)
Definition Replay : Type := (list AgentPromptResponse * nat)%type.

Definition replay_invoke (_ : AgentPromptRequest) : M Replay AgentPromptResponse :=
  fun s =>
    match fst s with
    | r :: rest => (Ok r, (rest, S (snd s)))
    | [] => (Throw "Error: no response left", ([], S (snd s)))
    end.

Definition replay_pause (_ : Num) : M Replay unit := fun s => (Ok tt, s).

(** A world reached from [w] in which [Bun.spawn] was called with the
    commands [new] on top of those of [w], under the same working directory
    and module directory. *)
Definition launched (w w' : World) (new : list (list string)) : Prop :=
  spawned w' = (spawned w ++ new)%list
  /\ cwd w' = cwd w /\ module_dir w' = module_dir w.

(** A response that makes the retry controller try again, if it may. *)
Definition retried (r : AgentPromptResponse) : Prop :=
  success r = false /\ retry_code r <> NONE.

(** The template request that [adw_slash_command] builds for the command
    [slashCommand] and its arguments. *)
Definition slash_request (slashCommand : string) (commandArgs : list string)
  (adwId : string) (w : World) : Template.AgentTemplateRequest :=
  {| Template.agent_name := "slash-command-executor";
     Template.slash_command := slashCommand;
     Template.args := commandArgs;
     Template.adw_id := adwId;
     Template.model := SONNET;
     Template.working_dir := Some (cwd w) |}.

(** A world in which no subprocess ever exits with 0. *)
Definition never_exits_with_0 (w : World) : Prop :=
  forall n cmd dir fs stderr fs',
    subprocess w n cmd dir fs <> Exited 0 stderr fs'.

(** [p] is the position of the last [c] in [s] at or before the position
    [from], and [-1] when there is none: what [s.lastIndexOf(c, from)] is
    for a [from] that is not negative. *)
Definition last_at (s : string) (c : ascii) (from p : Z) : Prop :=
  (p = -1
   /\ forall i, 0 <= i <= from -> String.get (Z.to_nat i) s <> Some c)
  \/ (0 <= p <= from
      /\ String.get (Z.to_nat p) s = Some c
      /\ forall i, p < i <= from -> String.get (Z.to_nat i) s <> Some c).

(** Two worlds that differ at most in the paths [Bun.write] fails on. *)
Definition same_but_write_errors (w1 w2 : World) : Prop :=
  files w1 = files w2 /\ subprocess w1 = subprocess w2
  /\ spawned w1 = spawned w2 /\ cwd w1 = cwd w2
  /\ module_dir w1 = module_dir w2.

(* ================================================================== *)
(** ** utils.ts: [getSafeSubprocessEnv] *)
(* ================================================================== *)

(** [process.env]: the value of a variable, if it is set. *)
Definition Environment : Type := string -> option string.

(** [env[name] || fallback]. *)
Definition env_or (v : option string) (fallback : string) : string :=
  match v with
  | Some x => if String.eqb x "" then fallback else x
  | None => fallback
  end.

(** The object literal [safeEnvVars] (lines 158-191), in the order of its
    keys; [None] is [undefined]. *)
Definition safeEnvVars (env : Environment) (cwd : string)
  : list (string * option string) :=
  [ ("ANTHROPIC_API_KEY", env "ANTHROPIC_API_KEY");
    ("GITHUB_PAT", env "GITHUB_PAT");
    ("CLAUDE_CODE_PATH", Some (env_or (env "CLAUDE_CODE_PATH") "claude"));
    ("CLAUDE_BASH_MAINTAIN_PROJECT_WORKING_DIR",
     Some (env_or (env "CLAUDE_BASH_MAINTAIN_PROJECT_WORKING_DIR") "true"));
    ("E2B_API_KEY", env "E2B_API_KEY");
    ("CLOUDFLARED_TUNNEL_TOKEN", env "CLOUDFLARED_TUNNEL_TOKEN");
    ("HOME", env "HOME");
    ("USER", env "USER");
    ("PATH", env "PATH");
    ("SHELL", env "SHELL");
    ("TERM", env "TERM");
    ("LANG", env "LANG");
    ("LC_ALL", env "LC_ALL");
    ("PYTHONPATH", env "PYTHONPATH");
    ("PYTHONUNBUFFERED", Some "1");
    ("PWD", Some cwd) ].

(** [Object.entries(o).filter(([_, v]) => v !== undefined)]. *)
Fixpoint defined_entries (entries : list (string * option string))
  : list (string * string) :=
  match entries with
  | [] => []
  | (k, Some v) :: rest => (k, v) :: defined_entries rest
  | (_, None) :: rest => defined_entries rest
  end.

(** [getSafeSubprocessEnv()], as a function of [process.env] and
    [process.cwd()]; the record it returns is the list of its entries. *)
Definition getSafeSubprocessEnv (env : Environment) (cwd : string)
  : list (string * string) :=
  let vars := safeEnvVars env cwd in
  let vars :=
    match env "GITHUB_PAT" with
    | Some pat =>
        if negb (String.eqb pat "") then (vars ++ [("GH_TOKEN", Some pat)])%list
        else vars
    | None => vars
    end in
  defined_entries vars.

(** The value of a key in a record given by its entries. *)
Fixpoint entry (k : string) (entries : list (string * string)) : option string :=
  match entries with
  | [] => None
  | (k', v) :: rest => if String.eqb k k' then Some v else entry k rest
  end.

(** The variables of the ambient environment that [getSafeSubprocessEnv]
    reads. *)
Definition SAFE_NAMES : list string :=
  [ "ANTHROPIC_API_KEY"; "GITHUB_PAT"; "CLAUDE_CODE_PATH";
    "CLAUDE_BASH_MAINTAIN_PROJECT_WORKING_DIR"; "E2B_API_KEY";
    "CLOUDFLARED_TUNNEL_TOKEN"; "HOME"; "USER"; "PATH"; "SHELL"; "TERM";
    "LANG"; "LC_ALL"; "PYTHONPATH" ].

(* ================================================================== *)
(** ** adw_slash_command.ts *)
(* ================================================================== *)

Section SlashCommand.
Context {RT : Runtime}.

(** The script, as a function of its arguments ([Bun.argv.slice(2)]) and of
    the identifier that [makeAdwId()] draws: the status it ends the process
    with. *)
Definition adw_slash_command (args : list string) (adwId : string)
  : M World Z :=
  match args with
  | [] => ret 1
  | slashCommand :: commandArgs =>
      if negb (startsWith slashCommand "/") then ret 1
      else
        here <- process_cwd ;;
        let request :=
          {| Template.agent_name := "slash-command-executor";
             Template.slash_command := slashCommand;
             Template.args := commandArgs;
             Template.adw_id := adwId;
             Template.model := SONNET;
             Template.working_dir := Some here |} in
        try_catch
          (response <- executeTemplate request ;;
           if success response then ret 0 else ret 1)
          (fun _ => ret 2)
  end.

End SlashCommand.

(* ================================================================== *)
(** ** Texts inside a parsed value *)
(* ================================================================== *)

(** One more than the length of the longest string value inside [v], at
    any depth; 0 when [v] holds no string value. *)
Fixpoint widest_text (v : JSON) : nat :=
  match v with
  | JString s => S (String.length s)
  | JArray items =>
      (fix widest (l : list JSON) : nat :=
         match l with
         | [] => O
         | x :: r => Nat.max (widest_text x) (widest r)
         end) items
  | JObject ms =>
      (fix widest (l : list (string * JSON)) : nat :=
         match l with
         | [] => O
         | (_, x) :: r => Nat.max (widest_text x) (widest r)
         end) ms
  | _ => O
  end.

(** A runtime whose [JSON.parse] returns only string values shorter than
    the text it parsed: a string value is written between two quotes, with
    at least one character for each of its own. *)
Definition parse_shrinks (RT : Runtime) : Prop :=
  forall (line : string) (data : JSON),
    JSON_parse line = Some data ->
    (widest_text data <= String.length line)%nat.

(** The text [`[JSONL output with ${lines.length} messages]${suffix}`]. *)
Definition jsonl_placeholder (messages : nat) (suffix : string) : string :=
  "[JSONL output with " ++ of_Z (Z.of_nat messages) ++ " messages]" ++ suffix.

(* ================================================================== *)
(** ** Concrete inputs *)
(* ================================================================== *)

Module Sample.

Definition request : AgentPromptRequest :=
  {| prompt := "/build x"; adw_id := "a1"; agent_name := "ops";
     model := SONNET; dangerously_skip_permissions := false;
     output_file := "agents/a1/ops/cc_raw_output.jsonl";
     working_dir := None |}.

(** The line
    [{"type":"result","subtype":S,"is_error":E,"result":R,"session_id":"abc123"}]. *)
Definition result_line (subtype is_error result : string) : string :=
  "{" ++ quoted "type" ++ ":" ++ quoted "result" ++ ","
    ++ quoted "subtype" ++ ":" ++ quoted subtype ++ ","
    ++ quoted "is_error" ++ ":" ++ is_error ++ ","
    ++ quoted "result" ++ ":" ++ quoted result ++ ","
    ++ quoted "session_id" ++ ":" ++ quoted "abc123" ++ "}".

(** The message that line parses to. *)
Definition result_event (subtype : string) (is_error : bool) (result : string)
  : JSON :=
  JObject [("type", JString "result"); ("subtype", JString subtype);
           ("is_error", JBool is_error); ("result", JString result);
           ("session_id", JString "abc123")].

(** A world with no files, in which every launch exits with [exitCode]
    after writing [stderr] to its standard error and [content] to the
    output file (the third argument of the wrapper), and in which the
    writes to the paths of [failing] fail. *)
Definition world (exitCode : Z) (stderr content : string)
  (failing : string -> option string) : World :=
  {| files := fun _ => None;
     write_error := failing;
     subprocess := fun _ cmd _ fs =>
       Exited exitCode stderr (write_file fs (List.nth 3 cmd "") content);
     spawned := [];
     slept := [];
     cwd := "/work";
     module_dir := "/repo/adws/bun_modules" |}.

Definition no_failure : string -> option string := fun _ => None.

Definition fails_at (path error : string) : string -> option string :=
  fun p => if String.eqb p path then Some error else None.

(** A world in which [Bun.spawn] itself throws. *)
Definition world_without_wrapper : World :=
  {| files := fun _ => None;
     write_error := no_failure;
     subprocess := fun _ _ _ _ => SpawnThrows "ENOENT: no such file or directory, posix_spawn";
     spawned := [];
     slept := [];
     cwd := "/work";
     module_dir := "/repo/adws/bun_modules" |}.

(** A world whose only file is [path], holding [text]. *)
Definition world_with_file (path text : string) : World :=
  {| files := write_file (fun _ => None) path text;
     write_error := no_failure;
     subprocess := fun _ _ _ fs => Exited 0 "" fs;
     spawned := [];
     slept := [];
     cwd := "/work";
     module_dir := "/repo/adws/bun_modules" |}.

(** The line [{"type":T}]. *)
Definition event_line (type : string) : string :=
  "{" ++ quoted "type" ++ ":" ++ quoted type ++ "}".

(** Two event lines, 25 code units in all. *)
Definition two_events : string :=
  event_line "a" ++ String LF (event_line "b").

Definition failed_attempt : AgentPromptResponse :=
  {| output := JString "boom"; success := false; session_id := None;
     retry_code := CLAUDE_CODE_ERROR |}.

Definition successful_attempt : AgentPromptResponse :=
  {| output := JString "Done"; success := true;
     session_id := Some (JString "abc123"); retry_code := NONE |}.

(** A shell in which every directory exists, the agent binary resolves
    or not, and the agent ends with the status [agent_status]. *)
Definition shell (binary_found : bool) (agent_status : Z) : Bash.Shell :=
  {| Bash.CLAUDE_CODE_PATH := None;
     Bash.is_directory := fun _ => true;
     Bash.is_file := fun _ => false;
     Bash.command_found := fun _ => binary_found;
     Bash.get_safe_env := 0;
     Bash.mkdir_p := fun _ => 0;
     Bash.dirname := Bun.path_dirname;
     Bash.cd := fun _ => true;
     Bash.run_agent := fun _ _ _ => agent_status |}.

Definition exec_argv : list string :=
  ["/build x"; "sonnet"; "agents/a1/ops/cc_raw_output.jsonl"; "/work"; "";
   "false"].

Definition template_argv : list string :=
  ["/build"; "x"; "agents/a1/ops/cc_raw_output.jsonl"; "sonnet"; "/work"; ""].

Definition template : Template.AgentTemplateRequest :=
  {| Template.agent_name := "ops"; Template.slash_command := "/build";
     Template.args := ["x"]; Template.adw_id := "a1";
     Template.model := SONNET; Template.working_dir := None |}.

(** A world whose wrapper leaves two result events in the output file. *)
Definition two_results : string :=
  result_line "success" "true" "first" ++ String LF (result_line "success" "false" "second").

(** The world of [world], with a wrapper that always exits with 1. *)
Definition failing_world : World := world 1 "boom" "" no_failure.

(** The request of [request], for a model that the schema does not
    declare. *)
Definition haiku_request : AgentPromptRequest :=
  {| prompt := "/build x"; adw_id := "a1"; agent_name := "ops";
     model := "haiku"; dangerously_skip_permissions := false;
     output_file := "agents/a1/ops/cc_raw_output.jsonl";
     working_dir := None |}.

(** Three event lines: the second is a result event with the text [Done],
    the third carries no text. *)
Definition stream_with_text : string :=
  event_line "system"
    ++ String LF (result_line "success" "false" "Done"
                    ++ String LF (event_line "user")).

End Sample.

(* ================================================================== *)
(** ** Properties *)
(* ================================================================== *)

Section Semantics.
Context {RT : Runtime}.

Lemma parseJSONLOutput_eq (outputFile : string) (w : World) :
  parseJSONLOutput outputFile w = (Ok (parse_output (files w outputFile)), w).
Proof.
  unfold parseJSONLOutput, parse_output, try_catch, bind, lift, ret,
    Bun_file_text.
  destruct (files w outputFile) as [text|]; [|reflexivity].
  destruct (parse_lines (nonblank_lines text)) as [messages|e]; [|reflexivity].
  destruct (find_result (rev messages)); reflexivity.
Qed.

(** [saveLastEntryAsRawResult] swallows every exception, and leaves
    everything but the files as it was. *)
Lemma saveLastEntryAsRawResult_returns (jsonFile : string) (w : World) :
  exists r fs, saveLastEntryAsRawResult jsonFile w = (Ok r, set_files w fs).
Proof.
  assert (Hid : set_files w (files w) = w) by (destruct w; reflexivity).
  unfold saveLastEntryAsRawResult, try_catch, bind, lift, ret, Bun_file_text,
    Bun_write.
  destruct (files w jsonFile) as [text|]; [|exists None, (files w); now rewrite Hid].
  destruct (parse_json text) as [[| | | |[|first others]|]|e];
    try (exists None, (files w); now rewrite Hid).
  destruct (write_error w _) as [e|].
  - exists None, (files w); now rewrite Hid.
  - eexists _, _; reflexivity.
Qed.

(** A run stops at the placeholder write when that write fails... *)
Lemma executeClaudeCode_throws (request : AgentPromptRequest) (w : World)
  (e : string) :
  write_error w (placeholder_path request) = Some e ->
  executeClaudeCode request w = (Throw e, w).
Proof.
  intros H. unfold executeClaudeCode, bind, import_meta_dir, Bun_write.
  fold (placeholder_path request). now rewrite H.
Qed.

(** ... and returns the response of [response_after_launch] otherwise. *)
Lemma executeClaudeCode_returns (request : AgentPromptRequest) (w : World) :
  write_error w (placeholder_path request) = None ->
  exists fs, executeClaudeCode request w
             = (Ok (response_after_launch request w),
                set_files (log_spawn w (wrapper_command request w)) fs).
Proof.
  intros H.
  unfold executeClaudeCode, response_after_launch, bind, import_meta_dir,
    process_cwd, try_catch, Bun_write, Bun_spawn.
  fold (placeholder_path request). rewrite H. cbn [set_files files spawned
    subprocess log_spawn cwd module_dir write_error].
  fold (wrapper_command request w). fold (wrapper_dir request w).
  fold (wrapper_outcome request w).
  destruct (wrapper_outcome request w) as [e|exitCode stderr fs].
  - eexists; reflexivity.
  - rewrite parseJSONLOutput_eq. unfold convertJSONLToJSON, bind.
    rewrite parseJSONLOutput_eq. unfold Bun_write.
    cbn [set_files files spawned subprocess log_spawn cwd module_dir
           write_error fst snd].
    fold (raw_json_path request).
    destruct (write_error w (raw_json_path request)) as [e|].
    + eexists; reflexivity.
    + unfold ret.
      match goal with
      | |- context [saveLastEntryAsRawResult ?f ?w0] =>
          destruct (saveLastEntryAsRawResult_returns f w0) as (r & fs' & ->)
      end.
      unfold lift, result_message.
      destruct (classify exitCode stderr _); eexists; reflexivity.
Qed.

End Semantics.

Section Classification.
Context {RT : Runtime}.

Lemma truthy_or_else_false (v : JSValue) :
  truthy (Some (or_else v (JBool false))) = truthy v.
Proof.
  destruct v as [x|]; [|reflexivity]. unfold or_else.
  destruct (truthy (Some x)) eqn:E; [exact E|reflexivity].
Qed.

Lemma subtype_or_else (v : JSValue) :
  is_string (Some (or_else v (JString ""))) "error_during_execution"
  = is_string v "error_during_execution".
Proof.
  destruct v as [x|]; [|reflexivity]. unfold or_else.
  destruct (truthy (Some x)) eqn:E; [reflexivity|].
  destruct x; try reflexivity. cbn in E |- *.
  destruct (String.eqb_spec s ""); [subst; reflexivity|discriminate].
Qed.

(** The message [find_result] stops at is an object whose [type] is
    ["result"]. *)
Lemma find_result_Some (l : list JSON) (m : JSON) :
  find_result l = Ok (Some m) ->
  exists ms, m = JObject ms /\ lookup_member "type" ms = Some (JString "result").
Proof.
  induction l as [|x l IH]; cbn; [discriminate|].
  destruct (prop x "type") as [ty|e] eqn:P; [|discriminate].
  destruct (is_string ty "result") eqn:T; [|exact IH].
  intros [= ->]. destruct m; cbn in P; try discriminate;
    try (injection P as <-; discriminate).
  injection P as <-. exists members; split; [reflexivity|].
  destruct (lookup_member "type" members) as [[]|]; cbn in T; try discriminate.
  apply String.eqb_eq in T. now subst.
Qed.

Lemma result_message_object (request : AgentPromptRequest) (fs : Files)
  (m : JSON) :
  result_message request fs = Some m -> exists ms, m = JObject ms.
Proof.
  unfold result_message, parse_output.
  destruct (fs (output_file request)) as [text|]; [|discriminate].
  destruct (parse_lines (nonblank_lines text)) as [messages|]; [|discriminate].
  destruct (find_result (rev messages)) as [r|] eqn:F; [|discriminate].
  cbn. intros ->. destruct (find_result_Some _ _ F) as (ms & -> & _).
  now exists ms.
Qed.

(** The branch of a result message (lines 75-101). *)
Lemma result_response_spec (m : JSON) (r : AgentPromptResponse) :
  result_response m = Ok r ->
  (retry_code r = ERROR_DURING_EXECUTION /\ success r = false
   /\ is_string (opt_prop (Some m) "subtype") "error_during_execution" = true)
  \/ (retry_code r = NONE
      /\ success r = negb (truthy (opt_prop (Some m) "is_error"))
      /\ is_string (opt_prop (Some m) "subtype") "error_during_execution" = false).
Proof.
  unfold result_response. rewrite subtype_or_else, truthy_or_else_false.
  destruct (is_string (opt_prop (Some m) "subtype") "error_during_execution").
  - intros [= <-]. left. repeat split.
  - match goal with
    | |- match ?c with Ok _ => _ | Throw _ => _ end = _ -> _ =>
        destruct c as [finalOutput|e]; [|discriminate]
    end.
    intros [= <-]. right. repeat split.
Qed.

Lemma error_response_spec (exitCode : Z) (stderr : string)
  (resultMessage : option JSON) (r : AgentPromptResponse) :
  error_response exitCode stderr resultMessage = Ok r ->
  retry_code r = CLAUDE_CODE_ERROR /\ success r = false.
Proof.
  unfold error_response. destruct (error_message _ _ _); [|discriminate].
  intros [= <-]. split; reflexivity.
Qed.

(** The classification pairs every code but [NONE] with a failure, and
    returns [NONE] only for a result message of a wrapper that exited
    with 0. *)
Lemma classify_spec (exitCode : Z) (stderr : string)
  (resultMessage : option JSON) (r : AgentPromptResponse) :
  classify exitCode stderr resultMessage = Ok r ->
  (retry_code r <> NONE -> success r = false)
  /\ (retry_code r = NONE ->
      exists m, resultMessage = Some m /\ exitCode = 0
                /\ success r = negb (truthy (opt_prop (Some m) "is_error"))).
Proof.
  unfold classify. intros H.
  assert (Hother : forall r0,
    (if exitCode =? 124 then Ok timeout_response
     else error_response exitCode stderr resultMessage) = Ok r0 ->
    retry_code r0 <> NONE /\ success r0 = false).
  { intros r0. destruct (exitCode =? 124).
    - intros [= <-]. split; [discriminate|reflexivity].
    - intros E. apply error_response_spec in E as [-> ->].
      split; [discriminate|reflexivity]. }
  destruct resultMessage as [m|].
  - destruct ((exitCode =? 0) && truthy (Some m)) eqn:C.
    + apply andb_true_iff in C as [C _]. apply Z.eqb_eq in C.
      apply result_response_spec in H as [(Hc & Hs & _)|(Hc & Hs & _)].
      * split; [intros _; exact Hs|rewrite Hc; discriminate].
      * split; [rewrite Hc; congruence|]. intros _. now exists m.
    + apply Hother in H as [Hc Hs]. split; [intros _; exact Hs|contradiction].
  - apply Hother in H as [Hc Hs]. split; [intros _; exact Hs|contradiction].
Qed.

End Classification.

(** *** Strings *)

Lemma length_append (a b : string) :
  String.length (a ++ b) = (String.length a + String.length b)%nat.
Proof. induction a as [|c a IH]; cbn; [reflexivity|now rewrite IH]. Qed.

Lemma length_take (n : nat) (s : string) :
  (String.length (take n s) <= n)%nat.
Proof.
  revert s. induction n as [|n IH]; intros [|c s]; cbn; try lia.
  specialize (IH s). lia.
Qed.

Lemma len_slice0 (s : string) (e : Z) : 0 <= e -> len (slice0 s e) <= e.
Proof.
  intros He. unfold slice0, len.
  destruct (e <? 0) eqn:E; [apply Z.ltb_lt in E; lia|].
  pose proof (length_take (Z.to_nat (Z.min e (Z.of_nat (String.length s)))) s).
  lia.
Qed.

Lemma last_in_prefix_bound (c : ascii) (s : string) (n : nat) (base : Z) :
  last_in_prefix c s n base < base + Z.of_nat n \/ last_in_prefix c s n base = -1.
Proof.
  revert s base. induction n as [|n IH]; intros [|d r] base; cbn;
    try (right; reflexivity).
  destruct (IH r (base + 1)) as [H|H].
  - destruct (0 <=? last_in_prefix c r n (base + 1)); [left; lia|].
    destruct (Ascii.eqb d c); [left; lia|now right].
  - rewrite H. cbn. destruct (Ascii.eqb d c); [left; lia|now right].
Qed.

Lemma lastIndexOf_bound (s : string) (c : ascii) (from : Z) :
  0 <= from -> lastIndexOf s c from <= from.
Proof.
  intros Hf. unfold lastIndexOf.
  destruct (last_in_prefix_bound c s
              (Z.to_nat (Z.max 0 (Z.min from (len s)) + 1)) 0) as [H|H]; lia.
Qed.

Section Truncation.
Context {RT : Runtime}.

Lemma truncateOutput_plain (output : string) (maxLength : Z) (suffix : string) :
  looks_like_jsonl output = false ->
  truncateOutput output maxLength suffix
  = truncate_plain output maxLength suffix.
Proof.
  intros H. unfold truncateOutput.
  destruct (String.length output); cbn; now rewrite H.
Qed.

(** The regular truncation keeps the result within the limit, suffix
    included, when the suffix itself fits. *)
Lemma truncate_plain_length (output : string) (maxLength : Z) (suffix : string) :
  len suffix <= maxLength ->
  len (truncate_plain output maxLength suffix) <= maxLength.
Proof.
  intros Hs. unfold truncate_plain.
  destruct (len output <=? maxLength) eqn:E; [now apply Z.leb_le in E|].
  set (truncateAt := maxLength - len suffix).
  assert (Hcut : forall pos, 0 <= pos <= truncateAt ->
                   len (slice0 output pos ++ suffix) <= maxLength).
  { intros pos Hpos. pose proof (len_slice0 output pos (proj1 Hpos)) as L.
    unfold len in *. rewrite length_append. subst truncateAt. lia. }
  assert (Hat : 0 <= truncateAt) by (subst truncateAt; lia).
  pose proof (lastIndexOf_bound output LF truncateAt Hat) as Hn.
  pose proof (lastIndexOf_bound output SPACE truncateAt Hat) as Hp.
  destruct ((lastIndexOf output LF truncateAt >? truncateAt - 50)
            && (lastIndexOf output LF truncateAt >? 0)) eqn:N.
  - apply andb_true_iff in N as [_ N]. apply Hcut. lia.
  - destruct ((lastIndexOf output SPACE truncateAt >? truncateAt - 20)
              && (lastIndexOf output SPACE truncateAt >? 0)) eqn:P.
    + apply andb_true_iff in P as [_ P]. apply Hcut. lia.
    + apply Hcut. lia.
Qed.

(** A text that opens with a fixed preamble other than the event marker
    is not taken for an event stream. *)
Lemma prefixed_not_jsonl (text : string) :
  looks_like_jsonl ("Claude Code error: " ++ text) = false.
Proof. reflexivity. Qed.

End Truncation.

(* ------------------------------------------------------------------ *)
(** *** Result codes and the success flag *)

Section ResultCodes.
Context {RT : Runtime}.

Lemma run_cases (request : AgentPromptRequest) (w : World)
  (r : AgentPromptResponse) :
  fst (executeClaudeCode request w) = Ok r ->
  write_error w (placeholder_path request) = None
  /\ r = response_after_launch request w.
Proof.
  intros H. destruct (write_error w (placeholder_path request)) as [e|] eqn:E.
  - rewrite (executeClaudeCode_throws request w e E) in H. discriminate.
  - split; [reflexivity|].
    destruct (executeClaudeCode_returns request w E) as [w' Hrun].
    rewrite Hrun in H. cbn in H. congruence.
Qed.

(** C1, as the code has it.  Every response [executeClaudeCode] returns
    with a result code other than [none] has [success = false]; a response
    with the code [none] comes from a wrapper that exited with 0 and a
    result message, and its [success] is the negation of the [is_error]
    flag of that message: [none] goes with [success = false] when the
    flag is set. *)
Theorem retry_code_and_success (request : AgentPromptRequest) (w : World)
  (r : AgentPromptResponse) :
  fst (executeClaudeCode request w) = Ok r ->
  (retry_code r <> NONE -> success r = false)
  /\ (retry_code r = NONE ->
      exists stderr fs m,
        wrapper_outcome request w = Exited 0 stderr fs
        /\ result_message request fs = Some m
        /\ success r = negb (truthy (opt_prop (Some m) "is_error"))).
Proof.
  intros H. apply run_cases in H as [_ ->]. unfold response_after_launch.
  assert (Hexc : forall e,
    (retry_code (exception_response e) <> NONE
     -> success (exception_response e) = false)
    /\ (retry_code (exception_response e) = NONE ->
        exists stderr fs m,
          wrapper_outcome request w = Exited 0 stderr fs
          /\ result_message request fs = Some m
          /\ success (exception_response e)
             = negb (truthy (opt_prop (Some m) "is_error"))))
    by (intros e; split; [reflexivity|discriminate]).
  destruct (wrapper_outcome request w) as [e|exitCode stderr fs] eqn:O;
    [apply Hexc|].
  destruct (write_error w (raw_json_path request)); [apply Hexc|].
  destruct (classify exitCode stderr (result_message request fs)) as [r|e]
    eqn:C; [|apply Hexc].
  apply classify_spec in C as [C1 C2]. split; [exact C1|].
  intros Hn. destruct (C2 Hn) as (m & Hm & -> & Hs).
  exists stderr, fs, m. auto.
Qed.

(** C6, as the code has it.  In a run in which the placeholder write and
    the write of the audit conversion ([cc_raw_output.json]) succeed, the
    wrapper exits with 0 and the result message has the subtype
    [error_during_execution], [executeClaudeCode] returns [success = false]
    with the code [error_during_execution], whatever the [is_error] flag
    says. *)
Theorem error_during_execution_overrides_is_error
  (request : AgentPromptRequest) (w : World) (stderr : string) (fs : Files)
  (m : JSON) :
  write_error w (placeholder_path request) = None ->
  write_error w (raw_json_path request) = None ->
  wrapper_outcome request w = Exited 0 stderr fs ->
  result_message request fs = Some m ->
  opt_prop (Some m) "subtype" = Some (JString "error_during_execution") ->
  exists r,
    fst (executeClaudeCode request w) = Ok r
    /\ success r = false
    /\ retry_code r = ERROR_DURING_EXECUTION.
Proof.
  intros Hp Hj Ho Hm Hs.
  destruct (executeClaudeCode_returns request w Hp) as [w' ->].
  eexists; split; [reflexivity|].
  unfold response_after_launch. rewrite Ho, Hj, Hm.
  destruct (result_message_object _ _ _ Hm) as [ms ->].
  unfold classify, result_response. cbn [Z.eqb truthy andb].
  rewrite subtype_or_else, Hs. cbn. split; reflexivity.
Qed.

End ResultCodes.

(** A response with the code [none] and [success = false]: the wrapper
    exits with 0 and the result message has [is_error] set. *)
Lemma none_with_failure :
  fst (executeClaudeCode Sample.request
         (Sample.world 0 "" (Sample.result_line "success" "true" "Bad")
            Sample.no_failure))
  = Ok {| output := JString "Bad"; success := false;
          session_id := Some (JString "abc123"); retry_code := NONE |}.
Proof. vm_compute. reflexivity. Qed.

Lemma retry_code_and_success_witness :
  let r := {| output := JString "Bad"; success := false;
              session_id := Some (JString "abc123"); retry_code := NONE |} in
  (retry_code r <> NONE -> success r = false)
  /\ (retry_code r = NONE ->
      exists stderr fs m,
        wrapper_outcome Sample.request
          (Sample.world 0 "" (Sample.result_line "success" "true" "Bad")
             Sample.no_failure) = Exited 0 stderr fs
        /\ result_message Sample.request fs = Some m
        /\ success r = negb (truthy (opt_prop (Some m) "is_error"))).
Proof.
  apply (retry_code_and_success Sample.request
           (Sample.world 0 "" (Sample.result_line "success" "true" "Bad")
              Sample.no_failure)).
  vm_compute. reflexivity.
Defined.

(** The wrapper exits with 0 and the stream holds a result event of the
    subtype [error_during_execution], but the write of the audit conversion
    fails: the exception is caught before the classification, and the
    response carries the code [execution_error]. *)
Lemma error_during_execution_after_failed_conversion :
  let content := Sample.result_line "error_during_execution" "false" "" in
  let w := Sample.world 0 "" content
             (Sample.fails_at "agents/a1/ops/cc_raw_output.json"
                "ENOSPC: no space left on device") in
  let fs := write_file
              (write_file (fun _ => None) "agents/a1/ops/.placeholder" "")
              "agents/a1/ops/cc_raw_output.jsonl" content in
  wrapper_outcome Sample.request w = Exited 0 "" fs
  /\ result_message Sample.request fs
     = Some (Sample.result_event "error_during_execution" false "")
  /\ fst (executeClaudeCode Sample.request w)
     = Ok {| output := JString "Error executing Claude Code: ENOSPC: no space left on device";
             success := false; session_id := None;
             retry_code := EXECUTION_ERROR |}
  /\ EXECUTION_ERROR <> ERROR_DURING_EXECUTION.
Proof.
  split; [vm_compute; reflexivity|].
  split; [vm_compute; reflexivity|].
  split; [vm_compute; reflexivity|discriminate].
Qed.

Lemma error_during_execution_overrides_is_error_witness :
  exists r,
    fst (executeClaudeCode Sample.request
           (Sample.world 0 ""
              (Sample.result_line "error_during_execution" "false" "")
              Sample.no_failure)) = Ok r
    /\ success r = false
    /\ retry_code r = ERROR_DURING_EXECUTION.
Proof.
  apply (error_during_execution_overrides_is_error Sample.request
           (Sample.world 0 ""
              (Sample.result_line "error_during_execution" "false" "")
              Sample.no_failure)
           ""
           (write_file
              (write_file (fun _ => None) "agents/a1/ops/.placeholder" "")
              "agents/a1/ops/cc_raw_output.jsonl"
              (Sample.result_line "error_during_execution" "false" ""))
           (Sample.result_event "error_during_execution" false ""));
    vm_compute; reflexivity.
Defined.

(* ------------------------------------------------------------------ *)
(** *** Exceptions *)

Section Exceptions.
Context {RT : Runtime}.

(** C3, as the code has it.  Once the placeholder write that creates the
    parent directory of the output file has succeeded, [executeClaudeCode]
    returns and never throws; an exception raised inside its [try] (by
    the launch of the wrapper, by the write of the audit conversion or by
    the classification) becomes a response with the code
    [execution_error], [success = false] and the exception text after
    the words [Error executing Claude Code: ] as output. *)
Theorem exception_in_try_is_returned (request : AgentPromptRequest)
  (w : World) :
  write_error w (placeholder_path request) = None ->
  (exists r, fst (executeClaudeCode request w) = Ok r)
  /\ (forall e, raised_in_try request w e ->
        fst (executeClaudeCode request w)
        = Ok {| output := JString ("Error executing Claude Code: " ++ e);
                success := false;
                session_id := None;
                retry_code := EXECUTION_ERROR |}).
Proof.
  intros Hp. destruct (executeClaudeCode_returns request w Hp) as [w' ->].
  split; [eexists; reflexivity|].
  intros e He. cbn [fst]. f_equal.
  unfold raised_in_try in He. unfold response_after_launch.
  destruct (wrapper_outcome request w) as [e'|exitCode stderr fs];
    [now subst|].
  destruct (write_error w (raw_json_path request)) as [e'|]; [now subst|].
  now rewrite He.
Qed.

End Exceptions.

(** The placeholder write is outside the [try]: when it fails, the
    exception leaves [executeClaudeCode]. *)
Lemma placeholder_failure_is_thrown :
  fst (executeClaudeCode Sample.request
         (Sample.world 0 "" (Sample.result_line "success" "false" "Done")
            (Sample.fails_at "agents/a1/ops/.placeholder"
               "EACCES: permission denied")))
  = Throw "EACCES: permission denied".
Proof. vm_compute. reflexivity. Qed.

Lemma exception_in_try_is_returned_witness :
  (exists r, fst (executeClaudeCode Sample.request Sample.world_without_wrapper)
             = Ok r)
  /\ fst (executeClaudeCode Sample.request Sample.world_without_wrapper)
     = Ok {| output := JString "Error executing Claude Code: ENOENT: no such file or directory, posix_spawn";
             success := false;
             session_id := None;
             retry_code := EXECUTION_ERROR |}.
Proof.
  destruct (exception_in_try_is_returned Sample.request
              Sample.world_without_wrapper eq_refl) as [Hr He].
  split; [exact Hr|].
  apply (He "ENOENT: no such file or directory, posix_spawn").
  vm_compute. reflexivity.
Defined.

(* ------------------------------------------------------------------ *)
(** *** The error branch *)

Section ErrorBranch.
Context {RT : Runtime}.

Lemma error_message_text (exitCode : Z) (stderr : string)
  (resultMessage : option JSON) (msg : string) :
  error_text exitCode stderr resultMessage msg ->
  error_message exitCode stderr resultMessage = Ok msg.
Proof.
  unfold error_message. intros [text Ht Hr|Ht Hs|Ht Hs]; rewrite Ht.
  - now rewrite Hr.
  - apply String.eqb_neq in Hs. now rewrite Hs.
  - subst stderr. reflexivity.
Qed.

(** C5, as the code has it.  When the wrapper exits with a code other
    than 0 and 124, a run that reaches the classification returns the
    code [claude_code_error] with [success = false], and its output is
    [truncateOutput(text, 800)] for the text chosen in this order: the
    result text of a result message whose [is_error] is set, after the
    words [Claude Code error: ]; else the standard error of the wrapper
    if not empty; else [Claude Code command failed with exit code N].
    Unless the text looks like an event stream, the output has at most
    800 characters. *)
Theorem error_branch_output (request : AgentPromptRequest) (w : World)
  (exitCode : Z) (stderr : string) (fs : Files) (msg : string) :
  write_error w (placeholder_path request) = None ->
  write_error w (raw_json_path request) = None ->
  wrapper_outcome request w = Exited exitCode stderr fs ->
  exitCode <> 0 ->
  exitCode <> 124 ->
  error_text exitCode stderr (result_message request fs) msg ->
  fst (executeClaudeCode request w)
  = Ok {| output := JString (truncateOutput msg 800 DEFAULT_SUFFIX);
          success := false;
          session_id := opt_prop (result_message request fs) "session_id";
          retry_code := CLAUDE_CODE_ERROR |}
  /\ (looks_like_jsonl msg = false ->
      len (truncateOutput msg 800 DEFAULT_SUFFIX) <= 800).
Proof.
  intros Hp Hj Ho H0 H124 Ht.
  destruct (executeClaudeCode_returns request w Hp) as [w' ->].
  split.
  - cbn [fst]. f_equal. unfold response_after_launch. rewrite Ho, Hj.
    apply Z.eqb_neq in H0, H124.
    unfold classify, error_response. rewrite H0, H124.
    rewrite (error_message_text _ _ _ _ Ht).
    destruct (result_message request fs); reflexivity.
  - intros Hl. rewrite (truncateOutput_plain _ _ _ Hl).
    apply truncate_plain_length. vm_compute. discriminate.
Qed.

End ErrorBranch.

(** With a non-empty standard error and a result message flagged as an
    error, the output is the text of the result message, not the standard
    error. *)
Lemma result_text_before_stderr :
  fst (executeClaudeCode Sample.request
         (Sample.world 1 "boom" (Sample.result_line "success" "true" "Bad")
            Sample.no_failure))
  = Ok {| output := JString "Claude Code error: Bad"; success := false;
          session_id := Some (JString "abc123");
          retry_code := CLAUDE_CODE_ERROR |}.
Proof. vm_compute. reflexivity. Qed.

Lemma error_branch_output_witness :
  fst (executeClaudeCode Sample.request
         (Sample.world 1 "boom" (Sample.result_line "success" "false" "ok")
            Sample.no_failure))
  = Ok {| output := JString (truncateOutput "boom" 800 DEFAULT_SUFFIX);
          success := false;
          session_id :=
            opt_prop
              (result_message Sample.request
                 (write_file
                    (write_file (fun _ => None) "agents/a1/ops/.placeholder" "")
                    "agents/a1/ops/cc_raw_output.jsonl"
                    (Sample.result_line "success" "false" "ok")))
              "session_id";
          retry_code := CLAUDE_CODE_ERROR |}
  /\ (looks_like_jsonl "boom" = false ->
      len (truncateOutput "boom" 800 DEFAULT_SUFFIX) <= 800).
Proof.
  apply (error_branch_output Sample.request
           (Sample.world 1 "boom" (Sample.result_line "success" "false" "ok")
              Sample.no_failure)
           1 "boom"
           (write_file
              (write_file (fun _ => None) "agents/a1/ops/.placeholder" "")
              "agents/a1/ops/cc_raw_output.jsonl"
              (Sample.result_line "success" "false" "ok"))
           "boom");
    [reflexivity|reflexivity|vm_compute; reflexivity|discriminate|discriminate|].
  apply text_of_stderr; [vm_compute; reflexivity|discriminate].
Defined.

(* ------------------------------------------------------------------ *)
(** *** Truncation of short texts *)

Section ShortTexts.
Context {RT : Runtime}.

(** C8, as the code has it.  A text that does not look like an event
    stream (it does not both start with [{"type":] and contain that
    marker at the start of a later line) and is no longer than the limit
    is returned unchanged. *)
Theorem short_plain_text_unchanged (output : string) (maxLength : Z)
  (suffix : string) :
  looks_like_jsonl output = false ->
  len output <= maxLength ->
  truncateOutput output maxLength suffix = output.
Proof.
  intros Hl Hlen. rewrite (truncateOutput_plain _ _ _ Hl).
  unfold truncate_plain. apply Z.leb_le in Hlen. now rewrite Hlen.
Qed.

End ShortTexts.

(** A text of 25 code units that looks like an event stream is replaced by
    a placeholder, although the limit is 500. *)
Lemma short_event_stream_is_replaced :
  len Sample.two_events = 25
  /\ truncateOutput Sample.two_events 500 DEFAULT_SUFFIX
     = "[JSONL output with 2 messages]... (truncated)"
  /\ truncateOutput Sample.two_events 500 DEFAULT_SUFFIX <> Sample.two_events.
Proof. repeat split; vm_compute; try reflexivity; discriminate. Qed.

Lemma short_plain_text_unchanged_witness :
  truncateOutput "Done" 500 DEFAULT_SUFFIX = "Done".
Proof.
  apply (short_plain_text_unchanged "Done" 500 DEFAULT_SUFFIX);
    [reflexivity|vm_compute; discriminate].
Defined.

(* ------------------------------------------------------------------ *)
(** *** The event stream parser *)

Section Parser.
Context {RT : Runtime}.

Lemma parse_lines_all (lines : list string) (events : list JSON) :
  Forall2 (fun line v => JSON_parse line = Some v) lines events ->
  parse_lines lines = Ok events.
Proof.
  induction 1 as [|line v lines events Hv _ IH]; cbn; [reflexivity|].
  unfold parse_json. now rewrite Hv, IH.
Qed.

Lemma parse_lines_some_fails (lines : list string) :
  Exists (fun line => JSON_parse line = None) lines ->
  exists e, parse_lines lines = Throw e.
Proof.
  induction 1 as [line lines Hl|line lines _ [e IH]]; cbn; unfold parse_json.
  - rewrite Hl. eexists; reflexivity.
  - destruct (JSON_parse line); [rewrite IH|]; eexists; reflexivity.
Qed.

Lemma find_result_passes (skipped rest : list JSON) :
  Forall passed_over skipped ->
  find_result (skipped ++ rest) = find_result rest.
Proof.
  induction 1 as [|m skipped (ty & Hp & Ht) _ IH]; cbn; [reflexivity|].
  now rewrite Hp, Ht.
Qed.

Lemma find_result_stops (m : JSON) (rest : list JSON) :
  is_result m -> find_result (m :: rest) = Ok (Some m).
Proof. intros (ty & Hp & Ht). cbn. now rewrite Hp, Ht. Qed.

(** C2, as the code has it.  When every non-blank line of the output file
    parses, [parseJSONLOutput] returns every event, in order, and the last
    result event, wherever it stands; when some non-blank line does not
    parse, the whole parse is given up and it returns no event and no
    result event. *)
Theorem parse_is_all_or_nothing (outputFile : string) (w : World)
  (text : string) :
  files w outputFile = Some text ->
  (forall before m after,
      Forall2 (fun line v => JSON_parse line = Some v)
        (nonblank_lines text) (before ++ m :: after)%list ->
      is_result m ->
      Forall passed_over after ->
      fst (parseJSONLOutput outputFile w)
      = Ok ((before ++ m :: after)%list, Some m))
  /\ (Exists (fun line => JSON_parse line = None) (nonblank_lines text) ->
      fst (parseJSONLOutput outputFile w) = Ok ([], None)).
Proof.
  intros Hf. rewrite parseJSONLOutput_eq. cbn [fst]. unfold parse_output.
  rewrite Hf. split.
  - intros before m after Hall Hm Hafter.
    rewrite (parse_lines_all _ _ Hall).
    rewrite rev_app_distr. cbn [rev]. rewrite <- app_assoc. cbn [app].
    rewrite find_result_passes by now apply Forall_rev.
    now rewrite find_result_stops.
  - intros Hex. destruct (parse_lines_some_fails _ Hex) as [e ->]. reflexivity.
Qed.

End Parser.

(** One line that does not parse, followed by a result event: the parser
    returns neither the result event nor any event. *)
Lemma malformed_line_aborts_parse :
  let result := Sample.result_line "success" "false" "Done" in
  let text := "not json" ++ String LF result in
  JSON_parse "not json" = None
  /\ JSON_parse result = Some (Sample.result_event "success" false "Done")
  /\ fst (parseJSONLOutput "out.jsonl" (Sample.world_with_file "out.jsonl" text))
     = Ok ([], None).
Proof. vm_compute. repeat split. Qed.

Lemma parse_is_all_or_nothing_witness :
  let result := Sample.result_line "success" "false" "Done" in
  let w1 := Sample.world_with_file "out.jsonl"
              (Sample.event_line "system" ++ String LF result) in
  let w2 := Sample.world_with_file "out.jsonl" ("not json" ++ String LF result) in
  fst (parseJSONLOutput "out.jsonl" w1)
  = Ok (([JObject [("type", JString "system")]]
           ++ Sample.result_event "success" false "Done" :: [])%list,
        Some (Sample.result_event "success" false "Done"))
  /\ fst (parseJSONLOutput "out.jsonl" w2) = Ok ([], None).
Proof.
  intros result w1 w2. split.
  - apply (proj1 (parse_is_all_or_nothing "out.jsonl" w1 _ eq_refl)).
    + replace (nonblank_lines (Sample.event_line "system" ++ String LF result))
        with [Sample.event_line "system"; result] by (vm_compute; reflexivity).
      repeat constructor; vm_compute; reflexivity.
    + exists (Some (JString "result")). split; reflexivity.
    + constructor.
  - apply (proj2 (parse_is_all_or_nothing "out.jsonl" w2 _ eq_refl)).
    replace (nonblank_lines ("not json" ++ String LF result))
      with ["not json"; result] by (vm_compute; reflexivity).
    apply Exists_cons_hd. vm_compute. reflexivity.
Defined.

(* ------------------------------------------------------------------ *)
(** *** The retry controller *)

Section Replayed.

Variable request : AgentPromptRequest.
Variable maxRetries : Z.
Variable retryDelays : list Num.

(** The loop goes through a run of failures with the code
    [claude_code_error] and returns at the first success. *)
Lemma attempts_replay (ok : AgentPromptResponse)
  (rest : list AgentPromptResponse) (failures : list AgentPromptResponse) :
  Forall (fun r => retry_code r = CLAUDE_CODE_ERROR /\ success r = false)
    failures ->
  success ok = true ->
  forall (remaining : nat) (attempt : Z) (calls : nat),
    0 <= attempt ->
    attempt + Z.of_nat (List.length failures) <= maxRetries ->
    (List.length failures < remaining)%nat ->
    attempts replay_invoke replay_pause remaining attempt request maxRetries
      retryDelays ((failures ++ ok :: rest)%list, calls)
    = (Ok ok, (rest, (calls + List.length failures + 1)%nat)).
Proof.
  intros Hfail Hok.
  induction Hfail as [|r failures [Hc Hs] _ IH];
    intros remaining attempt calls Ha Hm Hr.
  - destruct remaining as [|remaining]; [cbn in Hr; lia|].
    cbn [attempts List.length app] in *.
    replace (attempt <=? maxRetries) with true by (symmetry; apply Z.leb_le; lia).
    unfold bind, replay_invoke, replay_pause, ret.
    destruct (attempt >? 0); cbn; rewrite Hok; cbn;
      f_equal; f_equal; lia.
  - destruct remaining as [|remaining]; [cbn in Hr; lia|].
    cbn [attempts List.length app] in *.
    replace (attempt <=? maxRetries) with true by (symmetry; apply Z.leb_le; lia).
    assert (Hlt : (attempt <? maxRetries) = true) by (apply Z.ltb_lt; lia).
    unfold bind at 1 2. unfold replay_invoke at 1. unfold replay_pause at 1.
    unfold ret at 1.
    assert (Hstep :
      (if success r || RetryCode_eqb (retry_code r) NONE then ret r
       else if negb (existsb (RetryCode_eqb (retry_code r)) retryableCodes)
            then ret r
            else if attempt <? maxRetries
                 then attempts replay_invoke replay_pause remaining
                        (attempt + 1) request maxRetries retryDelays
                 else ret r)
      = attempts replay_invoke replay_pause remaining (attempt + 1) request
          maxRetries retryDelays)
      by (rewrite Hc, Hs, Hlt; reflexivity).
    destruct (attempt >? 0); cbn [fst snd]; rewrite Hstep;
      rewrite IH by lia; f_equal; f_equal; lia.
Qed.

End Replayed.

(** C7.  When the first [k] invocations return responses with the code
    [claude_code_error] and [success = false] and the next one returns a
    response with [success = true], the retry controller called with
    [maxRetries >= k + 1] returns that response after exactly [k + 1]
    invocations, leaving the later responses unused. *)
Theorem retry_returns_first_success (k : nat) (request : AgentPromptRequest)
  (maxRetries : Z) (retryDelays : list Num)
  (failures : list AgentPromptResponse) (ok : AgentPromptResponse)
  (rest : list AgentPromptResponse) :
  List.length failures = k ->
  Forall (fun r => retry_code r = CLAUDE_CODE_ERROR /\ success r = false)
    failures ->
  success ok = true ->
  Z.of_nat k + 1 <= maxRetries ->
  retry replay_invoke replay_pause request maxRetries retryDelays
    ((failures ++ ok :: rest)%list, 0%nat)
  = (Ok ok, (rest, (k + 1)%nat)).
Proof.
  intros Hk Hfail Hok Hmax. unfold retry.
  rewrite (attempts_replay request maxRetries _ ok rest failures Hfail Hok)
    by lia.
  subst k. reflexivity.
Qed.

Lemma retry_returns_first_success_witness :
  retry replay_invoke replay_pause Sample.request 3 DEFAULT_RETRY_DELAYS
    (([Sample.failed_attempt; Sample.failed_attempt]
        ++ Sample.successful_attempt :: [Sample.failed_attempt])%list, 0%nat)
  = (Ok Sample.successful_attempt, ([Sample.failed_attempt], (2 + 1)%nat)).
Proof.
  apply (retry_returns_first_success 2 Sample.request 3 DEFAULT_RETRY_DELAYS
           [Sample.failed_attempt; Sample.failed_attempt]
           Sample.successful_attempt [Sample.failed_attempt]);
    [reflexivity|repeat constructor|reflexivity|lia].
Defined.

(* ------------------------------------------------------------------ *)
(** *** The process wrapper *)

Module BashFacts.
Import Bash.

(** The status of the wrapper when the agent ran and ended with a status
    other than 0 and 124. *)
Lemma agent_failure_status (codes : ErrorCodes) (sh : Shell) (script : string)
  (PROMPT MODEL OUTPUT_FILE WORKING_DIR MCP_CONFIG_PATH SKIP_PERMISSIONS : string)
  (extra : list string) (cmd : list string) :
  let o := claude_code_exec codes sh script
             (PROMPT :: MODEL :: OUTPUT_FILE :: WORKING_DIR :: MCP_CONFIG_PATH
                :: SKIP_PERMISSIONS :: extra) in
  agent_runs o = [cmd] ->
  run_agent sh cmd WORKING_DIR OUTPUT_FILE <> 0 ->
  run_agent sh cmd WORKING_DIR OUTPUT_FILE <> 124 ->
  status o = EXIT_CLAUDE_ERROR codes.
Proof.
  cbn zeta. unfold claude_code_exec.
  repeat match goal with
         | |- context [if ?c then exit _ _ else _] =>
             destruct c; [cbn; discriminate|]
         end.
  set (CMD := agent_command sh PROMPT MODEL MCP_CONFIG_PATH SKIP_PERMISSIONS).
  intros Hruns H0 H124.
  assert (Hcmd : CMD = cmd)
    by (revert Hruns; destruct (_ =? 0); [|destruct (_ =? 124)]; cbn;
        congruence).
  rewrite <- Hcmd in H0, H124.
  apply Z.eqb_neq in H0, H124. now rewrite H0, H124.
Qed.

(** C9, as the code has it.  With valid arguments and an agent binary
    that does not resolve, the wrapper exits before running any agent
    command, with the message that the CLI was not found and with the
    status [EXIT_CLAUDE_ERROR]: the very status it exits with when the
    agent ran and failed. *)
Theorem binary_not_found_status (codes : ErrorCodes) (sh : Shell)
  (script : string)
  (PROMPT MODEL OUTPUT_FILE WORKING_DIR MCP_CONFIG_PATH SKIP_PERMISSIONS : string)
  (extra : list string) :
  MODEL = "sonnet" \/ MODEL = "opus" ->
  is_directory sh WORKING_DIR = true ->
  command_found sh (CLAUDE_PATH sh) = false ->
  let argv := PROMPT :: MODEL :: OUTPUT_FILE :: WORKING_DIR :: MCP_CONFIG_PATH
                :: SKIP_PERMISSIONS :: extra in
  let o := claude_code_exec codes sh script argv in
  status o = EXIT_CLAUDE_ERROR codes
  /\ agent_runs o = []
  /\ errors o = ["Error: Claude Code CLI not found at: " ++ CLAUDE_PATH sh]
  /\ (forall sh' cmd,
        let o' := claude_code_exec codes sh' script argv in
        agent_runs o' = [cmd] ->
        run_agent sh' cmd WORKING_DIR OUTPUT_FILE <> 0 ->
        run_agent sh' cmd WORKING_DIR OUTPUT_FILE <> 124 ->
        status o' = status o).
Proof.
  intros Hm Hd Hc argv o.
  assert (Ho : o = exit (EXIT_CLAUDE_ERROR codes)
                 ["Error: Claude Code CLI not found at: " ++ CLAUDE_PATH sh]).
  { subst o argv. unfold claude_code_exec. rewrite Hd, Hc.
    destruct Hm as [-> | ->]; reflexivity. }
  rewrite Ho. repeat split.
  intros sh' cmd o' Hruns H0 H124. cbn [status exit].
  exact (agent_failure_status codes sh' script PROMPT MODEL OUTPUT_FILE
           WORKING_DIR MCP_CONFIG_PATH SKIP_PERMISSIONS extra cmd Hruns H0 H124).
Qed.

(** The template wrapper hands ["true"] to the process wrapper as sixth
    argument, and every agent command it leads to carries the flag. *)
Lemma template_skips_permissions (codes : ErrorCodes) (sh : Shell)
  (script exec_script : string) (argv : list string) (cmd : list string) :
  In cmd (agent_runs (claude_code_template codes sh script exec_script argv)) ->
  In "--dangerously-skip-permissions" cmd.
Proof.
  unfold claude_code_template.
  destruct argv as [|SLASH_COMMAND [|ARGS [|OUTPUT_FILE [|MODEL [|WORKING_DIR
    [|MCP_CONFIG_PATH extra]]]]]]; try (cbn; tauto).
  destruct (negb (startsWith SLASH_COMMAND "/")); [cbn; tauto|].
  unfold exec_args, claude_code_exec.
  repeat match goal with
         | |- context [if ?c then exit _ _ else _] =>
             destruct c; [cbn; tauto|]
         end.
  assert (Hflag : forall PROMPT,
            In "--dangerously-skip-permissions"
              (agent_command sh PROMPT MODEL MCP_CONFIG_PATH "true")).
  { intros PROMPT. unfold agent_command. cbn [String.eqb Ascii.eqb Bool.eqb].
    repeat (apply in_or_app; right). now left. }
  destruct (_ =? 0); [|destruct (_ =? 124)]; cbn [agent_runs In];
    intros [<-|[]]; apply Hflag.
Qed.

End BashFacts.

(** With the exit codes of the contract, a binary that is not found makes
    the wrapper exit with 1, the status of an agent error. *)
Lemma binary_not_found_exits_with_1 :
  Bash.status
    (Bash.claude_code_exec Bash.error_codes (Sample.shell false 0)
       "claude-code-exec.sh" Sample.exec_argv) = 1
  /\ Bash.status
       (Bash.claude_code_exec Bash.error_codes (Sample.shell true 7)
          "claude-code-exec.sh" Sample.exec_argv) = 1.
Proof. split; reflexivity. Qed.

Lemma binary_not_found_status_witness :
  let o := Bash.claude_code_exec Bash.error_codes (Sample.shell false 0)
             "claude-code-exec.sh" Sample.exec_argv in
  Bash.status o = Bash.EXIT_CLAUDE_ERROR Bash.error_codes
  /\ Bash.agent_runs o = []
  /\ Bash.errors o = ["Error: Claude Code CLI not found at: claude"]
  /\ Bash.status
       (Bash.claude_code_exec Bash.error_codes (Sample.shell true 7)
          "claude-code-exec.sh" Sample.exec_argv) = Bash.status o.
Proof.
  destruct (BashFacts.binary_not_found_status Bash.error_codes
              (Sample.shell false 0) "claude-code-exec.sh"
              "/build x" "sonnet" "agents/a1/ops/cc_raw_output.jsonl" "/work"
              "" "false" [] (or_introl eq_refl) eq_refl eq_refl)
    as (Hs & Hr & He & Hsame).
  split; [exact Hs|split; [exact Hr|split; [exact He|]]].
  apply (Hsame (Sample.shell true 7)
           ["claude"; "-p"; "/build x"; "--model"; "sonnet"; "--output-format";
            "stream-json"; "--verbose"]);
    [reflexivity|discriminate|discriminate].
Defined.

(* ------------------------------------------------------------------ *)
(** *** The audit writers *)

Section AuditWriters.
Context {RT : Runtime}.

Lemma response_after_launch_ext (request : AgentPromptRequest)
  (w1 w2 : World) :
  same_but_write_errors w1 w2 ->
  write_error w1 (raw_json_path request) = write_error w2 (raw_json_path request) ->
  response_after_launch request w1 = response_after_launch request w2.
Proof.
  intros (Hf & Hs & Hl & Hc & Hm) Hj.
  unfold response_after_launch, wrapper_outcome, wrapper_command, wrapper_dir.
  now rewrite Hf, Hs, Hl, Hc, Hm, Hj.
Qed.

Lemma executeTemplate_prompt_failure (request : Template.AgentTemplateRequest)
  (w : World) (e : string) :
  write_error w (join [template_output_dir request w; ".placeholder"]) = None ->
  prompt_write_fails request w e ->
  fst (executeTemplate request w) = Throw e.
Proof.
  intros Hp (commandName & Hn & Hw).
  unfold executeTemplate, bind, import_meta_dir, Bun_write.
  fold (template_output_dir request w). rewrite Hp.
  unfold savePrompt. rewrite Hn. unfold bind, import_meta_dir, Bun_write.
  cbn [module_dir set_files write_error].
  fold (prompts_dir request w).
  destruct Hw as [Hw|[Hw1 Hw2]].
  - now rewrite Hw.
  - rewrite Hw1. cbn [module_dir set_files write_error]. now rewrite Hw2.
Qed.

(** C4, as the code has it.
    - The response of [executeClaudeCode] depends on the failures of
      [Bun.write] only through the placeholder write and the write of
      the audit conversion: whether the snapshot of the final object can
      be written changes nothing.
    - When the write of the audit conversion fails, the exception is
      caught by [executeClaudeCode], which returns a response with the
      code [execution_error].
    - When a write of the prompt persistence fails, [executeTemplate]
      throws. *)
Theorem audit_writer_failures :
  (forall request w1 w2,
      same_but_write_errors w1 w2 ->
      write_error w1 (placeholder_path request)
      = write_error w2 (placeholder_path request) ->
      write_error w1 (raw_json_path request)
      = write_error w2 (raw_json_path request) ->
      fst (executeClaudeCode request w1) = fst (executeClaudeCode request w2))
  /\ (forall request w exitCode stderr fs e,
        write_error w (placeholder_path request) = None ->
        wrapper_outcome request w = Exited exitCode stderr fs ->
        write_error w (raw_json_path request) = Some e ->
        fst (executeClaudeCode request w)
        = Ok {| output := JString ("Error executing Claude Code: " ++ e);
                success := false;
                session_id := None;
                retry_code := EXECUTION_ERROR |})
  /\ (forall request w e,
        write_error w (join [template_output_dir request w; ".placeholder"])
        = None ->
        prompt_write_fails request w e ->
        fst (executeTemplate request w) = Throw e).
Proof.
  split; [|split].
  - intros request w1 w2 Hsame Hp Hj.
    destruct (write_error w1 (placeholder_path request)) as [e|] eqn:E1.
    + rewrite (executeClaudeCode_throws request w1 e E1).
      now rewrite (executeClaudeCode_throws request w2 e (eq_sym Hp)).
    + destruct (executeClaudeCode_returns request w1 E1) as [fs1 ->].
      destruct (executeClaudeCode_returns request w2 (eq_sym Hp)) as [fs2 ->].
      cbn [fst]. f_equal. now apply response_after_launch_ext.
  - intros request w exitCode stderr fs e Hp Ho Hj.
    destruct (executeClaudeCode_returns request w Hp) as [fs' ->].
    cbn [fst]. unfold response_after_launch. now rewrite Ho, Hj.
  - exact executeTemplate_prompt_failure.
Qed.

End AuditWriters.

(** The same run with and without a failure of the write of the audit
    conversion: a success becomes an [execution_error]; and a failure of the
    prompt persistence makes the template invocation throw. *)
Lemma conversion_failure_changes_response :
  let content := Sample.result_line "success" "false" "Done" in
  fst (executeClaudeCode Sample.request
         (Sample.world 0 "" content Sample.no_failure))
  = Ok {| output := JString "Done"; success := true;
          session_id := Some (JString "abc123"); retry_code := NONE |}
  /\ fst (executeClaudeCode Sample.request
            (Sample.world 0 "" content
               (Sample.fails_at "agents/a1/ops/cc_raw_output.json"
                  "ENOSPC: no space left on device")))
     = Ok {| output := JString "Error executing Claude Code: ENOSPC: no space left on device";
             success := false; session_id := None;
             retry_code := EXECUTION_ERROR |}
  /\ fst (executeTemplate Sample.template
            (Sample.world 0 "" content
               (Sample.fails_at "/repo/agents/a1/ops/prompts/build.txt"
                  "ENOSPC: no space left on device")))
     = Throw "ENOSPC: no space left on device".
Proof. vm_compute. repeat split. Qed.

Lemma audit_writer_failures_witness :
  let content := Sample.result_line "success" "false" "Done" in
  let error := "ENOSPC: no space left on device" in
  fst (executeClaudeCode Sample.request
         (Sample.world 0 "" content
            (Sample.fails_at "agents/a1/ops/cc_final_object.json" error)))
  = fst (executeClaudeCode Sample.request
           (Sample.world 0 "" content Sample.no_failure))
  /\ fst (executeClaudeCode Sample.request
            (Sample.world 0 "" content
               (Sample.fails_at "agents/a1/ops/cc_raw_output.json" error)))
     = Ok {| output := JString ("Error executing Claude Code: " ++ error);
             success := false; session_id := None;
             retry_code := EXECUTION_ERROR |}
  /\ fst (executeTemplate Sample.template
            (Sample.world 0 "" content
               (Sample.fails_at "/repo/agents/a1/ops/prompts/build.txt" error)))
     = Throw error.
Proof.
  intros content error.
  destruct (audit_writer_failures (RT := bun)) as (Hsnapshot & Hconvert & Hprompt).
  split; [|split].
  - apply Hsnapshot; [repeat split|reflexivity|reflexivity].
  - apply (Hconvert Sample.request _ 0 ""
             (write_file
                (write_file (fun _ => None) "agents/a1/ops/.placeholder" "")
                "agents/a1/ops/cc_raw_output.jsonl" content));
      vm_compute; reflexivity.
  - apply Hprompt; [reflexivity|].
    exists "build". split; [reflexivity|]. right. split; reflexivity.
Defined.

(* ------------------------------------------------------------------ *)
(** *** Template invocations and the permission flag *)

Section TemplateRuns.
Context {RT : Runtime}.

Lemma launched_refl (w : World) : launched w w [].
Proof. unfold launched. now rewrite app_nil_r. Qed.

Lemma launched_set_files (w : World) (fs : Files) :
  launched w (set_files w fs) [].
Proof. unfold launched. cbn. now rewrite app_nil_r. Qed.

Lemma launched_trans (w1 w2 w3 : World) (new1 new2 : list (list string)) :
  launched w1 w2 new1 -> launched w2 w3 new2 ->
  launched w1 w3 (new1 ++ new2)%list.
Proof.
  intros (Hs1 & Hc1 & Hm1) (Hs2 & Hc2 & Hm2). unfold launched.
  rewrite Hs2, Hs1, Hc2, Hm2, app_assoc. auto.
Qed.

Lemma wrapper_command_env (request : AgentPromptRequest) (w w' : World) :
  cwd w' = cwd w -> module_dir w' = module_dir w ->
  wrapper_command request w' = wrapper_command request w.
Proof. intros Hc Hm. unfold wrapper_command. now rewrite Hc, Hm. Qed.

(** One invocation calls [Bun.spawn] at most once, with the command line
    of the wrapper. *)
Lemma executeClaudeCode_launched (request : AgentPromptRequest) (w : World) :
  exists new,
    launched w (snd (executeClaudeCode request w)) new
    /\ Forall (eq (wrapper_command request w)) new.
Proof.
  destruct (write_error w (placeholder_path request)) as [e|] eqn:E.
  - rewrite (executeClaudeCode_throws request w e E).
    exists []. split; [apply launched_refl|constructor].
  - destruct (executeClaudeCode_returns request w E) as [fs ->].
    exists [wrapper_command request w]. split; [|repeat constructor].
    unfold launched. cbn. auto.
Qed.

Lemma attempts_launched (request : AgentPromptRequest) (maxRetries : Z)
  (retryDelays : list Num) (remaining : nat) :
  forall (attempt : Z) (w : World),
  exists new,
    launched w
      (snd (attempts executeClaudeCode sleep remaining attempt request
              maxRetries retryDelays w)) new
    /\ Forall (eq (wrapper_command request w)) new.
Proof.
  induction remaining as [|remaining IH]; intros attempt w.
  - exists []. split; [apply launched_refl|constructor].
  - cbn [attempts]. destruct (attempt <=? maxRetries);
      [|exists []; split; [apply launched_refl|constructor]].
    set (w0 := snd ((if attempt >? 0
                     then sleep (num_mul (List.nth (Z.to_nat (attempt - 1))
                                            retryDelays NaN) 1000)
                     else ret tt) w)).
    assert (H0 : launched w w0 []).
    { subst w0. destruct (attempt >? 0); cbn; [|apply launched_refl].
      unfold launched. cbn. now rewrite app_nil_r. }
    assert (Hrun : forall k : AgentPromptResponse -> M World AgentPromptResponse,
              (forall r w1, exists new,
                  launched w1 (snd (k r w1)) new
                  /\ Forall (eq (wrapper_command request w1)) new) ->
              exists new,
                launched w
                  (snd (bind (if attempt >? 0
                              then sleep (num_mul (List.nth (Z.to_nat (attempt - 1))
                                                     retryDelays NaN) 1000)
                              else ret tt)
                          (fun _ => bind (executeClaudeCode request) k) w)) new
                /\ Forall (eq (wrapper_command request w)) new).
    { intros k Hk. unfold bind at 1 2.
      assert (Hok : exists w0', (if attempt >? 0
                     then sleep (num_mul (List.nth (Z.to_nat (attempt - 1))
                                            retryDelays NaN) 1000)
                     else ret tt) w = (Ok tt, w0') /\ w0' = w0).
      { subst w0. destruct (attempt >? 0); eexists; split; reflexivity. }
      destruct Hok as (w0' & -> & ->).
      destruct (executeClaudeCode_launched request w0) as (new1 & L1 & F1).
      destruct H0 as (Hs0 & Hc0 & Hm0).
      rewrite (wrapper_command_env request w w0 Hc0 Hm0) in F1.
      destruct (executeClaudeCode request w0) as [[r|e] w1]; cbn [snd] in *.
      - destruct (Hk r w1) as (new2 & L2 & F2).
        destruct L1 as (Hs1 & Hc1 & Hm1).
        rewrite (wrapper_command_env request w0 w1 Hc1 Hm1) in F2.
        rewrite (wrapper_command_env request w w0 Hc0 Hm0) in F2.
        exists (new1 ++ new2)%list. split; [|now apply Forall_app].
        apply (launched_trans w w1 _ new1 new2); [|exact L2].
        unfold launched. rewrite Hs1, Hs0, app_nil_r, Hc1, Hm1. auto.
      - exists new1. split; [|exact F1].
        destruct L1 as (Hs1 & Hc1 & Hm1). unfold launched.
        rewrite Hs1, Hs0, app_nil_r, Hc1, Hm1. auto. }
    apply Hrun. intros r w1.
    assert (Hret : exists new, launched w1 (snd (ret r w1)) new
                     /\ Forall (eq (wrapper_command request w1)) new)
      by (exists []; split; [apply launched_refl|constructor]).
    destruct (success r || RetryCode_eqb (retry_code r) NONE); [exact Hret|].
    destruct (negb (existsb (RetryCode_eqb (retry_code r)) retryableCodes));
      [exact Hret|].
    destruct (attempt <? maxRetries); [apply IH|exact Hret].
Qed.

End TemplateRuns.

Section TemplateFlag.
Context {RT : Runtime}.

Lemma savePrompt_launched (prompt adwId agentName : string) (w : World) :
  launched w (snd (savePrompt prompt adwId agentName w)) [].
Proof.
  unfold savePrompt. destruct (slash_command_name prompt);
    [|apply launched_refl].
  unfold bind, import_meta_dir, Bun_write.
  destruct (write_error w _); [apply launched_refl|].
  cbn [write_error set_files].
  destruct (write_error w _); cbn [snd];
    unfold launched; cbn; now rewrite app_nil_r.
Qed.

Lemma wrapper_command_flag (request : AgentPromptRequest) (w : World) :
  dangerously_skip_permissions request = true ->
  List.nth 6 (wrapper_command request w) "" = "true".
Proof. intros H. unfold wrapper_command, wrapper_args. cbn. now rewrite H. Qed.

Lemma executeTemplate_launched (request : Template.AgentTemplateRequest)
  (w : World) :
  exists new,
    spawned (snd (executeTemplate request w)) = (spawned w ++ new)%list
    /\ Forall (eq (wrapper_command (template_request request w) w)) new.
Proof.
  unfold executeTemplate, bind at 1 2, import_meta_dir.
  unfold Bun_write at 1. fold (template_output_dir request w).
  destruct (write_error w _);
    [exists []; cbn; now rewrite app_nil_r|].
  set (w1 := set_files w _).
  fold (template_request request w).
  pose proof (savePrompt_launched (template_prompt request)
                (Template.adw_id request) (Template.agent_name request) w1)
    as (Hs2 & Hc2 & Hm2).
  unfold bind.
  destruct (savePrompt _ _ _ w1) as [[[]|e] w2]; cbn [snd] in *.
  - unfold executeClaudeCodeWithRetry, retry.
    match goal with
    | |- context [attempts _ _ ?n ?a ?r ?m ?d w2] =>
        destruct (attempts_launched r m d n a w2) as (new & (Hs & _ & _) & F)
    end.
    exists new. split.
    + rewrite Hs, Hs2. subst w1. cbn. now rewrite app_nil_r.
    + rewrite <- (wrapper_command_env (template_request request w) w w2);
        [exact F| |]; subst w1; cbn in *; congruence.
  - exists []. split; [|constructor].
    rewrite Hs2. subst w1. cbn. now rewrite !app_nil_r.
Qed.

(** C10.  The prompt request that [executeTemplate] builds has
    [dangerously_skip_permissions] set, whatever the template request
    holds, and every command line that a template invocation passes to
    [Bun.spawn] is that of the wrapper with ["true"] as its sixth
    argument; the template shell wrapper passes ["true"] as sixth
    argument to the process wrapper, and every agent command it leads to
    carries [--dangerously-skip-permissions]. *)
Theorem template_always_skips_permissions :
  (forall request prompt outputFile,
      dangerously_skip_permissions (promptRequest request prompt outputFile)
      = true)
  /\ (forall request w,
        exists new,
          spawned (snd (executeTemplate request w)) = (spawned w ++ new)%list
          /\ Forall (fun cmd =>
                       cmd = wrapper_command (template_request request w) w
                       /\ List.nth 6 cmd "" = "true") new)
  /\ (forall SLASH_COMMAND ARGS OUTPUT_FILE MODEL WORKING_DIR MCP_CONFIG_PATH,
        List.nth 5
          (Bash.exec_args SLASH_COMMAND ARGS OUTPUT_FILE MODEL WORKING_DIR
             MCP_CONFIG_PATH) "" = "true")
  /\ (forall codes sh script exec_script argv cmd,
        In cmd (Bash.agent_runs
                  (Bash.claude_code_template codes sh script exec_script argv)) ->
        In "--dangerously-skip-permissions" cmd).
Proof.
  split; [reflexivity|]. split; [|split; [reflexivity|]].
  - intros request w.
    destruct (executeTemplate_launched request w) as (new & Hs & F).
    exists new. split; [exact Hs|].
    eapply Forall_impl; [|exact F]. cbn beta. intros cmd <-.
    split; [reflexivity|]. now apply wrapper_command_flag.
  - exact BashFacts.template_skips_permissions.
Qed.

End TemplateFlag.

Lemma template_always_skips_permissions_witness :
  spawned (snd (executeTemplate Sample.template
                  (Sample.world 0 "" (Sample.result_line "success" "false" "Done")
                     Sample.no_failure)))
  = [["/repo/adws/bash/claude-code-exec.sh"; "/build x"; "sonnet";
      "/repo/agents/a1/ops/cc_raw_output.jsonl"; "/work"; ""; "true"]]
  /\ In "--dangerously-skip-permissions"
       ["claude"; "-p"; "/build x"; "--model"; "sonnet"; "--output-format";
        "stream-json"; "--verbose"; "--dangerously-skip-permissions"].
Proof.
  split; [vm_compute; reflexivity|].
  apply (proj2 (proj2 (proj2 (template_always_skips_permissions (RT := bun))))
           Bash.error_codes (Sample.shell true 0) "claude-code-template.sh"
           "claude-code-exec.sh" Sample.template_argv).
  vm_compute. left. reflexivity.
Defined.

(* ================================================================== *)
(** ** Further properties of the executor *)
(* ================================================================== *)

Section ParserEdges.
Context {RT : Runtime}.

(** X1.  For an output file that is missing or holds only white space,
    [parseJSONLOutput] returns no event and no result event; it does not
    throw and leaves the world as it is. *)
Theorem parse_of_missing_or_blank_file (outputFile : string) (w : World) :
  files w outputFile = None
  \/ (exists text, files w outputFile = Some text /\ trim text = "") ->
  parseJSONLOutput outputFile w = (Ok ([], None), w).
Proof.
  intros H. rewrite parseJSONLOutput_eq. f_equal. f_equal.
  unfold parse_output. destruct H as [->|(text & -> & Ht)]; [reflexivity|].
  unfold nonblank_lines. rewrite Ht. reflexivity.
Qed.

Lemma find_result_split (l : list JSON) (m : JSON) :
  find_result l = Ok (Some m) ->
  exists skipped rest,
    l = (skipped ++ m :: rest)%list /\ Forall passed_over skipped /\ is_result m.
Proof.
  induction l as [|x l IH]; cbn; [discriminate|].
  destruct (prop x "type") as [ty|e] eqn:P; [|discriminate].
  destruct (is_string ty "result") eqn:T.
  - intros [= ->]. exists [], l. repeat split; [constructor|].
    exists ty. now split.
  - intros H. destruct (IH H) as (skipped & rest & -> & Hs & Hm).
    exists (x :: skipped), rest. repeat split; [|exact Hm].
    constructor; [|exact Hs]. exists ty. now split.
Qed.

Lemma find_result_none (l : list JSON) :
  find_result l = Ok None -> Forall passed_over l.
Proof.
  induction l as [|x l IH]; cbn; [constructor|].
  destruct (prop x "type") as [ty|e] eqn:P; [|discriminate].
  destruct (is_string ty "result") eqn:T; [discriminate|].
  intros H. constructor; [|now apply IH]. exists ty. now split.
Qed.

Lemma parse_lines_ok (lines : list string) (events : list JSON) :
  parse_lines lines = Ok events ->
  Forall2 (fun line v => JSON_parse line = Some v) lines events.
Proof.
  revert events. induction lines as [|line lines IH]; cbn; intros events.
  - intros [= <-]. constructor.
  - unfold parse_json. destruct (JSON_parse line) as [v|] eqn:E; [|discriminate].
    destruct (parse_lines lines) as [vs|]; [|discriminate].
    intros [= <-]. constructor; [exact E|now apply IH].
Qed.

(** X2.  When [parseJSONLOutput] returns a result event, the events it
    returns are the parses of all the non-blank lines of the file, in order,
    the result event is one of them and has the type [result], and no event
    after it has: it is the last result event of the stream. *)
Theorem parsed_result_is_last_result (outputFile : string) (w : World)
  (events : list JSON) (m : JSON) :
  fst (parseJSONLOutput outputFile w) = Ok (events, Some m) ->
  exists text before after,
    files w outputFile = Some text
    /\ Forall2 (fun line v => JSON_parse line = Some v)
         (nonblank_lines text) events
    /\ events = (before ++ m :: after)%list
    /\ is_result m
    /\ Forall passed_over after.
Proof.
  rewrite parseJSONLOutput_eq. cbn [fst]. unfold parse_output.
  destruct (files w outputFile) as [text|]; [|discriminate].
  destruct (parse_lines (nonblank_lines text)) as [messages|] eqn:L;
    [|discriminate].
  destruct (find_result (rev messages)) as [r|] eqn:F; [|discriminate].
  intros [= -> ->].
  destruct (find_result_split _ _ F) as (skipped & rest & Hrev & Hs & Hm).
  exists text, (rev rest), (rev skipped).
  split; [reflexivity|]. split; [now apply parse_lines_ok|].
  split; [|split; [exact Hm|now apply Forall_rev]].
  rewrite <- (rev_involutive events), Hrev, rev_app_distr. cbn [rev].
  now rewrite <- app_assoc.
Qed.

End ParserEdges.

Lemma parse_of_missing_or_blank_file_witness :
  parseJSONLOutput "out.jsonl"
    (Sample.world_with_file "out.jsonl" (String SPACE (String LF (String LF " "))))
  = (Ok ([], None),
     Sample.world_with_file "out.jsonl" (String SPACE (String LF (String LF " ")))).
Proof.
  apply parse_of_missing_or_blank_file. right.
  eexists. split; [reflexivity|]. reflexivity.
Defined.

Lemma parsed_result_is_last_result_witness :
  exists text before after,
    files (Sample.world_with_file "out.jsonl" Sample.two_results) "out.jsonl"
    = Some text
    /\ Forall2 (fun line v => JSON_parse line = Some v) (nonblank_lines text)
         [Sample.result_event "success" true "first";
          Sample.result_event "success" false "second"]
    /\ [Sample.result_event "success" true "first";
        Sample.result_event "success" false "second"]
       = (before ++ Sample.result_event "success" false "second" :: after)%list
    /\ is_result (Sample.result_event "success" false "second")
    /\ Forall passed_over after.
Proof.
  apply (parsed_result_is_last_result "out.jsonl"
           (Sample.world_with_file "out.jsonl" Sample.two_results)).
  vm_compute. reflexivity.
Defined.

Section ClassificationEdges.
Context {RT : Runtime}.

Lemma classified_run (request : AgentPromptRequest) (w : World)
  (exitCode : Z) (stderr : string) (fs : Files) :
  reaches_classification request w exitCode stderr fs ->
  fst (executeClaudeCode request w)
  = Ok match classify exitCode stderr (result_message request fs) with
       | Ok response => response
       | Throw e => exception_response e
       end.
Proof.
  intros (Hp & Hj & Ho).
  destruct (executeClaudeCode_returns request w Hp) as [fs' ->].
  cbn [fst]. unfold response_after_launch. now rewrite Ho, Hj.
Qed.

(** X3.  When the wrapper exits with 124, a run that reaches the
    classification returns the timeout response: [success = false], the
    code [timeout_error], a fixed message and no session, whatever the
    output file holds. *)
Theorem exit_124_is_a_timeout (request : AgentPromptRequest) (w : World)
  (stderr : string) (fs : Files) :
  reaches_classification request w 124 stderr fs ->
  fst (executeClaudeCode request w)
  = Ok {| output := JString "Error: Claude Code command timed out after 5 minutes";
          success := false;
          session_id := None;
          retry_code := TIMEOUT_ERROR |}.
Proof.
  intros H. rewrite (classified_run _ _ _ _ _ H). unfold classify.
  destruct (result_message request fs); reflexivity.
Qed.

(** X4.  In a run that reaches the classification (neither the placeholder
    write nor the write of [cc_raw_output.json] fails), when the wrapper
    exits with 0 and the result message is neither flagged as an error nor
    of the subtype [error_during_execution], the response is a success with
    the code [none], the session of the message, and the result text of the
    message in full, however long it is. *)
Theorem successful_result_in_full (request : AgentPromptRequest) (w : World)
  (stderr : string) (fs : Files) (m : JSON) (text : string) :
  reaches_classification request w 0 stderr fs ->
  result_message request fs = Some m ->
  is_string (opt_prop (Some m) "subtype") "error_during_execution" = false ->
  truthy (opt_prop (Some m) "is_error") = false ->
  opt_prop (Some m) "result" = Some (JString text) ->
  fst (executeClaudeCode request w)
  = Ok {| output := JString text;
          success := true;
          session_id := opt_prop (Some m) "session_id";
          retry_code := NONE |}.
Proof.
  intros H Hm Hs He Hr. rewrite (classified_run _ _ _ _ _ H), Hm.
  destruct (result_message_object _ _ _ Hm) as [ms ->].
  unfold classify. change (truthy (Some (JObject ms))) with true.
  cbn [Z.eqb andb]. unfold result_response.
  rewrite subtype_or_else, Hs, truthy_or_else_false, He, Hr.
  cbn [andb negb]. unfold or_else. cbn [truthy].
  destruct (String.eqb_spec text ""); [subst|]; reflexivity.
Qed.

(** X5.  In a run that reaches the classification (neither the placeholder
    write nor the write of [cc_raw_output.json] fails), when the wrapper
    exits with 0 and the result message is flagged as an error (and not of
    the subtype [error_during_execution]), the response has the code [none]
    with [success = false]; its output is the result text unchanged when
    that has at most 1000 characters, and [truncateOutput(text, 800)] when
    it has more. *)
Theorem error_result_truncated_above_1000 (request : AgentPromptRequest)
  (w : World) (stderr : string) (fs : Files) (m : JSON) (text : string) :
  reaches_classification request w 0 stderr fs ->
  result_message request fs = Some m ->
  is_string (opt_prop (Some m) "subtype") "error_during_execution" = false ->
  truthy (opt_prop (Some m) "is_error") = true ->
  opt_prop (Some m) "result" = Some (JString text) ->
  fst (executeClaudeCode request w)
  = Ok {| output :=
            JString (if len text >? 1000
                     then truncateOutput text 800 DEFAULT_SUFFIX else text);
          success := false;
          session_id := opt_prop (Some m) "session_id";
          retry_code := NONE |}.
Proof.
  intros H Hm Hs He Hr. rewrite (classified_run _ _ _ _ _ H), Hm.
  destruct (result_message_object _ _ _ Hm) as [ms ->].
  unfold classify. change (truthy (Some (JObject ms))) with true.
  cbn [Z.eqb andb]. unfold result_response.
  rewrite subtype_or_else, Hs, truthy_or_else_false, He, Hr.
  cbn [andb negb]. unfold or_else. cbn [truthy].
  destruct (String.eqb_spec text "") as [->|Hne]; cbn [negb]; [reflexivity|].
  cbn [length_greater truncate_value].
  destruct (len text >? 1000); reflexivity.
Qed.

(** X6.  In a run that reaches the classification (neither the placeholder
    write nor the write of [cc_raw_output.json] fails), when the wrapper
    exits with 0 but the parser finds no result message (the file is
    missing or blank, a line does not parse, or no event has the type
    [result]), the run is classified as [claude_code_error] with
    [success = false] and no session; the output is the standard error of
    the wrapper, or the message with the exit code 0 when that is empty,
    passed through [truncateOutput(_, 800)]. *)
Theorem exit_0_without_result_is_an_error (request : AgentPromptRequest)
  (w : World) (stderr : string) (fs : Files) :
  reaches_classification request w 0 stderr fs ->
  result_message request fs = None ->
  fst (executeClaudeCode request w)
  = Ok {| output :=
            JString (truncateOutput
                       (if String.eqb stderr ""
                        then "Claude Code command failed with exit code 0"
                        else stderr) 800 DEFAULT_SUFFIX);
          success := false;
          session_id := None;
          retry_code := CLAUDE_CODE_ERROR |}.
Proof.
  intros H Hm. rewrite (classified_run _ _ _ _ _ H), Hm.
  unfold classify, error_response, error_message. cbn.
  destruct (String.eqb stderr ""); reflexivity.
Qed.

End ClassificationEdges.

Lemma exit_124_is_a_timeout_witness :
  fst (executeClaudeCode Sample.request
         (Sample.world 124 "" (Sample.result_line "success" "false" "Done")
            Sample.no_failure))
  = Ok {| output := JString "Error: Claude Code command timed out after 5 minutes";
          success := false;
          session_id := None;
          retry_code := TIMEOUT_ERROR |}.
Proof.
  apply (exit_124_is_a_timeout Sample.request _ ""
           (write_file
              (write_file (fun _ => None) "agents/a1/ops/.placeholder" "")
              "agents/a1/ops/cc_raw_output.jsonl"
              (Sample.result_line "success" "false" "Done"))).
  repeat split; vm_compute; reflexivity.
Defined.

Lemma successful_result_in_full_witness :
  fst (executeClaudeCode Sample.request
         (Sample.world 0 "" (Sample.result_line "success" "false" "Done")
            Sample.no_failure))
  = Ok {| output := JString "Done";
          success := true;
          session_id :=
            opt_prop (Some (Sample.result_event "success" false "Done"))
              "session_id";
          retry_code := NONE |}.
Proof.
  apply (successful_result_in_full Sample.request _ ""
           (write_file
              (write_file (fun _ => None) "agents/a1/ops/.placeholder" "")
              "agents/a1/ops/cc_raw_output.jsonl"
              (Sample.result_line "success" "false" "Done")));
    [repeat split| | | |]; vm_compute; reflexivity.
Defined.

Lemma error_result_truncated_above_1000_witness :
  fst (executeClaudeCode Sample.request
         (Sample.world 0 "" (Sample.result_line "success" "true" "Bad")
            Sample.no_failure))
  = Ok {| output :=
            JString (if len "Bad" >? 1000
                     then truncateOutput "Bad" 800 DEFAULT_SUFFIX else "Bad");
          success := false;
          session_id :=
            opt_prop (Some (Sample.result_event "success" true "Bad"))
              "session_id";
          retry_code := NONE |}.
Proof.
  apply (error_result_truncated_above_1000 Sample.request _ ""
           (write_file
              (write_file (fun _ => None) "agents/a1/ops/.placeholder" "")
              "agents/a1/ops/cc_raw_output.jsonl"
              (Sample.result_line "success" "true" "Bad")));
    [repeat split| | | |]; vm_compute; reflexivity.
Defined.

Lemma exit_0_without_result_is_an_error_witness :
  fst (executeClaudeCode Sample.request
         (Sample.world 0 "" ("not json" ++ String LF
                               (Sample.result_line "success" "false" "Done"))
            Sample.no_failure))
  = Ok {| output :=
            JString (truncateOutput
                       (if String.eqb "" ""
                        then "Claude Code command failed with exit code 0"
                        else "") 800 DEFAULT_SUFFIX);
          success := false;
          session_id := None;
          retry_code := CLAUDE_CODE_ERROR |}.
Proof.
  apply (exit_0_without_result_is_an_error Sample.request _ ""
           (write_file
              (write_file (fun _ => None) "agents/a1/ops/.placeholder" "")
              "agents/a1/ops/cc_raw_output.jsonl"
              ("not json" ++ String LF
                 (Sample.result_line "success" "false" "Done"))));
    [repeat split|]; vm_compute; reflexivity.
Defined.

(* ------------------------------------------------------------------ *)
(** *** The audit files *)

Lemma write_file_same (fs : Files) (path content : string) :
  write_file fs path content path = Some content.
Proof. unfold write_file. now rewrite String.eqb_refl. Qed.

Lemma set_files_same (w : World) : set_files w (files w) = w.
Proof. destruct w; reflexivity. Qed.

Section AuditFiles.
Context {RT : Runtime}.

(** X7.  [saveLastEntryAsRawResult] never throws and changes nothing but
    files.  It returns a path only when the file it reads holds a non-empty
    JSON array, and it has then written the last entry of that array to
    [cc_final_object.json] beside that file; in every other case (file
    missing, not JSON, not an array, empty array, write refused) it returns
    null and writes nothing. *)
Theorem snapshot_is_best_effort (jsonFile : string) (w : World) :
  exists r fs,
    saveLastEntryAsRawResult jsonFile w = (Ok r, set_files w fs)
    /\ match r with
       | Some path =>
           path = join [dirname jsonFile; FINAL_OBJECT_JSON]
           /\ exists text first others,
                files w jsonFile = Some text
                /\ JSON_parse text = Some (JArray (first :: others))
                /\ fs = write_file (files w) path
                          (JSON_stringify (List.last others first))
       | None => fs = files w
       end.
Proof.
  unfold saveLastEntryAsRawResult, try_catch, bind, lift, ret, Bun_file_text,
    Bun_write, parse_json.
  assert (Hnone : exists r fs,
            (Ok (A := option string) None, w) = (Ok r, set_files w fs)
            /\ match r with
               | Some path =>
                   path = join [dirname jsonFile; FINAL_OBJECT_JSON]
                   /\ exists text first others,
                        files w jsonFile = Some text
                        /\ JSON_parse text = Some (JArray (first :: others))
                        /\ fs = write_file (files w) path
                                  (JSON_stringify (List.last others first))
               | None => fs = files w
               end)
    by (exists None, (files w); now rewrite set_files_same).
  destruct (files w jsonFile) as [text|] eqn:F; [|exact Hnone].
  destruct (JSON_parse text) as [[| | | |[|first others]|]|] eqn:P;
    try exact Hnone.
  destruct (write_error w _) as [e|]; [exact Hnone|].
  eexists (Some _), _. split; [reflexivity|]. split; [reflexivity|].
  exists text, first, others. auto.
Qed.

(** X8.  For a stream file that is missing or holds only white space, the
    audit conversion still writes [cc_raw_output.json] beside it, holding
    the empty array, and returns its path; it throws exactly when that
    write fails, with the error of the write. *)
Theorem conversion_of_missing_stream (jsonlFile : string) (w : World) :
  files w jsonlFile = None
  \/ (exists text, files w jsonlFile = Some text /\ trim text = "") ->
  let jsonFile := join [dirname jsonlFile; OUTPUT_JSON] in
  convertJSONLToJSON jsonlFile w
  = match write_error w jsonFile with
    | Some e => (Throw e, w)
    | None =>
        (Ok jsonFile,
         set_files w (write_file (files w) jsonFile (JSON_stringify (JArray []))))
    end.
Proof.
  intros H jsonFile. unfold convertJSONLToJSON, bind.
  assert (Hparse : parseJSONLOutput jsonlFile w = (Ok ([], None), w)).
  { rewrite parseJSONLOutput_eq. f_equal. f_equal. unfold parse_output.
    destruct H as [->|(text & -> & Ht)]; [reflexivity|].
    unfold nonblank_lines. now rewrite Ht. }
  rewrite Hparse. unfold Bun_write. fold jsonFile.
  destruct (write_error w jsonFile); reflexivity.
Qed.

(** X9.  One call of [executeClaudeCode] never sleeps and never changes
    which writes fail.  When its placeholder write fails it launches
    nothing and leaves the world untouched; otherwise it calls [Bun.spawn]
    exactly once, with the wrapper script followed by six arguments. *)
Theorem one_launch_per_invocation (request : AgentPromptRequest) (w : World) :
  let w' := snd (executeClaudeCode request w) in
  slept w' = slept w
  /\ write_error w' = write_error w
  /\ (write_error w (placeholder_path request) <> None -> w' = w)
  /\ (write_error w (placeholder_path request) = None ->
      spawned w' = (spawned w ++ [wrapper_command request w])%list
      /\ List.length (wrapper_command request w) = 7%nat).
Proof.
  cbn zeta.
  destruct (write_error w (placeholder_path request)) as [e|] eqn:E.
  - rewrite (executeClaudeCode_throws request w e E). cbn [snd].
    split; [reflexivity|]. split; [reflexivity|].
    split; [reflexivity|discriminate].
  - destruct (executeClaudeCode_returns request w E) as [fs ->]. cbn [snd].
    split; [reflexivity|]. split; [reflexivity|].
    split; [intros H; now contradiction H|].
    intros _. split; reflexivity.
Qed.

(** X10.  [savePrompt] writes nothing for a prompt that does not start
    with a slash followed by a word character.  For a prompt of the form
    [/name...], where [name] is the longest run of word characters after the
    slash, it writes the whole prompt to [prompts/name.txt] under the
    directory of the agent, when its two writes succeed. *)
Theorem savePrompt_saves_slash_commands (prompt adwId agentName : string)
  (w : World) :
  (slash_command_name prompt = None ->
   savePrompt prompt adwId agentName w = (Ok tt, w))
  /\ (forall name,
        slash_command_name prompt = Some name ->
        let dir := join [join [module_dir w; ".."; ".."]; "agents"; adwId;
                         agentName; "prompts"] in
        (exists rest, prompt = "/" ++ name ++ rest
                      /\ name <> ""
                      /\ take_while is_word (name ++ rest) = name)
        /\ (write_error w (join [dir; ".placeholder"]) = None ->
            write_error w (join [dir; name ++ ".txt"]) = None ->
            exists w',
              savePrompt prompt adwId agentName w = (Ok tt, w')
              /\ files w' (join [dir; name ++ ".txt"]) = Some prompt)).
Proof.
  split.
  - intros H. unfold savePrompt. now rewrite H.
  - intros name H dir. split.
    + unfold slash_command_name in H.
      destruct prompt as [|c body]; [discriminate|].
      destruct (Ascii.eqb_spec c "/") as [->|Hc].
      * destruct (take_while is_word body) as [|d name'] eqn:T; [discriminate|].
        injection H as <-.
        assert (Hsplit : forall s, exists rest,
                  s = take_while is_word s ++ rest).
        { induction s as [|x s [rest IH]]; [exists ""; reflexivity|].
          cbn. destruct (is_word x); [|eexists; reflexivity].
          exists rest. cbn. now rewrite <- IH. }
        destruct (Hsplit body) as [rest Hrest]. rewrite T in Hrest.
        exists rest. split; [now rewrite Hrest at 1|].
        split; [discriminate|]. now rewrite <- Hrest.
      * exfalso. revert H.
        destruct c as [[] [] [] [] [] [] [] []]; try discriminate.
        now contradiction Hc.
    + intros Hp Hf. unfold savePrompt. rewrite H.
      unfold bind, import_meta_dir, Bun_write. fold dir. rewrite Hp.
      cbn [write_error set_files]. rewrite Hf.
      eexists. split; [reflexivity|]. cbn [files set_files].
      apply write_file_same.
Qed.

End AuditFiles.

Lemma conversion_of_missing_stream_witness :
  convertJSONLToJSON "agents/a1/ops/cc_raw_output.jsonl"
    (Sample.world 0 "" "" Sample.no_failure)
  = (Ok "agents/a1/ops/cc_raw_output.json",
     set_files (Sample.world 0 "" "" Sample.no_failure)
       (write_file (fun _ => None) "agents/a1/ops/cc_raw_output.json" "[]")).
Proof.
  refine (eq_trans
            (conversion_of_missing_stream "agents/a1/ops/cc_raw_output.jsonl"
               (Sample.world 0 "" "" Sample.no_failure) (or_introl eq_refl)) _).
  vm_compute. reflexivity.
Defined.

Lemma one_launch_per_invocation_witness :
  spawned (snd (executeClaudeCode Sample.request
                  (Sample.world 0 "" "" Sample.no_failure)))
  = ([] ++ [wrapper_command Sample.request
              (Sample.world 0 "" "" Sample.no_failure)])%list
  /\ List.length (wrapper_command Sample.request
                    (Sample.world 0 "" "" Sample.no_failure)) = 7%nat.
Proof.
  apply (one_launch_per_invocation Sample.request
           (Sample.world 0 "" "" Sample.no_failure)).
  reflexivity.
Defined.

Lemma savePrompt_saves_slash_commands_witness :
  savePrompt "hello" "a1" "ops" (Sample.world 0 "" "" Sample.no_failure)
  = (Ok tt, Sample.world 0 "" "" Sample.no_failure)
  /\ exists w',
       savePrompt "/build x" "a1" "ops" (Sample.world 0 "" "" Sample.no_failure)
       = (Ok tt, w')
       /\ files w' (join [join [join ["/repo/adws/bun_modules"; ".."; ".."];
                                "agents"; "a1"; "ops"; "prompts"];
                          "build" ++ ".txt"])
          = Some "/build x".
Proof.
  split.
  - apply (proj1 (savePrompt_saves_slash_commands "hello" "a1" "ops"
                    (Sample.world 0 "" "" Sample.no_failure))).
    reflexivity.
  - apply (proj2 (savePrompt_saves_slash_commands "/build x" "a1" "ops"
                    (Sample.world 0 "" "" Sample.no_failure)) "build");
      reflexivity.
Defined.

(* ================================================================== *)
(** ** Further properties of the retry controller *)
(* ================================================================== *)

Lemma retried_continues (r : AgentPromptResponse) :
  retried r ->
  success r || RetryCode_eqb (retry_code r) NONE = false
  /\ negb (existsb (RetryCode_eqb (retry_code r)) retryableCodes) = false.
Proof.
  intros [Hs Hc]. rewrite Hs. destruct (retry_code r); try tauto; split; reflexivity.
Qed.

Section ReplayedMore.

Variable request : AgentPromptRequest.
Variable maxRetries : Z.
Variable retryDelays : list Num.


(** The loop goes through a run of responses that are retried and
    returns the next one, when that one is final by itself or comes at the
    last attempt. *)
Lemma attempts_replay_final (r : AgentPromptResponse)
  (rest : list AgentPromptResponse) (failures : list AgentPromptResponse) :
  Forall retried failures ->
  forall (remaining : nat) (attempt : Z) (calls : nat),
    (retried r -> attempt + Z.of_nat (List.length failures) = maxRetries) ->
    attempt + Z.of_nat (List.length failures) <= maxRetries ->
    (List.length failures < remaining)%nat ->
    attempts replay_invoke replay_pause remaining attempt request maxRetries
      retryDelays ((failures ++ r :: rest)%list, calls)
    = (Ok r, (rest, (calls + List.length failures + 1)%nat)).
Proof.
  intros Hfail.
  induction Hfail as [|f failures Hf _ IH];
    intros remaining attempt calls Hlast Hm Hr;
    (destruct remaining as [|remaining]; [cbn in Hr; lia|]);
    cbn [attempts List.length app] in *;
    (replace (attempt <=? maxRetries) with true
       by (symmetry; apply Z.leb_le; lia));
    unfold bind at 1 2; unfold replay_invoke at 1; unfold replay_pause at 1;
    unfold ret at 1.
  - assert (Hstep :
      (if success r || RetryCode_eqb (retry_code r) NONE then ret r
       else if negb (existsb (RetryCode_eqb (retry_code r)) retryableCodes)
            then ret r
            else if attempt <? maxRetries
                 then attempts replay_invoke replay_pause remaining
                        (attempt + 1) request maxRetries retryDelays
                 else ret r)
      = ret r).
    { destruct (success r || RetryCode_eqb (retry_code r) NONE) eqn:E;
        [reflexivity|].
      destruct (negb (existsb (RetryCode_eqb (retry_code r)) retryableCodes));
        [reflexivity|].
      apply orb_false_iff in E as [Es Ec].
      assert (Hret : retried r)
        by (split; [exact Es|intros Hn; rewrite Hn in Ec; discriminate]).
      replace (attempt <? maxRetries) with false
        by (symmetry; apply Z.ltb_ge; specialize (Hlast Hret); lia).
      reflexivity. }
    destruct (attempt >? 0); cbn [fst snd]; rewrite Hstep; unfold ret;
      f_equal; f_equal; lia.
  - destruct (retried_continues f Hf) as [H1 H2].
    assert (Hlt : (attempt <? maxRetries) = true) by (apply Z.ltb_lt; lia).
    destruct (attempt >? 0); cbn [fst snd]; rewrite H1, H2, Hlt;
      (rewrite IH; [f_equal; f_equal; lia|intros Hret; specialize (Hlast Hret); lia
                   |lia|lia]).
Qed.

End ReplayedMore.



(** X13.  With a negative [maxRetries] the loop body never runs: the
    controller makes no invocation, does not wait, and throws the
    "unexpected retry logic" error, whatever the invocation is. *)
Theorem negative_max_retries_throws (S : Type)
  (invoke : AgentPromptRequest -> M S AgentPromptResponse)
  (pause : Num -> M S unit) (request : AgentPromptRequest) (maxRetries : Z)
  (retryDelays : list Num) (s : S) :
  maxRetries < 0 ->
  retry invoke pause request maxRetries retryDelays s
  = (Throw "Error: Unexpected retry logic error", s).
Proof.
  intros H. unfold retry.
  replace (Z.to_nat (maxRetries + 1)) with 0%nat by lia. reflexivity.
Qed.

(** X14.  The retry controller goes through the responses that are
    failures with a code other than [none] and returns the first response
    that is not one, when at most [maxRetries] such failures come before
    it; when the first [maxRetries] responses are all such failures it
    returns the next one whatever it is.  It makes exactly one invocation
    for each response up to the one it returns and none after it, which
    is at most [maxRetries + 1] invocations. *)
Theorem retry_returns_first_final_response (request : AgentPromptRequest)
  (maxRetries : Z) (retryDelays : list Num)
  (failures : list AgentPromptResponse) (r : AgentPromptResponse)
  (rest : list AgentPromptResponse) :
  Forall retried failures ->
  Z.of_nat (List.length failures) <= maxRetries ->
  (retried r -> Z.of_nat (List.length failures) = maxRetries) ->
  retry replay_invoke replay_pause request maxRetries retryDelays
    ((failures ++ r :: rest)%list, 0%nat)
  = (Ok r, (rest, (List.length failures + 1)%nat)).
Proof.
  intros Hfail Hmax Hlast. unfold retry.
  rewrite (attempts_replay_final request maxRetries _ r rest failures Hfail)
    by (try exact Hlast; lia).
  reflexivity.
Qed.



Lemma negative_max_retries_throws_witness :
  retry replay_invoke replay_pause Sample.request (-1) DEFAULT_RETRY_DELAYS
    ([Sample.successful_attempt], 0%nat)
  = (Throw "Error: Unexpected retry logic error",
     ([Sample.successful_attempt], 0%nat)).
Proof.
  apply (negative_max_retries_throws Replay replay_invoke replay_pause Sample.request
           (-1) DEFAULT_RETRY_DELAYS ([Sample.successful_attempt], 0%nat)).
  lia.
Defined.

Lemma retry_returns_first_final_response_witness :
  retry replay_invoke replay_pause Sample.request 2 DEFAULT_RETRY_DELAYS
    (([Sample.failed_attempt; Sample.failed_attempt]
        ++ Sample.failed_attempt :: [Sample.successful_attempt])%list, 0%nat)
  = (Ok Sample.failed_attempt, ([Sample.successful_attempt], (2 + 1)%nat)).
Proof.
  apply (retry_returns_first_final_response Sample.request 2
           DEFAULT_RETRY_DELAYS
           [Sample.failed_attempt; Sample.failed_attempt]
           Sample.failed_attempt [Sample.successful_attempt]).
  - repeat constructor; discriminate.
  - cbn. lia.
  - intros _. reflexivity.
Defined.

(* ------------------------------------------------------------------ *)
(** *** The delays between attempts *)

Lemma nth_last (l : list Num) (i : nat) :
  List.length l = S i -> List.nth i l NaN = List.last l NaN.
Proof.
  revert i. induction l as [|x l IH]; intros i H; [discriminate|].
  cbn [List.length] in H. injection H as H. destruct l as [|y l].
  - cbn in H. subst i. reflexivity.
  - destruct i as [|i]; [discriminate|].
    change (List.nth (S i) (x :: y :: l) NaN) with (List.nth i (y :: l) NaN).
    rewrite (IH i H). reflexivity.
Qed.

Lemma last_of_NaN (l : list Num) :
  Forall (eq NaN) l -> List.last l NaN = NaN.
Proof.
  induction 1 as [|x l Hx _ IH]; [reflexivity|].
  destruct l; [now subst|exact IH].
Qed.

Section Delays.

Variable maxRetries : Z.

Lemma extend_delays_prefix (fuel : nat) :
  forall retryDelays,
  exists tail, extend_delays fuel retryDelays maxRetries
               = (retryDelays ++ tail)%list.
Proof.
  induction fuel as [|fuel IH]; intros retryDelays; cbn.
  - exists []. now rewrite app_nil_r.
  - destruct (_ <? maxRetries); [|exists []; now rewrite app_nil_r].
    destruct (IH (retryDelays ++ [num_add (List.last retryDelays NaN) 2])%list)
      as [tail ->].
    eexists. now rewrite <- app_assoc.
Qed.

Lemma extend_delays_length (fuel : nat) :
  forall retryDelays,
  (Z.to_nat (maxRetries - Z.of_nat (List.length retryDelays)) <= fuel)%nat ->
  Z.of_nat (List.length (extend_delays fuel retryDelays maxRetries))
  = Z.max (Z.of_nat (List.length retryDelays)) maxRetries.
Proof.
  induction fuel as [|fuel IH]; intros retryDelays Hf; cbn [extend_delays].
  - lia.
  - destruct (Z.of_nat (List.length retryDelays) <? maxRetries) eqn:E.
    + apply Z.ltb_lt in E. rewrite IH; rewrite length_app; cbn [List.length]; lia.
    + apply Z.ltb_ge in E. lia.
Qed.

Lemma extend_delays_step (fuel : nat) :
  forall retryDelays i,
  (List.length retryDelays <= S i)%nat ->
  (S i < List.length (extend_delays fuel retryDelays maxRetries))%nat ->
  List.nth (S i) (extend_delays fuel retryDelays maxRetries) NaN
  = num_add (List.nth i (extend_delays fuel retryDelays maxRetries) NaN) 2.
Proof.
  induction fuel as [|fuel IH]; intros retryDelays i Hi Hlen;
    cbn [extend_delays] in *; [lia|].
  destruct (Z.of_nat (List.length retryDelays) <? maxRetries); [|lia].
  set (x := num_add (List.last retryDelays NaN) 2) in *.
  destruct (Nat.eq_dec (List.length retryDelays) (S i)) as [E|E].
  - destruct (extend_delays_prefix fuel (retryDelays ++ [x])%list) as [tail ->].
    rewrite <- app_assoc. cbn [app].
    rewrite (app_nth2 retryDelays) by lia. rewrite E, Nat.sub_diag. cbn [List.nth].
    rewrite app_nth1 by lia. now rewrite (nth_last retryDelays i E).
  - apply IH; [rewrite length_app; cbn [List.length]; lia|exact Hlen].
Qed.

Lemma extend_delays_NaN (fuel : nat) :
  forall retryDelays,
  Forall (eq NaN) retryDelays ->
  Forall (eq NaN) (extend_delays fuel retryDelays maxRetries).
Proof.
  induction fuel as [|fuel IH]; intros retryDelays H; cbn [extend_delays];
    [exact H|].
  destruct (_ <? maxRetries); [|exact H].
  apply IH. apply Forall_app. split; [exact H|].
  constructor; [|constructor]. now rewrite (last_of_NaN _ H).
Qed.

End Delays.

(** X15.  The list of delays that the retry controller works with keeps the
    delays it was given as a prefix and has [max(length, maxRetries)]
    entries; every entry it appends after a given one is the entry before
    it plus 2, and when it was given no delay at all every entry is
    [NaN]. *)
Theorem extended_delays (retryDelays : list Num) (maxRetries : Z) :
  let extended := extend_delays (Z.to_nat maxRetries) retryDelays maxRetries in
  (exists tail, extended = (retryDelays ++ tail)%list)
  /\ Z.of_nat (List.length extended)
     = Z.max (Z.of_nat (List.length retryDelays)) maxRetries
  /\ (forall i,
        (List.length retryDelays <= S i)%nat ->
        (S i < List.length extended)%nat ->
        List.nth (S i) extended NaN = num_add (List.nth i extended NaN) 2)
  /\ (retryDelays = [] -> Forall (eq NaN) extended).
Proof.
  cbn zeta. split; [apply extend_delays_prefix|].
  split; [apply extend_delays_length; lia|].
  split; [apply extend_delays_step|].
  intros ->. apply extend_delays_NaN. constructor.
Qed.

Lemma extended_delays_witness :
  List.nth (S 3) (extend_delays (Z.to_nat 5) DEFAULT_RETRY_DELAYS 5) NaN
  = num_add (List.nth 3 (extend_delays (Z.to_nat 5) DEFAULT_RETRY_DELAYS 5) NaN) 2
  /\ Forall (eq NaN) (extend_delays (Z.to_nat 2) [] 2).
Proof.
  split.
  - apply (proj1 (proj2 (proj2 (extended_delays DEFAULT_RETRY_DELAYS 5))));
      vm_compute; lia.
  - apply (proj2 (proj2 (proj2 (extended_delays [] 2)))). reflexivity.
Defined.

(* ------------------------------------------------------------------ *)
(** *** Retries of the executor itself *)

Section WorldRetry.
Context {RT : Runtime}.

Lemma failed_launch_is_retried (request : AgentPromptRequest) (w : World) :
  never_exits_with_0 w ->
  retried (response_after_launch request w).
Proof.
  intros Hnever. unfold response_after_launch.
  assert (Hexc : forall e, retried (exception_response e))
    by (intros e; split; [reflexivity|discriminate]).
  destruct (wrapper_outcome request w) as [e|exitCode stderr fs] eqn:O;
    [apply Hexc|].
  destruct (write_error w (raw_json_path request)); [apply Hexc|].
  destruct (classify exitCode stderr (result_message request fs)) as [r|e]
    eqn:C; [|apply Hexc].
  destruct (classify_spec _ _ _ _ C) as [C1 C2].
  assert (Hc : retry_code r <> NONE).
  { intros Hn. destruct (C2 Hn) as (m & _ & -> & _).
    unfold wrapper_outcome in O. exact (Hnever _ _ _ _ _ _ O). }
  split; [now apply C1|exact Hc].
Qed.

Variable request : AgentPromptRequest.
Variable maxRetries : Z.
Variable delays : list Num.

Lemma attempts_exhaust (remaining : nat) :
  forall (attempt : Z) (w : World),
    write_error w (placeholder_path request) = None ->
    never_exits_with_0 w ->
    1 <= attempt ->
    attempt + Z.of_nat remaining = maxRetries ->
    exists r w',
      attempts executeClaudeCode sleep (S remaining) attempt request maxRetries
        delays w = (Ok r, w')
      /\ retried r
      /\ spawned w'
         = (spawned w ++ repeat (wrapper_command request w) (S remaining))%list
      /\ slept w'
         = (slept w
              ++ List.map (fun i => num_mul (List.nth i delays NaN) 1000)
                   (seq (Z.to_nat (attempt - 1)) (S remaining)))%list.
Proof.
  induction remaining as [|remaining IH]; intros attempt w Hp Hnever Ha Hm.
  - cbn [attempts].
    replace (attempt <=? maxRetries) with true by (symmetry; apply Z.leb_le; lia).
    replace (attempt >? 0) with true by (symmetry; apply Z.gtb_lt; lia).
    replace (attempt <? maxRetries) with false by (symmetry; apply Z.ltb_ge; lia).
    unfold bind at 1 2. unfold sleep at 1.
    set (ws := log_sleep w _).
    destruct (executeClaudeCode_returns request ws Hp) as [fs ->].
    destruct (retried_continues _ (failed_launch_is_retried request ws Hnever))
      as [H1 H2].
    rewrite H1, H2. unfold ret.
    eexists _, _. split; [reflexivity|].
    split; [exact (failed_launch_is_retried request ws Hnever)|].
    split; reflexivity.
  - remember (S remaining) as n eqn:En. cbn [attempts].
    replace (attempt <=? maxRetries) with true by (symmetry; apply Z.leb_le; lia).
    replace (attempt >? 0) with true by (symmetry; apply Z.gtb_lt; lia).
    replace (attempt <? maxRetries) with true by (symmetry; apply Z.ltb_lt; lia).
    unfold bind at 1 2. unfold sleep at 1.
    set (ws := log_sleep w _).
    destruct (executeClaudeCode_returns request ws Hp) as [fs ->].
    destruct (retried_continues _ (failed_launch_is_retried request ws Hnever))
      as [H1 H2].
    rewrite H1, H2. subst n.
    set (w2 := set_files (log_spawn ws (wrapper_command request ws)) fs).
    destruct (IH (attempt + 1) w2 Hp Hnever) as (r & w' & Hrun & Hr & Hs & Hz);
      [lia|lia|].
    exists r, w'. split; [exact Hrun|]. split; [exact Hr|].
    split.
    + rewrite Hs. subst w2 ws. cbn [spawned set_files log_spawn log_sleep].
      rewrite <- app_assoc. reflexivity.
    + rewrite Hz. subst w2 ws. cbn [slept set_files log_spawn log_sleep].
      rewrite <- app_assoc. cbn [app seq List.map].
      replace (Z.to_nat (attempt + 1 - 1)) with (S (Z.to_nat (attempt - 1)))
        by lia.
      reflexivity.
Qed.

End WorldRetry.

Section WorldRetryTop.
Context {RT : Runtime}.

(** X16.  In a world where the placeholder write succeeds and no
    subprocess ever exits with 0, [executeClaudeCodeWithRetry] (with
    [maxRetries >= 0]) returns a failure after launching the wrapper exactly
    [maxRetries + 1] times, each time with the same command line, and after
    sleeping [1000 * delay] milliseconds before each retry, for the first
    [maxRetries] entries of the extended list of delays in order. *)
Theorem retry_exhausts_failing_wrapper (request : AgentPromptRequest)
  (maxRetries : Z) (retryDelays : list Num) (w : World) :
  0 <= maxRetries ->
  write_error w (placeholder_path request) = None ->
  never_exits_with_0 w ->
  let delays := extend_delays (Z.to_nat maxRetries) retryDelays maxRetries in
  exists r w',
    executeClaudeCodeWithRetry request maxRetries retryDelays w = (Ok r, w')
    /\ retried r
    /\ spawned w'
       = (spawned w
            ++ repeat (wrapper_command request w) (Z.to_nat maxRetries + 1))%list
    /\ slept w'
       = (slept w
            ++ List.map (fun i => num_mul (List.nth i delays NaN) 1000)
                 (seq 0 (Z.to_nat maxRetries)))%list.
Proof.
  intros H0 Hp Hnever delays.
  unfold executeClaudeCodeWithRetry, retry. fold delays.
  replace (Z.to_nat (maxRetries + 1)) with (S (Z.to_nat maxRetries)) by lia.
  remember (Z.to_nat maxRetries) as n eqn:En.
  cbn [attempts].
  replace (0 <=? maxRetries) with true by (symmetry; apply Z.leb_le; lia).
  change (0 >? 0) with false. cbv iota.
  unfold bind at 1 2. unfold ret at 1.
  destruct (executeClaudeCode_returns request w Hp) as [fs ->].
  destruct (retried_continues _ (failed_launch_is_retried request w Hnever))
    as [H1 H2].
  rewrite H1, H2.
  set (w2 := set_files (log_spawn w (wrapper_command request w)) fs).
  destruct n as [|n].
  - replace (0 <? maxRetries) with false by (symmetry; apply Z.ltb_ge; lia).
    exists (response_after_launch request w), w2.
    split; [reflexivity|].
    split; [exact (failed_launch_is_retried request w Hnever)|].
    split; [reflexivity|]. cbn. now rewrite app_nil_r.
  - replace (0 <? maxRetries) with true by (symmetry; apply Z.ltb_lt; lia).
    destruct (attempts_exhaust request maxRetries delays n (0 + 1) w2 Hp Hnever)
      as (r & w' & Hrun & Hr & Hs & Hz); [lia|lia|].
    exists r, w'. split; [exact Hrun|]. split; [exact Hr|].
    split.
    + rewrite Hs. subst w2. cbn [spawned set_files log_spawn].
      rewrite <- app_assoc. cbn [app].
      replace (S n + 1)%nat with (S (S n)) by lia. reflexivity.
    + rewrite Hz. reflexivity.
Qed.

End WorldRetryTop.

Lemma retry_exhausts_failing_wrapper_witness :
  exists r w',
    executeClaudeCodeWithRetry Sample.request 2 DEFAULT_RETRY_DELAYS
      Sample.failing_world = (Ok r, w')
    /\ retried r
    /\ spawned w'
       = (spawned Sample.failing_world
            ++ repeat (wrapper_command Sample.request Sample.failing_world)
                 (Z.to_nat 2 + 1))%list
    /\ slept w'
       = (slept Sample.failing_world
            ++ List.map
                 (fun i => num_mul
                             (List.nth i
                                (extend_delays (Z.to_nat 2) DEFAULT_RETRY_DELAYS 2)
                                NaN) 1000)
                 (seq 0 (Z.to_nat 2)))%list.
Proof.
  apply (retry_exhausts_failing_wrapper Sample.request 2 DEFAULT_RETRY_DELAYS
           Sample.failing_world); [lia|reflexivity|].
  intros n cmd dir fs stderr fs'. discriminate.
Defined.

(* ================================================================== *)
(** ** Further properties of the process wrapper *)
(* ================================================================== *)

Module BashMore.
Import Bash.

(** The wrapper run on six or more arguments that pass every check. *)
Lemma exec_runs_agent (codes : ErrorCodes) (sh : Shell) (script : string)
  (PROMPT MODEL OUTPUT_FILE WORKING_DIR MCP_CONFIG_PATH SKIP_PERMISSIONS : string)
  (extra : list string) :
  MODEL = "sonnet" \/ MODEL = "opus" ->
  is_directory sh WORKING_DIR = true ->
  command_found sh (CLAUDE_PATH sh) = true ->
  get_safe_env sh = 0 ->
  mkdir_p sh (dirname sh OUTPUT_FILE) = 0 ->
  cd sh WORKING_DIR = true ->
  agent_runs (claude_code_exec codes sh script
                (PROMPT :: MODEL :: OUTPUT_FILE :: WORKING_DIR
                   :: MCP_CONFIG_PATH :: SKIP_PERMISSIONS :: extra))
  = [agent_command sh PROMPT MODEL MCP_CONFIG_PATH SKIP_PERMISSIONS].
Proof.
  intros Hm Hd Hc Hg Hk Hcd. unfold claude_code_exec.
  rewrite Hd, Hc, Hg, Hk, Hcd.
  replace (negb (MODEL =? "sonnet")%string && negb (MODEL =? "opus")%string)
    with false by (destruct Hm as [-> | ->]; reflexivity).
  cbn [negb Z.eqb].
  destruct (_ =? 0); [|destruct (_ =? 124)]; reflexivity.
Qed.

(** X17.  The wrapper runs the agent at most once, and only after every
    check has passed: at least six arguments, a model that is [sonnet] or
    [opus], an existing working directory, an agent binary that resolves, a
    filtered environment, an output directory and a successful [cd]. *)
Theorem agent_runs_only_after_validation (codes : ErrorCodes) (sh : Shell)
  (script : string) (argv : list string) (cmd : list string) :
  In cmd (agent_runs (claude_code_exec codes sh script argv)) ->
  exists PROMPT MODEL OUTPUT_FILE WORKING_DIR MCP_CONFIG_PATH SKIP_PERMISSIONS
         extra,
    argv = PROMPT :: MODEL :: OUTPUT_FILE :: WORKING_DIR :: MCP_CONFIG_PATH
             :: SKIP_PERMISSIONS :: extra
    /\ (MODEL = "sonnet" \/ MODEL = "opus")
    /\ is_directory sh WORKING_DIR = true
    /\ command_found sh (CLAUDE_PATH sh) = true
    /\ get_safe_env sh = 0
    /\ mkdir_p sh (dirname sh OUTPUT_FILE) = 0
    /\ cd sh WORKING_DIR = true
    /\ agent_runs (claude_code_exec codes sh script argv) = [cmd]
    /\ cmd = agent_command sh PROMPT MODEL MCP_CONFIG_PATH SKIP_PERMISSIONS.
Proof.
  intros Hin.
  destruct argv as [|PROMPT [|MODEL [|OUTPUT_FILE [|WORKING_DIR
    [|MCP_CONFIG_PATH [|SKIP_PERMISSIONS extra]]]]]];
    try (cbn in Hin; tauto).
  assert (Hall : (MODEL = "sonnet" \/ MODEL = "opus")
                 /\ is_directory sh WORKING_DIR = true
                 /\ command_found sh (CLAUDE_PATH sh) = true
                 /\ get_safe_env sh = 0
                 /\ mkdir_p sh (dirname sh OUTPUT_FILE) = 0
                 /\ cd sh WORKING_DIR = true).
  { unfold claude_code_exec in Hin.
    destruct (negb (MODEL =? "sonnet")%string && negb (MODEL =? "opus")%string)
      eqn:Em; [cbn in Hin; tauto|].
    destruct (is_directory sh WORKING_DIR) eqn:Ed; [|cbn in Hin; tauto].
    destruct (command_found sh (CLAUDE_PATH sh)) eqn:Ec; [|cbn in Hin; tauto].
    destruct (Z.eqb_spec (get_safe_env sh) 0) as [Eg|Eg];
      [|cbn in Hin; tauto].
    destruct (Z.eqb_spec (mkdir_p sh (dirname sh OUTPUT_FILE)) 0) as [Ek|Ek];
      [|cbn in Hin; tauto].
    destruct (cd sh WORKING_DIR) eqn:Ecd; [|cbn in Hin; tauto].
    apply andb_false_iff in Em.
    repeat split; try assumption.
    destruct Em as [Em|Em]; apply negb_false_iff, String.eqb_eq in Em; auto. }
  destruct Hall as (Hm & Hd & Hc & Hg & Hk & Hcd).
  rewrite (exec_runs_agent codes sh script PROMPT MODEL OUTPUT_FILE WORKING_DIR
             MCP_CONFIG_PATH SKIP_PERMISSIONS extra Hm Hd Hc Hg Hk Hcd)
    in Hin |- *.
  destruct Hin as [<-|[]].
  exists PROMPT, MODEL, OUTPUT_FILE, WORKING_DIR, MCP_CONFIG_PATH,
    SKIP_PERMISSIONS, extra.
  repeat split; assumption.
Qed.

(** X18.  With exit codes of which only [EXIT_SUCCESS] is 0, the wrapper
    exits with 0 exactly when it ran the agent and the agent, under its
    timeout, ended with 0. *)
Theorem wrapper_succeeds_only_with_agent (codes : ErrorCodes) (sh : Shell)
  (script : string) (argv : list string) :
  EXIT_SUCCESS codes = 0 ->
  EXIT_CLAUDE_ERROR codes <> 0 ->
  EXIT_TIMEOUT codes <> 0 ->
  EXIT_INVALID_ARGS codes <> 0 ->
  let o := claude_code_exec codes sh script argv in
  status o = 0
  <-> exists cmd,
        agent_runs o = [cmd]
        /\ run_agent sh cmd (List.nth 3 argv "") (List.nth 2 argv "") = 0.
Proof.
  intros Hs Hc Ht Hi o. subst o. unfold claude_code_exec.
  destruct argv as [|PROMPT [|MODEL [|OUTPUT_FILE [|WORKING_DIR
    [|MCP_CONFIG_PATH [|SKIP_PERMISSIONS extra]]]]]];
    try (cbn; split; [intros H; contradiction|intros (cmd & H & _); discriminate]).
  cbn [List.nth].
  destruct (negb (MODEL =? "sonnet")%string && negb (MODEL =? "opus")%string);
    [cbn; split; [intros H; contradiction|intros (cmd & H & _); discriminate]|].
  destruct (is_directory sh WORKING_DIR); cbn [negb];
    [|cbn; split; [intros H; contradiction|intros (cmd & H & _); discriminate]].
  destruct (command_found sh (CLAUDE_PATH sh)); cbn [negb];
    [|cbn; split; [intros H; contradiction|intros (cmd & H & _); discriminate]].
  destruct (Z.eqb_spec (get_safe_env sh) 0) as [Eg|Eg]; cbn [negb];
    [|cbn; split; [intros H; contradiction|intros (cmd & H & _); discriminate]].
  destruct (Z.eqb_spec (mkdir_p sh (dirname sh OUTPUT_FILE)) 0) as [Ek|Ek];
    cbn [negb];
    [|cbn; split; [intros H; contradiction|intros (cmd & H & _); discriminate]].
  destruct (cd sh WORKING_DIR); cbn [negb];
    [|cbn; split; [intros H; contradiction|intros (cmd & H & _); discriminate]].
  set (CMD := agent_command sh PROMPT MODEL MCP_CONFIG_PATH SKIP_PERMISSIONS).
  destruct (run_agent sh CMD WORKING_DIR OUTPUT_FILE =? 0) eqn:E0.
  - apply Z.eqb_eq in E0. cbn. split; [|intros _; exact Hs].
    intros _. exists CMD. split; [reflexivity|exact E0].
  - apply Z.eqb_neq in E0.
    destruct (run_agent sh CMD WORKING_DIR OUTPUT_FILE =? 124); cbn;
      (split; [intros H; contradiction
              |intros (cmd & [= <-] & H); contradiction]).
Qed.

End BashMore.

Section ExecutorAndWrapper.
Context {RT : Runtime}.

(** X19.  [executeClaudeCode] hands the wrapper six arguments, with the
    model of the request as it is.  When that model is neither [sonnet] nor
    [opus] the wrapper rejects them: it exits with [EXIT_INVALID_ARGS] and
    the message about the model, and runs nothing.  When the model is one
    of the two and the directory, binary and environment checks pass as
    well, the wrapper runs the agent with the prompt and the model of the
    request, with the MCP configuration only if that file exists, and with
    [--dangerously-skip-permissions] exactly when the request sets
    [dangerously_skip_permissions]. *)
Theorem executor_arguments_reach_the_agent (codes : Bash.ErrorCodes)
  (sh : Bash.Shell) (script : string) (request : AgentPromptRequest)
  (cwd : string) :
  let argv := wrapper_args request cwd in
  let dir := List.nth 3 argv "" in
  let mcp := List.nth 4 argv "" in
  (model request <> "sonnet" ->
   model request <> "opus" ->
   Bash.claude_code_exec codes sh script argv
   = Bash.exit (Bash.EXIT_INVALID_ARGS codes)
       ["Error: Model must be 'sonnet' or 'opus', got: " ++ model request])
  /\ (model request = "sonnet" \/ model request = "opus" ->
      Bash.is_directory sh dir = true ->
      Bash.command_found sh (Bash.CLAUDE_PATH sh) = true ->
      Bash.get_safe_env sh = 0 ->
      Bash.mkdir_p sh (Bash.dirname sh (output_file request)) = 0 ->
      Bash.cd sh dir = true ->
      Bash.agent_runs (Bash.claude_code_exec codes sh script argv)
      = [([Bash.CLAUDE_PATH sh; "-p"; prompt request; "--model";
           model request; "--output-format"; "stream-json"; "--verbose"]
            ++ (if negb (String.eqb mcp "") && Bash.is_file sh mcp
                then ["--mcp-config"; mcp] else [])
            ++ (if dangerously_skip_permissions request
                then ["--dangerously-skip-permissions"] else []))%list]).
Proof.
  intros argv dir mcp. subst argv dir mcp.
  unfold wrapper_args. cbn [List.nth]. split.
  - intros Hs Ho. unfold Bash.claude_code_exec.
    apply String.eqb_neq in Hs, Ho. now rewrite Hs, Ho.
  - intros Hm Hd Hc Hg Hk Hcd.
    rewrite BashMore.exec_runs_agent by assumption.
    unfold Bash.agent_command. f_equal.
    destruct (dangerously_skip_permissions request); reflexivity.
Qed.

End ExecutorAndWrapper.

Lemma agent_runs_only_after_validation_witness :
  exists PROMPT MODEL OUTPUT_FILE WORKING_DIR MCP_CONFIG_PATH SKIP_PERMISSIONS
         extra,
    Sample.exec_argv
    = PROMPT :: MODEL :: OUTPUT_FILE :: WORKING_DIR :: MCP_CONFIG_PATH
        :: SKIP_PERMISSIONS :: extra
    /\ (MODEL = "sonnet" \/ MODEL = "opus")
    /\ Bash.is_directory (Sample.shell true 0) WORKING_DIR = true
    /\ Bash.command_found (Sample.shell true 0)
         (Bash.CLAUDE_PATH (Sample.shell true 0)) = true
    /\ Bash.get_safe_env (Sample.shell true 0) = 0
    /\ Bash.mkdir_p (Sample.shell true 0)
         (Bash.dirname (Sample.shell true 0) OUTPUT_FILE) = 0
    /\ Bash.cd (Sample.shell true 0) WORKING_DIR = true
    /\ Bash.agent_runs
         (Bash.claude_code_exec Bash.error_codes (Sample.shell true 0)
            "claude-code-exec.sh" Sample.exec_argv)
       = [["claude"; "-p"; "/build x"; "--model"; "sonnet"; "--output-format";
           "stream-json"; "--verbose"]]
    /\ ["claude"; "-p"; "/build x"; "--model"; "sonnet"; "--output-format";
        "stream-json"; "--verbose"]
       = Bash.agent_command (Sample.shell true 0) PROMPT MODEL MCP_CONFIG_PATH
           SKIP_PERMISSIONS.
Proof.
  apply (BashMore.agent_runs_only_after_validation Bash.error_codes
           (Sample.shell true 0) "claude-code-exec.sh" Sample.exec_argv).
  left. reflexivity.
Defined.

Lemma wrapper_succeeds_only_with_agent_witness :
  Bash.status (Bash.claude_code_exec Bash.error_codes (Sample.shell true 0)
                 "claude-code-exec.sh" Sample.exec_argv) = 0.
Proof.
  apply (BashMore.wrapper_succeeds_only_with_agent Bash.error_codes
           (Sample.shell true 0) "claude-code-exec.sh" Sample.exec_argv);
    try reflexivity; try discriminate.
  eexists. split; reflexivity.
Defined.

Lemma executor_arguments_reach_the_agent_witness :
  Bash.claude_code_exec Bash.error_codes (Sample.shell true 0)
    "claude-code-exec.sh" (wrapper_args Sample.haiku_request "/work")
  = Bash.exit 2 ["Error: Model must be 'sonnet' or 'opus', got: haiku"]
  /\ Bash.agent_runs
       (Bash.claude_code_exec Bash.error_codes (Sample.shell true 0)
          "claude-code-exec.sh" (wrapper_args Sample.request "/work"))
     = [(["claude"; "-p"; "/build x"; "--model"; "sonnet"; "--output-format";
          "stream-json"; "--verbose"] ++ [] ++ [])%list].
Proof.
  split.
  - apply (proj1 (executor_arguments_reach_the_agent Bash.error_codes
                    (Sample.shell true 0) "claude-code-exec.sh"
                    Sample.haiku_request "/work")); discriminate.
  - apply (proj2 (executor_arguments_reach_the_agent Bash.error_codes
                    (Sample.shell true 0) "claude-code-exec.sh" Sample.request
                    "/work"));
      [left; reflexivity|reflexivity..].
Defined.

(* ================================================================== *)
(** ** The filtered environment *)
(* ================================================================== *)

Lemma defined_entries_in (entries : list (string * option string))
  (k v : string) :
  In (k, v) (defined_entries entries) -> In k (List.map fst entries).
Proof.
  induction entries as [|[k' [v'|]] entries IH]; cbn; [tauto| |].
  - intros [[= -> _]|H]; [now left|right; now apply IH].
  - intros H. right. now apply IH.
Qed.

Lemma defined_entries_app (a b : list (string * option string)) :
  defined_entries (a ++ b) = (defined_entries a ++ defined_entries b)%list.
Proof.
  induction a as [|[k [v|]] a IH]; cbn; [reflexivity| |exact IH].
  now rewrite IH.
Qed.

Lemma entry_defined_skip (k k' : string) (o : option string)
  (entries : list (string * option string)) :
  k <> k' ->
  entry k (defined_entries ((k', o) :: entries))
  = entry k (defined_entries entries).
Proof.
  intros H. destruct o; [|reflexivity]. cbn.
  apply String.eqb_neq in H. now rewrite H.
Qed.

Lemma entry_defined_hit (k v : string)
  (entries : list (string * option string)) :
  entry k (defined_entries ((k, Some v) :: entries)) = Some v.
Proof. cbn. now rewrite String.eqb_refl. Qed.

(** X20.  [getSafeSubprocessEnv] leaks nothing of the ambient environment:
    every key of the record it returns is one of the fourteen names it
    reads, [PYTHONUNBUFFERED], [PWD] or [GH_TOKEN], and the record is the
    same for two environments that agree on those fourteen names, whatever
    else they hold. *)
Theorem safe_env_leaks_nothing (cwd : string) :
  (forall env k v,
      In (k, v) (getSafeSubprocessEnv env cwd) ->
      In k (SAFE_NAMES ++ ["PYTHONUNBUFFERED"; "PWD"; "GH_TOKEN"])%list)
  /\ (forall env1 env2,
        (forall k, In k SAFE_NAMES -> env1 k = env2 k) ->
        getSafeSubprocessEnv env1 cwd = getSafeSubprocessEnv env2 cwd).
Proof.
  split.
  - intros env k v H. unfold getSafeSubprocessEnv in H.
    assert (Hk : In k (List.map fst (safeEnvVars env cwd))
                 \/ k = "GH_TOKEN").
    { destruct (env "GITHUB_PAT") as [pat|];
        [destruct (negb (String.eqb pat ""))|];
        try (left; exact (defined_entries_in _ _ _ H)).
      rewrite defined_entries_app in H. apply in_app_or in H as [H|H].
      - left. exact (defined_entries_in _ _ _ H).
      - right. cbn in H. destruct H as [[= <- _]|[]]. reflexivity. }
    destruct Hk as [Hk| ->]; [|cbn; tauto].
    cbn in Hk |- *. tauto.
  - intros env1 env2 H. unfold getSafeSubprocessEnv, safeEnvVars.
    repeat match goal with
           | |- context [env1 ?k] => rewrite (H k) by (cbn; tauto)
           end.
    reflexivity.
Qed.

(** X21.  In the record of [getSafeSubprocessEnv], [GH_TOKEN] is present
    exactly when [GITHUB_PAT] is set and not empty, and then equal to it;
    [CLAUDE_CODE_PATH] is always present, with the value [claude] when the
    variable is unset or empty; [PWD] is the current directory and
    [PYTHONUNBUFFERED] is [1]. *)
Theorem safe_env_defaults (env : Environment) (cwd : string) :
  let safe := getSafeSubprocessEnv env cwd in
  entry "GH_TOKEN" safe
  = match env "GITHUB_PAT" with
    | Some pat => if String.eqb pat "" then None else Some pat
    | None => None
    end
  /\ entry "CLAUDE_CODE_PATH" safe
     = Some (match env "CLAUDE_CODE_PATH" with
             | Some path => if String.eqb path "" then "claude" else path
             | None => "claude"
             end)
  /\ entry "PWD" safe = Some cwd
  /\ entry "PYTHONUNBUFFERED" safe = Some "1".
Proof.
  cbn zeta.
  assert (Hform : exists tail,
            getSafeSubprocessEnv env cwd
            = defined_entries (safeEnvVars env cwd ++ tail)%list
            /\ entry "GH_TOKEN" (defined_entries tail)
               = match env "GITHUB_PAT" with
                 | Some pat => if String.eqb pat "" then None else Some pat
                 | None => None
                 end).
  { unfold getSafeSubprocessEnv.
    destruct (env "GITHUB_PAT") as [pat|];
      [destruct (String.eqb pat ""); cbn [negb]|].
    - exists []. now rewrite app_nil_r.
    - exists [("GH_TOKEN", Some pat)]. split; reflexivity.
    - exists []. now rewrite app_nil_r. }
  destruct Hform as (tail & -> & Hgh).
  unfold safeEnvVars. cbn [app].
  repeat split.
  - repeat (rewrite entry_defined_skip by discriminate). exact Hgh.
  - repeat (rewrite entry_defined_skip by discriminate).
    rewrite entry_defined_hit. reflexivity.
  - repeat (rewrite entry_defined_skip by discriminate).
    rewrite entry_defined_hit. reflexivity.
  - repeat (rewrite entry_defined_skip by discriminate).
    rewrite entry_defined_hit. reflexivity.
Qed.

Lemma safe_env_leaks_nothing_witness :
  In "HOME" (SAFE_NAMES ++ ["PYTHONUNBUFFERED"; "PWD"; "GH_TOKEN"])%list
  /\ getSafeSubprocessEnv
       (fun k => if String.eqb k "HOME" then Some "/root"
                 else if String.eqb k "AWS_SECRET_ACCESS_KEY" then Some "secret"
                 else None) "/work"
     = getSafeSubprocessEnv
         (fun k => if String.eqb k "HOME" then Some "/root" else None) "/work".
Proof.
  destruct (safe_env_leaks_nothing "/work") as [Hkeys Hsame]. split.
  - apply (Hkeys (fun k => if String.eqb k "HOME" then Some "/root" else None)
             "HOME" "/root").
    vm_compute. tauto.
  - apply Hsame. intros k Hk. cbn in Hk.
    repeat (destruct Hk as [<-|Hk]; [reflexivity|]). contradiction.
Defined.

(* ================================================================== *)
(** ** The slash command script *)
(* ================================================================== *)

(** One direction of an equivalence between a status and a run of
    [executeTemplate] whose outcome is known. *)
Ltac slash_side :=
  first
    [ discriminate
    | let c0 := fresh in let rest0 := fresh in let x := fresh in
      let Heq := fresh in let Hst := fresh in let H := fresh in
      let Hs := fresh in
      intros (c0 & rest0 & x & Heq & Hst & H);
      first
        [ discriminate Heq
        | injection Heq as <- <-;
          first
            [ congruence
            | destruct H as [H Hs];
              match goal with
              | Et : executeTemplate _ _ = _ |- _ => rewrite Et in H
              end;
              cbn in H; congruence
            | match goal with
              | Et : executeTemplate _ _ = _ |- _ => rewrite Et in H
              end;
              cbn in H; congruence ] ]
    | intros _; do 3 eexists; split; [reflexivity|];
      split; [eassumption|];
      match goal with
      | Et : executeTemplate _ _ = _ |- _ => rewrite Et
      end;
      first [reflexivity | split; [reflexivity|eassumption]] ].

Section SlashCommandStatus.
Context {RT : Runtime}.

(** X22.  [adw_slash_command] never throws and ends with the status 0, 1
    or 2.  Without arguments, or with a first argument that does not start
    with a slash, it ends with 1 and touches nothing.  It ends with 0 exactly
    when [executeTemplate] returned a response with [success = true], and
    with 2 exactly when [executeTemplate] threw. *)
Theorem slash_command_exit_status (args : list string) (adwId : string)
  (w : World) :
  exists code w',
    adw_slash_command args adwId w = (Ok code, w')
    /\ (code = 0 \/ code = 1 \/ code = 2)
    /\ (args = [] \/ (exists c rest, args = c :: rest /\ startsWith c "/" = false)
        -> code = 1 /\ w' = w)
    /\ (code = 0 <->
        exists c rest r,
          args = c :: rest /\ startsWith c "/" = true
          /\ fst (executeTemplate (slash_request c rest adwId w) w) = Ok r
          /\ success r = true)
    /\ (code = 2 <->
        exists c rest e,
          args = c :: rest /\ startsWith c "/" = true
          /\ fst (executeTemplate (slash_request c rest adwId w) w) = Throw e).
Proof.
  unfold adw_slash_command.
  destruct args as [|c rest].
  - exists 1, w. split; [reflexivity|]. split; [tauto|].
    split; [auto|]. split; split; slash_side.
  - destruct (startsWith c "/") eqn:Es; cbn [negb].
    + unfold bind at 1. unfold process_cwd. unfold try_catch, bind.
      fold (slash_request c rest adwId w).
      destruct (executeTemplate (slash_request c rest adwId w) w)
        as [[r|e] w'] eqn:Et.
      * destruct (success r) eqn:Sr.
        -- exists 0, w'. split; [reflexivity|]. split; [tauto|].
           split; [intros [[=]|(c' & rest' & [= <- <-] & H)]; congruence|].
           split; split; slash_side.
        -- exists 1, w'. split; [reflexivity|]. split; [tauto|].
           split; [intros [[=]|(c' & rest' & [= <- <-] & H)]; congruence|].
           split; split; slash_side.
      * exists 2, w'. split; [reflexivity|]. split; [tauto|].
        split; [intros [[=]|(c' & rest' & [= <- <-] & H)]; congruence|].
        split; split; slash_side.
    + exists 1, w. split; [reflexivity|]. split; [tauto|].
      split; [auto|]. split; split; slash_side.
Qed.

End SlashCommandStatus.

(* ================================================================== *)
(** ** Truncation of long texts *)
(* ================================================================== *)

Lemma get_beyond (s : string) :
  forall j : nat, (String.length s <= j)%nat -> String.get j s = None.
Proof.
  induction s as [|d r IH]; intros j Hj; [reflexivity|].
  destruct j as [|j]; cbn in *; [lia|]. apply IH. lia.
Qed.

(** What [last_in_prefix] finds among the first [n] characters. *)
Lemma last_in_prefix_last (c : ascii) (n : nat) :
  forall (s : string) (base : Z),
    0 <= base ->
    (last_in_prefix c s n base = -1
     /\ forall j, (j < n)%nat -> String.get j s <> Some c)
    \/ (base <= last_in_prefix c s n base < base + Z.of_nat n
        /\ String.get (Z.to_nat (last_in_prefix c s n base - base)) s = Some c
        /\ forall j,
             (Z.to_nat (last_in_prefix c s n base - base) < j < n)%nat ->
             String.get j s <> Some c).
Proof.
  induction n as [|n IH]; intros s base Hb.
  - left. split; [destruct s; reflexivity|intros j Hj; lia].
  - destruct s as [|d r].
    + left. split; [reflexivity|intros j _; destruct j; discriminate].
    + cbn [last_in_prefix]. cbv zeta.
      destruct (IH r (base + 1)) as [[Hnone Hall]|(Hrange & Hget & Hmax)];
        [lia| |].
      * rewrite Hnone. cbn [Z.leb]. change (0 <=? -1) with false. cbv iota.
        destruct (Ascii.eqb_spec d c) as [->|Hd].
        -- right. split; [lia|]. rewrite Z.sub_diag. split; [reflexivity|].
           intros [|j] Hj; [cbn in Hj; lia|]. cbn [String.get]. apply Hall. lia.
        -- left. split; [reflexivity|].
           intros [|j] Hj; cbn [String.get]; [congruence|apply Hall; lia].
      * replace (0 <=? last_in_prefix c r n (base + 1)) with true
          by (symmetry; apply Z.leb_le; lia).
        right. split; [lia|].
        replace (Z.to_nat (last_in_prefix c r n (base + 1) - base))
          with (S (Z.to_nat (last_in_prefix c r n (base + 1) - (base + 1))))
          by lia.
        split; [exact Hget|].
        intros [|j] Hj; [lia|]. cbn [String.get]. apply Hmax. lia.
Qed.

Lemma lastIndexOf_last (s : string) (c : ascii) (from : Z) :
  0 <= from -> last_at s c from (lastIndexOf s c from).
Proof.
  intros Hf. unfold lastIndexOf, last_at, len.
  set (n := Z.to_nat (Z.max 0 (Z.min from (Z.of_nat (String.length s))) + 1)).
  assert (Hout : forall i, 0 <= i <= from -> (n <= Z.to_nat i)%nat ->
                   String.get (Z.to_nat i) s <> Some c).
  { intros i Hi Hn. rewrite get_beyond; [discriminate|]. subst n. lia. }
  destruct (last_in_prefix_last c n s 0 (Z.le_refl 0))
    as [[Hnone Hall]|(Hrange & Hget & Hmax)].
  - left. split; [exact Hnone|]. intros i Hi.
    destruct (Nat.lt_ge_cases (Z.to_nat i) n) as [H|H];
      [now apply Hall|now apply Hout].
  - right. rewrite Z.sub_0_r in Hget, Hmax.
    split; [subst n; lia|]. split; [exact Hget|]. intros i Hi.
    destruct (Nat.lt_ge_cases (Z.to_nat i) n) as [H|H];
      [apply Hmax; lia|apply Hout; lia].
Qed.

Section LongTexts.
Context {RT : Runtime}.

(** X23.  A text that does not look like an event stream and is longer
    than the limit is cut and followed by the suffix (which is assumed to
    fit in the limit), and the result is no longer than the limit.  With
    [truncateAt = limit - length(suffix)], the cut is at the last newline at or
    before [truncateAt] when that newline lies after position 0 and less than 50
    characters before [truncateAt]; else at the last space at or before [truncateAt] when
    that space lies after position 0 and less than 20 characters before
    [truncateAt]; else exactly at [truncateAt]. *)
Theorem long_plain_text_is_cut (output : string) (maxLength : Z)
  (suffix : string) :
  looks_like_jsonl output = false ->
  maxLength < len output ->
  len suffix <= maxLength ->
  let truncateAt := maxLength - len suffix in
  exists newline space cut,
    last_at output LF truncateAt newline
    /\ last_at output SPACE truncateAt space
    /\ truncateOutput output maxLength suffix = slice0 output cut ++ suffix
    /\ len (truncateOutput output maxLength suffix) <= maxLength
    /\ ((truncateAt - 50 < newline /\ 0 < newline /\ cut = newline)
        \/ (~ (truncateAt - 50 < newline /\ 0 < newline)
            /\ truncateAt - 20 < space /\ 0 < space /\ cut = space)
        \/ (~ (truncateAt - 50 < newline /\ 0 < newline)
            /\ ~ (truncateAt - 20 < space /\ 0 < space)
            /\ cut = truncateAt)).
Proof.
  intros Hl Hlong Hs truncateAt. rewrite (truncateOutput_plain _ _ _ Hl).
  pose proof (truncate_plain_length output maxLength suffix Hs) as Hbound.
  unfold truncate_plain in *.
  replace (len output <=? maxLength) with false in *
    by (symmetry; apply Z.leb_gt; lia).
  fold truncateAt in Hbound |- *.
  assert (Hat : 0 <= truncateAt) by (subst truncateAt; lia).
  exists (lastIndexOf output LF truncateAt), (lastIndexOf output SPACE truncateAt).
  destruct ((lastIndexOf output LF truncateAt >? truncateAt - 50)
            && (lastIndexOf output LF truncateAt >? 0)) eqn:N.
  - apply andb_true_iff in N as [N1 N2].
    exists (lastIndexOf output LF truncateAt).
    split; [now apply lastIndexOf_last|]. split; [now apply lastIndexOf_last|].
    split; [reflexivity|]. split; [exact Hbound|]. left. lia.
  - assert (Hn : ~ (truncateAt - 50 < lastIndexOf output LF truncateAt
                    /\ 0 < lastIndexOf output LF truncateAt))
      by (apply andb_false_iff in N; lia).
    destruct ((lastIndexOf output SPACE truncateAt >? truncateAt - 20)
              && (lastIndexOf output SPACE truncateAt >? 0)) eqn:P.
    + apply andb_true_iff in P as [P1 P2].
      exists (lastIndexOf output SPACE truncateAt).
      split; [now apply lastIndexOf_last|].
      split; [now apply lastIndexOf_last|].
      split; [reflexivity|]. split; [exact Hbound|]. right. left.
      split; [exact Hn|lia].
    + assert (Hp : ~ (truncateAt - 20 < lastIndexOf output SPACE truncateAt
                      /\ 0 < lastIndexOf output SPACE truncateAt))
        by (apply andb_false_iff in P; lia).
      exists truncateAt.
      split; [now apply lastIndexOf_last|].
      split; [now apply lastIndexOf_last|].
      split; [reflexivity|]. split; [exact Hbound|]. right. right. auto.
Qed.

End LongTexts.

Lemma long_plain_text_is_cut_witness :
  let output := "one two three four five six seven" in
  let truncateAt := 25 - len DEFAULT_SUFFIX in
  exists newline space cut,
    last_at output LF truncateAt newline
    /\ last_at output SPACE truncateAt space
    /\ truncateOutput output 25 DEFAULT_SUFFIX
       = slice0 output cut ++ DEFAULT_SUFFIX
    /\ len (truncateOutput output 25 DEFAULT_SUFFIX) <= 25
    /\ ((truncateAt - 50 < newline /\ 0 < newline /\ cut = newline)
        \/ (~ (truncateAt - 50 < newline /\ 0 < newline)
            /\ truncateAt - 20 < space /\ 0 < space /\ cut = space)
        \/ (~ (truncateAt - 50 < newline /\ 0 < newline)
            /\ ~ (truncateAt - 20 < space /\ 0 < space)
            /\ cut = truncateAt)).
Proof.
  apply (long_plain_text_is_cut "one two three four five six seven" 25
           DEFAULT_SUFFIX); [reflexivity|vm_compute; reflexivity|
                             vm_compute; discriminate].
Defined.

(* ================================================================== *)
(** ** The two ways to build a template prompt *)
(* ================================================================== *)

Lemma trimEnd_app_space (s : string) : trimEnd (s ++ " ") = trimEnd s.
Proof.
  induction s as [|c s IH]; [reflexivity|].
  cbn [append trimEnd]. now rewrite IH.
Qed.

Lemma trim_app_space (s : string) : trim (s ++ " ") = trim s.
Proof.
  unfold trim. induction s as [|c s IH]; [reflexivity|].
  cbn [append trimStart]. destruct (is_ws c); [exact IH|].
  exact (trimEnd_app_space (String c s)).
Qed.

(** X24.  The prompt that [executeTemplate] builds is the prompt that
    [claude-code-template.sh] builds from the same slash command and the
    arguments joined by spaces, with the white space at both ends removed:
    the two template entry points send the same prompt whenever that
    prompt neither starts nor ends with white space. *)
Theorem template_prompts_agree (request : Template.AgentTemplateRequest)
  (OUTPUT_FILE MODEL WORKING_DIR MCP_CONFIG_PATH : string) :
  template_prompt request
  = trim (List.nth 0
            (Bash.exec_args (Template.slash_command request)
               (array_join " " (Template.args request))
               OUTPUT_FILE MODEL WORKING_DIR MCP_CONFIG_PATH) "").
Proof.
  unfold template_prompt, Bash.exec_args. cbn [List.nth].
  destruct (String.eqb_spec (array_join " " (Template.args request)) "")
    as [E|E]; cbn [negb]; [|reflexivity].
  rewrite E. apply trim_app_space.
Qed.

(* ================================================================== *)
(** ** Truncation of event streams *)
(* ================================================================== *)

Lemma length_trimStart (s : string) :
  (String.length (trimStart s) <= String.length s)%nat.
Proof.
  induction s as [|c s IH]; cbn; [lia|].
  destruct (is_ws c); cbn; lia.
Qed.

Lemma length_trimEnd (s : string) :
  (String.length (trimEnd s) <= String.length s)%nat.
Proof.
  induction s as [|c s IH]; cbn; [lia|].
  destruct (trimEnd s); [destruct (is_ws c)|]; cbn in *; lia.
Qed.

Lemma length_trim (s : string) :
  (String.length (trim s) <= String.length s)%nat.
Proof.
  unfold trim. pose proof (length_trimStart s).
  pose proof (length_trimEnd (trimStart s)). lia.
Qed.

Lemma length_split (sep : ascii) (s l : string) :
  In l (split sep s) -> (String.length l <= String.length s)%nat.
Proof.
  revert l. induction s as [|c s IH]; intros l; cbn.
  - intros [<-|[]]. cbn. lia.
  - destruct (Ascii.eqb c sep).
    + intros [<-|H]; [cbn; lia|]. specialize (IH l H). lia.
    + destruct (split sep s) as [|x xs].
      * intros [<-|[]]. cbn. lia.
      * intros [<-|H].
        -- specialize (IH x (or_introl eq_refl)). cbn. lia.
        -- specialize (IH l (or_intror H)). lia.
Qed.

Lemma widest_member (k : string) (ms : list (string * JSON)) (v : JSON) :
  lookup_member k ms = Some v ->
  (widest_text v <= widest_text (JObject ms))%nat.
Proof.
  induction ms as [|[k' v'] ms IH]; cbn [lookup_member]; [discriminate|].
  change (widest_text (JObject ((k', v') :: ms)))
    with (Nat.max (widest_text v') (widest_text (JObject ms))).
  destruct (lookup_member k ms) as [x|].
  - intros [= ->]. specialize (IH eq_refl). lia.
  - destruct (String.eqb k k'); [|discriminate]. intros [= ->]. lia.
Qed.

Lemma widest_opt_prop (d : JSValue) (k : string) (v x : JSON) :
  d = Some x -> opt_prop d k = Some v ->
  (widest_text v <= widest_text x)%nat.
Proof.
  intros -> H. destruct x; try discriminate. now apply widest_member in H.
Qed.

Section Shrinking.
Context {RT : Runtime}.
Hypothesis shrinks : parse_shrinks RT.

Lemma message_text_shorter (line text : string) :
  message_text line = Some text ->
  (String.length text < String.length line)%nat.
Proof.
  unfold message_text.
  destruct (String.eqb line ""); [discriminate|].
  destruct (JSON_parse line) as [data|] eqn:P; [|discriminate].
  apply shrinks in P.
  destruct (prop data "type") as [ty|]; [|discriminate].
  destruct (is_string ty "result" && typeof_string (opt_prop (Some data) "result")).
  - destruct (opt_prop (Some data) "result") as [[]|] eqn:R; try discriminate.
    intros [= <-]. apply (widest_opt_prop _ _ _ _ eq_refl) in R. cbn in R. lia.
  - destruct (is_string ty "assistant"
              && truthy (opt_prop (opt_prop (Some data) "message") "content"));
      [|discriminate].
    destruct (opt_prop (Some data) "message") as [m|] eqn:Em; [|discriminate].
    apply (widest_opt_prop _ _ _ _ eq_refl) in Em.
    destruct (opt_prop (Some m) "content") as [[]|] eqn:Ec; try discriminate.
    apply (widest_opt_prop _ _ _ _ eq_refl) in Ec.
    destruct items as [|x items]; [discriminate|]. cbn [hd_error].
    destruct (opt_prop (Some x) "text") as [[]|] eqn:Et; try discriminate.
    apply (widest_opt_prop _ _ _ _ eq_refl) in Et.
    destruct (truthy (Some (JString s))); [|discriminate].
    intros [= <-].
    change (widest_text (JArray (x :: items)))
      with (Nat.max (widest_text x) (widest_text (JArray items))) in Ec.
    cbn [widest_text] in Et. lia.
Qed.


End Shrinking.

(* ------------------------------------------------------------------ *)
(** *** The parser of [bun] shrinks *)

Module BunShrinks.
Import Bun.

Lemma length_skip_ws (s : string) :
  (String.length (skip_ws s) <= String.length s)%nat.
Proof.
  induction s as [|c s IH]; cbn; [lia|].
  destruct (is_json_ws c); cbn; lia.
Qed.

Lemma length_drop (n : nat) (s : string) :
  (String.length (drop n s) <= String.length s)%nat.
Proof.
  revert s. induction n as [|n IH]; intros [|c s]; cbn; try lia.
  specialize (IH s). lia.
Qed.

Lemma string_body_length (n : nat) :
  forall s body rest : string,
    (String.length s <= n)%nat ->
    string_body s = Some (body, rest) ->
    (S (String.length body + String.length rest) <= String.length s)%nat.
Proof.
  induction n as [|n IH]; intros [|c r] body rest Hn H;
    try discriminate H; cbn [String.length] in Hn; [lia|].
  cbn [string_body] in H. cbv zeta in H.
  destruct (Nat.eqb (nat_of_ascii c) 34).
  { injection H as <- <-. cbn. lia. }
  destruct (Nat.eqb (nat_of_ascii c) 92).
  - destruct r as [|e r']; [discriminate H|].
    assert (Hsimple : forall d,
      match string_body r' with
      | Some (body, rest) => Some (String (ascii_of_nat d) body, rest)
      | None => None
      end = Some (body, rest) ->
      (S (String.length body + String.length rest)
       <= String.length (String c (String e r')))%nat).
    { intros d Hd. destruct (string_body r') as [[b' rs']|] eqn:B;
        [|discriminate Hd]. injection Hd as <- <-.
      apply IH in B; cbn [String.length] in *; lia. }
    destruct e as [[] [] [] [] [] [] [] []];
      cbv beta iota delta [nat_of_ascii N_of_ascii N_of_digits N.to_nat
        N.add N.mul Pos.to_nat Pos.iter_op Pos.add Pos.mul Pos.succ
        Nat.add] in H;
      try discriminate H; try (exact (Hsimple _ H)).
    destruct r' as [|h1 [|h2 [|h3 [|h4 r'']]]]; try discriminate H.
    destruct (hex_value h1) as [[|?]|]; try discriminate H.
    destruct (hex_value h2) as [[|?]|]; try discriminate H.
    destruct (hex_value h3) as [a|]; try discriminate H.
    destruct (hex_value h4) as [b|]; try discriminate H.
    destruct (string_body r'') as [[b' rs']|] eqn:B; [|discriminate H].
    injection H as <- <-. apply IH in B; cbn [String.length] in *; lia.
  - destruct (Nat.ltb (nat_of_ascii c) 32); [discriminate H|].
    destruct (string_body r) as [[b' rs']|] eqn:B; [|discriminate H].
    injection H as <- <-. apply IH in B; cbn [String.length] in *; lia.
Qed.


Lemma number_sign_length (s : string) :
  (String.length
     (snd match s with
          | String "-" r => ("-", r)
          | _ => ("", s)
          end) <= String.length s)%nat.
Proof.
  destruct s as [|[[] [] [] [] [] [] [] []] r]; cbn; lia.
Qed.

Lemma number_fraction_length (s2 frac s3 : string) :
  match s2 with
  | String "." r =>
      let f := digits r in
      if String.eqb f "" then None else Some ("." ++ f, after f r)
  | _ => Some ("", s2)
  end = Some (frac, s3) ->
  (String.length s3 <= String.length s2)%nat.
Proof.
  destruct s2 as [|[[] [] [] [] [] [] [] []] r]; cbv zeta;
    try (intros [= _ <-]; cbn; lia).
  destruct (String.eqb (digits r) ""); [discriminate|].
  intros [= _ <-]. pose proof (length_drop (String.length (digits r)) r).
  unfold after. cbn [String.length]. lia.
Qed.

Lemma number_exponent_sign_length (r : string) :
  (String.length
     (snd match r with
          | String "+" r' => ("+", r')
          | String "-" r' => ("-", r')
          | _ => ("", r)
          end) <= String.length r)%nat.
Proof.
  destruct r as [|[[] [] [] [] [] [] [] []] r]; cbn; lia.
Qed.

Lemma number_literal_length (s lit rest : string) :
  number_literal s = Some (lit, rest) ->
  (String.length rest <= String.length s)%nat.
Proof.
  unfold number_literal.
  pose proof (number_sign_length s) as Hsign.
  destruct (match s with
            | String "-" r => ("-", r)
            | _ => ("", s)
            end) as [sign s1].
  cbn [snd] in Hsign. cbv zeta.
  destruct (String.eqb (digits s1) ""); [discriminate|].
  destruct (startsWith (digits s1) "0" && negb (String.eqb (digits s1) "0"))%bool;
    [discriminate|].
  pose proof (length_drop (String.length (digits s1)) s1) as Hint.
  fold (after (digits s1) s1) in Hint.
  pose proof (number_fraction_length (after (digits s1) s1)) as Hfrac.
  destruct (match after (digits s1) s1 with
            | String "." r =>
                let f := digits r in
                if String.eqb f "" then None else Some ("." ++ f, after f r)
            | _ => Some ("", after (digits s1) s1)
            end) as [[frac s3]|]; [|discriminate].
  specialize (Hfrac frac s3 eq_refl).
  destruct s3 as [|e r].
  - intros [= _ <-]. lia.
  - destruct (Ascii.eqb e "e" || Ascii.eqb e "E")%bool.
    + pose proof (number_exponent_sign_length r) as Hexp.
      destruct (match r with
                | String "+" r' => ("+", r')
                | String "-" r' => ("-", r')
                | _ => ("", r)
                end) as [esign r1].
      cbn [snd] in Hexp.
      destruct (String.eqb (digits r1) ""); [discriminate|].
      intros [= _ <-].
      pose proof (length_drop (String.length (digits r1)) r1).
      unfold after. cbn [String.length] in *. lia.
    + intros [= _ <-]. lia.
Qed.

Lemma widest_cons (k : string) (v : JSON) (ms : list (string * JSON)) :
  widest_text (JObject ((k, v) :: ms))
  = Nat.max (widest_text v) (widest_text (JObject ms)).
Proof. reflexivity. Qed.

Lemma widest_items (v : JSON) (items : list JSON) :
  widest_text (JArray (v :: items))
  = Nat.max (widest_text v) (widest_text (JArray items)).
Proof. reflexivity. Qed.

Lemma widest_set_member (k : string) (v : JSON) (ms : list (string * JSON)) :
  (widest_text (JObject (set_member k v ms))
   <= Nat.max (widest_text v) (widest_text (JObject ms)))%nat.
Proof.
  induction ms as [|[k' v'] ms IH]; cbn [set_member].
  - rewrite widest_cons. lia.
  - destruct (String.eqb k k'); rewrite !widest_cons; lia.
Qed.

(** What is left of a value that is neither an object nor an array. *)
Lemma scalar_shrinks (c : ascii) (r : string) (v : JSON) (rest : string) :
  (if Nat.eqb (nat_of_ascii c) 34 then
     match string_body r with
     | Some (body, rest) => Some (JString body, rest)
     | None => None
     end
   else if startsWith (String c r) "true"
        then Some (JBool true, after "true" (String c r))
   else if startsWith (String c r) "false"
        then Some (JBool false, after "false" (String c r))
   else if startsWith (String c r) "null"
        then Some (JNull, after "null" (String c r))
   else
     match number_literal (String c r) with
     | Some (lit, rest) => Some (JNumber lit, rest)
     | None => None
     end) = Some (v, rest) ->
  (widest_text v <= S (String.length r))%nat
  /\ (String.length rest <= S (String.length r))%nat.
Proof.
  destruct (Nat.eqb (nat_of_ascii c) 34).
  { destruct (string_body r) as [[body rest']|] eqn:B; [|discriminate].
    intros [= <- <-]. apply (string_body_length _ _ _ _ (le_n _)) in B.
    cbn [widest_text]. lia. }
  assert (Hafter : forall p,
    (String.length (after p (String c r)) <= S (String.length r))%nat).
  { intros p. apply (length_drop (String.length p) (String c r)). }
  destruct (startsWith (String c r) "true").
  { intros [= <- <-]. split; [cbn; lia|apply Hafter]. }
  destruct (startsWith (String c r) "false").
  { intros [= <- <-]. split; [cbn; lia|apply Hafter]. }
  destruct (startsWith (String c r) "null").
  { intros [= <- <-]. split; [cbn; lia|apply Hafter]. }
  destruct (number_literal (String c r)) as [[lit rest']|] eqn:N; [|discriminate].
  intros [= <- <-]. apply number_literal_length in N.
  cbn [widest_text String.length] in *. lia.
Qed.


Ltac head_cases x H :=
  destruct x as [|[[] [] [] [] [] [] [] []] ?r];
  cbv beta iota in H; try discriminate H.

Lemma value_shrinks (fuel : nat) :
  (forall s v rest,
     value fuel s = Some (v, rest) ->
     (widest_text v <= String.length s)%nat
     /\ (String.length rest <= String.length s)%nat)
  /\ (forall s items rest,
        elements fuel s = Some (items, rest) ->
        (widest_text (JArray items) <= String.length s)%nat
        /\ (String.length rest <= String.length s)%nat)
  /\ (forall s seen ms rest bound,
        members fuel s seen = Some (ms, rest) ->
        (String.length s <= bound)%nat ->
        (widest_text (JObject seen) <= bound)%nat ->
        (widest_text (JObject ms) <= bound)%nat
        /\ (String.length rest <= String.length s)%nat).
Proof.
  induction fuel as [|fuel (IHv & IHe & IHm)];
    [repeat split; discriminate|].
  split; [|split].
  - intros s v rest H. cbn [value] in H.
    pose proof (length_skip_ws s) as Hws.
    destruct (skip_ws s) as [|c r] eqn:E; [discriminate H|].
    cbn [String.length] in Hws.
    assert (Hobject :
      forall r1 : string, (String.length r1 <= String.length r)%nat ->
        match members fuel r1 [] with
        | Some (ms, rest) => Some (JObject ms, rest)
        | None => None
        end = Some (v, rest) ->
        (widest_text v <= String.length s)%nat
        /\ (String.length rest <= String.length s)%nat).
    { intros r1 Hr1 H1.
      destruct (members fuel r1 []) as [[ms rest']|] eqn:M; [|discriminate H1].
      injection H1 as <- <-.
      apply (IHm _ _ _ _ (String.length s)) in M; [lia|lia|cbn; lia]. }
    assert (Harray :
      forall r1 : string, (String.length r1 <= String.length r)%nat ->
        match elements fuel r1 with
        | Some (items, rest) => Some (JArray items, rest)
        | None => None
        end = Some (v, rest) ->
        (widest_text v <= String.length s)%nat
        /\ (String.length rest <= String.length s)%nat).
    { intros r1 Hr1 H1.
      destruct (elements fuel r1) as [[items rest']|] eqn:M; [|discriminate H1].
      injection H1 as <- <-. apply IHe in M. lia. }
    assert (Hscalar : forall r' : string,
      String.length r' = String.length r ->
      (widest_text v <= S (String.length r'))%nat
      /\ (String.length rest <= S (String.length r'))%nat ->
      (widest_text v <= String.length s)%nat
      /\ (String.length rest <= String.length s)%nat) by (intros; lia).
    destruct c as [[] [] [] [] [] [] [] []]; cbv beta iota in H;
      try (match type of E with
           | _ = String ?c' _ =>
               exact (Hscalar r eq_refl (scalar_shrinks c' r v rest H))
           end);
      clear Hscalar.
    + (* an object *)
      pose proof (length_skip_ws r) as Hr.
      destruct (skip_ws r) as [|[[] [] [] [] [] [] [] []] r1];
        cbv beta iota in H;
        try (apply (Hobject _ Hr H));
        try (injection H as <- <-; cbn [widest_text String.length] in *; lia).
    + (* an array *)
      pose proof (length_skip_ws r) as Hr.
      destruct (skip_ws r) as [|[[] [] [] [] [] [] [] []] r1];
        cbv beta iota in H;
        try (apply (Harray _ Hr H));
        try (injection H as <- <-; cbn [widest_text String.length] in *; lia).
  - intros s items rest H. cbn [elements] in H.
    destruct (value fuel s) as [[v rest0]|] eqn:V; [|discriminate H].
    apply IHv in V. pose proof (length_skip_ws rest0) as Hws.
    head_cases (skip_ws rest0) H.
    + injection H as <- <-. rewrite widest_items.
      cbn [widest_text String.length] in *. lia.
    + destruct (elements fuel r) as [[vs rest']|] eqn:Es; [|discriminate H].
      injection H as <- <-. apply IHe in Es.
      rewrite widest_items. cbn [String.length] in Hws. lia.
  - intros s seen ms rest bound H Hs Hseen. cbn [members] in H.
    pose proof (length_skip_ws s) as Hws.
    destruct (skip_ws s) as [|q r]; [discriminate H|].
    destruct (Nat.eqb (nat_of_ascii q) 34); [|discriminate H].
    destruct (string_body r) as [[key rest0]|] eqn:B; [|discriminate H].
    apply (string_body_length _ _ _ _ (le_n _)) in B.
    pose proof (length_skip_ws rest0) as Hws0.
    head_cases (skip_ws rest0) H.
    destruct (value fuel r0) as [[v rest1]|] eqn:V; [|discriminate H].
    apply IHv in V. cbv zeta in H.
    pose proof (widest_set_member key v seen) as Hset.
    pose proof (length_skip_ws rest1) as Hws1.
    cbn [String.length] in *.
    head_cases (skip_ws rest1) H.
    + injection H as <- <-. cbn [String.length] in *. lia.
    + apply (IHm _ _ _ _ bound) in H; cbn [String.length] in *; lia.
Qed.

Lemma bun_parse_shrinks : parse_shrinks bun.
Proof.
  intros line data H. cbn in H. unfold parse in H.
  destruct (value (2 * String.length line + 2) line) as [[v rest]|] eqn:V;
    [|discriminate H].
  destruct (skip_ws rest); [|discriminate H]. injection H as <-.
  now apply value_shrinks in V.
Qed.

End BunShrinks.

(* ------------------------------------------------------------------ *)
(** *** The backward scan *)

Section EventStreams.
Context {RT : Runtime}.

Lemma truncateOutput_fuel_plain (fuel : nat) (output : string) (maxLength : Z)
  (suffix : string) :
  looks_like_jsonl output = false ->
  truncateOutput_fuel fuel output maxLength suffix
  = truncate_plain output maxLength suffix.
Proof. intros H. destruct fuel; cbn [truncateOutput_fuel]; now rewrite H. Qed.

(** The backward scan stops at the last line that carries a text. *)
Lemma truncateOutput_fuel_text (fuel : nat) (output : string) (maxLength : Z)
  (suffix : string) (before after : list string) (line text : string) :
  looks_like_jsonl output = true ->
  split LF (trim output) = (before ++ line :: after)%list ->
  Forall (fun l => message_text l = None) after ->
  message_text line = Some text ->
  truncateOutput_fuel (S fuel) output maxLength suffix
  = truncateOutput_fuel fuel text maxLength suffix.
Proof.
  intros J Hs Hafter Ht.
  cbn [truncateOutput_fuel]. rewrite J, Hs, rev_app_distr. cbn [rev].
  rewrite <- app_assoc. cbn [app].
  apply Forall_rev in Hafter.
  induction Hafter as [|l ls Hl _ IH]; cbn [app].
  - now rewrite Ht.
  - now rewrite Hl.
Qed.

(** With no such line, the scan runs through and the placeholder is
    returned. *)
Lemma truncateOutput_fuel_no_text (fuel : nat) (output : string)
  (maxLength : Z) (suffix : string) :
  looks_like_jsonl output = true ->
  Forall (fun l => message_text l = None) (split LF (trim output)) ->
  truncateOutput_fuel fuel output maxLength suffix
  = jsonl_placeholder (List.length (split LF (trim output))) suffix.
Proof.
  intros J Hnone.
  assert (E : forall f, truncateOutput_fuel f output maxLength suffix
                 = truncateOutput_fuel 0 output maxLength suffix).
  { intros f. destruct f; [reflexivity|].
    cbn [truncateOutput_fuel]. rewrite J.
    apply Forall_rev in Hnone.
    induction Hnone as [|l ls Hl _ IH]; [reflexivity|]. now rewrite Hl. }
  rewrite E. cbn [truncateOutput_fuel]. rewrite J.
  apply Forall_rev in Hnone. unfold jsonl_placeholder.
  induction Hnone as [|l ls Hl _ IH]; [reflexivity|]. now rewrite Hl.
Qed.

(** The lines of a text, seen from the last one. *)
Lemma last_text_line (lines : list string) :
  Forall (fun l => message_text l = None) lines
  \/ exists before line after text,
       lines = (before ++ line :: after)%list
       /\ Forall (fun l => message_text l = None) after
       /\ message_text line = Some text.
Proof.
  induction lines as [|l lines [IH|(before & line & after & text & -> & Ha & Ht)]].
  - left. constructor.
  - destruct (message_text l) as [text|] eqn:E.
    + right. exists [], l, lines, text. now repeat split.
    + left. now constructor.
  - right. exists (l :: before), line, after, text. now repeat split.
Qed.

Lemma length_of_line (output line : string) (before after : list string) :
  split LF (trim output) = (before ++ line :: after)%list ->
  (String.length line <= String.length output)%nat.
Proof.
  intros Hs. pose proof (length_trim output) as Ht.
  pose proof (length_split LF (trim output) line) as Hl.
  rewrite Hs in Hl. specialize (Hl (in_elt _ _ _)). lia.
Qed.

Hypothesis shrinks : parse_shrinks RT.

(** Fuel above the length of the text is never used up. *)
Lemma truncateOutput_fuel_enough (maxLength : Z) (suffix : string) (n : nat) :
  forall (output : string) (f1 f2 : nat),
    (String.length output <= n)%nat ->
    (String.length output <= f1)%nat ->
    (String.length output <= f2)%nat ->
    truncateOutput_fuel f1 output maxLength suffix
    = truncateOutput_fuel f2 output maxLength suffix.
Proof.
  induction n as [|n IH]; intros output f1 f2 Hn H1 H2;
    (destruct (looks_like_jsonl output) eqn:J;
     [|now rewrite !truncateOutput_fuel_plain]).
  - destruct output; [discriminate J|cbn in Hn; lia].
  - destruct (last_text_line (split LF (trim output)))
      as [Hnone|(before & line & after & text & Hs & Ha & Ht)].
    + now rewrite !truncateOutput_fuel_no_text.
    + pose proof (length_of_line _ _ _ _ Hs) as Hl.
      pose proof (message_text_shorter shrinks _ _ Ht) as Hlt.
      destruct f1 as [|f1]; [lia|]. destruct f2 as [|f2]; [lia|].
      rewrite (truncateOutput_fuel_text f1 _ _ _ _ _ _ _ J Hs Ha Ht).
      rewrite (truncateOutput_fuel_text f2 _ _ _ _ _ _ _ J Hs Ha Ht).
      apply IH; lia.
Qed.

End EventStreams.

Section EventStreamTruncation.
Context {RT : Runtime}.

(** X25.  On a runtime whose [JSON.parse] returns only string values
    shorter than the text it parsed, [truncateOutput] answers for a text
    that looks like an event stream with what it answers for the text of
    the last line that carries one (the result text of a result event, or
    the first content text of an assistant message): the lines after it,
    which carry none, and all the lines before it play no part, and neither
    does the length of the stream. *)
Theorem event_stream_gives_last_text (output : string) (maxLength : Z)
  (suffix : string) (before after : list string) (line text : string) :
  parse_shrinks RT ->
  looks_like_jsonl output = true ->
  split LF (trim output) = (before ++ line :: after)%list ->
  Forall (fun l => message_text l = None) after ->
  message_text line = Some text ->
  truncateOutput output maxLength suffix
  = truncateOutput text maxLength suffix.
Proof.
  intros shrinks J Hs Ha Ht. unfold truncateOutput.
  pose proof (length_of_line _ _ _ _ Hs) as Hl.
  pose proof (message_text_shorter shrinks _ _ Ht) as Hlt.
  destruct (String.length output) as [|n] eqn:E; [lia|].
  rewrite (truncateOutput_fuel_text n _ _ _ _ _ _ _ J Hs Ha Ht).
  apply (truncateOutput_fuel_enough shrinks _ _ n); lia.
Qed.

(** X26.  A text that looks like an event stream and has no line that
    carries a text is replaced by the placeholder that counts its lines,
    followed by the suffix, whatever its length and the limit. *)
Theorem event_stream_without_text (output : string) (maxLength : Z)
  (suffix : string) :
  looks_like_jsonl output = true ->
  Forall (fun l => message_text l = None) (split LF (trim output)) ->
  truncateOutput output maxLength suffix
  = jsonl_placeholder (List.length (split LF (trim output))) suffix.
Proof. intros J Hnone. now apply truncateOutput_fuel_no_text. Qed.

(** X27.  On a runtime whose [JSON.parse] returns only string values
    shorter than the text it parsed, and with a suffix that fits in the
    limit, the answer of [truncateOutput] is either within the limit or the
    placeholder of an event stream followed by the suffix, for every text:
    also for an event stream whose last text is itself an event stream. *)
Theorem truncated_or_placeholder (output : string) (maxLength : Z)
  (suffix : string) :
  parse_shrinks RT ->
  len suffix <= maxLength ->
  len (truncateOutput output maxLength suffix) <= maxLength
  \/ exists messages : nat,
       truncateOutput output maxLength suffix
       = jsonl_placeholder messages suffix.
Proof.
  intros shrinks Hsuffix. unfold truncateOutput.
  generalize (le_n (String.length output)).
  generalize (String.length output) at 2 3 4 as fuel.
  intros fuel. revert output.
  induction fuel as [|fuel IH]; intros output Hn;
    (destruct (looks_like_jsonl output) eqn:J;
     [|left; rewrite truncateOutput_fuel_plain by exact J;
       now apply truncate_plain_length]).
  - destruct output; [discriminate J|cbn in Hn; lia].
  - destruct (last_text_line (split LF (trim output)))
      as [Hnone|(before & line & after & text & Hs & Ha & Ht)].
    + right. eexists. now apply truncateOutput_fuel_no_text.
    + pose proof (length_of_line _ _ _ _ Hs) as Hl.
      pose proof (message_text_shorter shrinks _ _ Ht) as Hlt.
      rewrite (truncateOutput_fuel_text fuel _ _ _ _ _ _ _ J Hs Ha Ht).
      apply IH. lia.
Qed.

End EventStreamTruncation.

Lemma event_stream_gives_last_text_witness :
  truncateOutput Sample.stream_with_text 500 DEFAULT_SUFFIX
  = truncateOutput "Done" 500 DEFAULT_SUFFIX.
Proof.
  apply (event_stream_gives_last_text
           Sample.stream_with_text 500 DEFAULT_SUFFIX
           [Sample.event_line "system"] [Sample.event_line "user"]
           (Sample.result_line "success" "false" "Done") "Done").
  - exact BunShrinks.bun_parse_shrinks.
  - vm_compute; reflexivity.
  - vm_compute; reflexivity.
  - apply Forall_cons; [vm_compute; reflexivity|apply Forall_nil].
  - vm_compute; reflexivity.
Defined.

Lemma event_stream_without_text_witness :
  truncateOutput Sample.two_events 500 DEFAULT_SUFFIX
  = jsonl_placeholder
      (List.length (split LF (trim Sample.two_events))) DEFAULT_SUFFIX.
Proof.
  apply (event_stream_without_text Sample.two_events 500 DEFAULT_SUFFIX).
  - vm_compute; reflexivity.
  - replace (split LF (trim Sample.two_events))
      with [Sample.event_line "a"; Sample.event_line "b"]
      by (vm_compute; reflexivity).
    apply Forall_cons; [vm_compute; reflexivity|].
    apply Forall_cons; [vm_compute; reflexivity|apply Forall_nil].
Defined.

Lemma truncated_or_placeholder_witness :
  len (truncateOutput Sample.stream_with_text 500 DEFAULT_SUFFIX) <= 500
  \/ exists messages : nat,
       truncateOutput Sample.stream_with_text 500 DEFAULT_SUFFIX
       = jsonl_placeholder messages DEFAULT_SUFFIX.
Proof.
  apply (truncated_or_placeholder
           Sample.stream_with_text 500 DEFAULT_SUFFIX).
  - exact BunShrinks.bun_parse_shrinks.
  - vm_compute. discriminate.
Defined.
